(** * MedScribe: the rule-based summarisation pipeline

    A shallow embedding of [utils/text_processor.py] (class [TextProcessor])
    and [utils/summarizer.py] (class [MedicalSummarizer]), together with the
    properties of the pipeline stated in the specification.

    Modelling conventions.
    - A Python [str] is a [string]; the characters modelled are the code
      points below 128 (7-bit ASCII).  Character classes ([\w], [\s], [\d],
      [str.isspace], [string.punctuation], [str.lower], [str.title]) are
      given on that range as CPython defines them there; bytes above 127 are
      in no class and have no case.
    - The regular expressions of the source are kept as the pattern strings
      the source writes.  They are parsed by [Re.parse] and run by a
      backtracking matcher with the semantics of CPython's [re] for the
      constructs the source uses: literals, classes, [.], [\b], [$], greedy
      and lazy repetition, alternation, one capturing group, non-capturing
      groups and lookahead, with the flags IGNORECASE and DOTALL.
    - [set(...)] is a [gset string] and [list(set(...))] its [elements];
      the [sections] dictionary is a [gmap string string]; dictionaries that
      are iterated in insertion order are association lists. *)

From Stdlib Require Import String Ascii List Bool Arith Lia Sorted.
From stdpp Require Import gmap strings.
Import ListNotations.
Local Open Scope string_scope.
Local Open Scope nat_scope.
Local Open Scope list_scope.

(** ** Characters *)

Module Char.

Definition code (c : ascii) : nat := nat_of_ascii c.

Definition between (lo hi : nat) (c : ascii) : bool :=
  (lo <=? code c) && (code c <=? hi).

Definition is_digit (c : ascii) : bool := between 48 57 c.
Definition is_upper (c : ascii) : bool := between 65 90 c.
Definition is_lower (c : ascii) : bool := between 97 122 c.
Definition is_alpha (c : ascii) : bool := is_upper c || is_lower c.

(** [\w] on ASCII: letters, digits and the underscore. *)
Definition is_word (c : ascii) : bool :=
  is_alpha c || is_digit c || (code c =? 95).

(** [\s] and [str.isspace] on ASCII: TAB, LF, VT, FF, CR, the four
    separators FS, GS, RS, US, and the space. *)
Definition is_space (c : ascii) : bool :=
  between 9 13 c || between 28 32 c.

(** [string.punctuation]. *)
Definition is_punct (c : ascii) : bool :=
  between 33 47 c || between 58 64 c || between 91 96 c || between 123 126 c.

Definition lower (c : ascii) : ascii :=
  if is_upper c then ascii_of_nat (code c + 32) else c.
Definition upper (c : ascii) : ascii :=
  if is_lower c then ascii_of_nat (code c - 32) else c.

Definition eqb_ci (a b : ascii) : bool := Ascii.eqb (lower a) (lower b).

Definition newline : ascii := ascii_of_nat 10.

End Char.

(** ** Python string operations used by the source *)

Module Str.

Fixpoint all (f : ascii -> bool) (s : string) : bool :=
  match s with
  | EmptyString => true
  | String a s' => f a && all f s'
  end.

Fixpoint map (f : ascii -> ascii) (s : string) : string :=
  match s with
  | EmptyString => EmptyString
  | String a s' => String (f a) (map f s')
  end.

Fixpoint filter (f : ascii -> bool) (s : string) : string :=
  match s with
  | EmptyString => EmptyString
  | String a s' => if f a then String a (filter f s') else filter f s'
  end.

(** [s.lower()] *)
Definition lower (s : string) : string := map Char.lower s.

(** [s.title()]: a cased character is upper-cased when the character
    before it is not cased, and lower-cased otherwise. *)
Fixpoint title_go (prev_cased : bool) (s : string) : string :=
  match s with
  | EmptyString => EmptyString
  | String a s' =>
      if Char.is_alpha a
      then String (if prev_cased then Char.lower a else Char.upper a)
                  (title_go true s')
      else String a (title_go false s')
  end.
Definition title (s : string) : string := title_go false s.

(** [s.lstrip(chars)], [s.rstrip(chars)], [s.strip(chars)] for the set of
    characters recognised by [f]. *)
Fixpoint lstrip_by (f : ascii -> bool) (s : string) : string :=
  match s with
  | EmptyString => EmptyString
  | String a s' => if f a then lstrip_by f s' else s
  end.

Fixpoint rstrip_by (f : ascii -> bool) (s : string) : string :=
  match s with
  | EmptyString => EmptyString
  | String a s' =>
      match rstrip_by f s' with
      | EmptyString => if f a then EmptyString else String a EmptyString
      | t => String a t
      end
  end.

Definition strip_by (f : ascii -> bool) (s : string) : string :=
  rstrip_by f (lstrip_by f s).

(** [s.strip()] *)
Definition strip (s : string) : string := strip_by Char.is_space s.

(** [sep.join(l)] *)
Fixpoint join (sep : string) (l : list string) : string :=
  match l with
  | [] => EmptyString
  | [x] => x
  | x :: l' => x +:+ sep +:+ join sep l'
  end.

(** Splitting at every character recognised by [f]; empty pieces are
    kept, so the result is never the empty list. *)
Fixpoint split_by (f : ascii -> bool) (s : string) : list string :=
  match s with
  | EmptyString => [EmptyString]
  | String a s' =>
      if f a then EmptyString :: split_by f s'
      else match split_by f s' with
           | p :: ps => String a p :: ps
           | [] => [String a EmptyString]
           end
  end.

Definition nonempty (s : string) : bool :=
  match s with EmptyString => false | _ => true end.

(** [s.split(c)] for a one-character separator. *)
Definition split_char (c : ascii) (s : string) : list string :=
  split_by (Ascii.eqb c) s.

(** [s.split()]: the maximal runs of non-whitespace characters, that is the
    non-empty pieces between whitespace characters. *)
Definition words (s : string) : list string :=
  List.filter nonempty (split_by Char.is_space s).

(** [s.startswith(p)] *)
Fixpoint startswith (p s : string) : bool :=
  match p, s with
  | EmptyString, _ => true
  | String a p', String b s' => Ascii.eqb a b && startswith p' s'
  | String _ _, EmptyString => false
  end.

(** [p in s] *)
Fixpoint contains (p s : string) : bool :=
  startswith p s ||
  match s with
  | EmptyString => false
  | String _ s' => contains p s'
  end.

(** [s.endswith(p)] *)
Fixpoint endswith (p s : string) : bool :=
  String.eqb p s ||
  match s with
  | EmptyString => false
  | String _ s' => endswith p s'
  end.

(** [s[:n]] *)
Fixpoint take (n : nat) (s : string) : string :=
  match n, s with
  | S n', String a s' => String a (take n' s')
  | _, _ => EmptyString
  end.

(** [s[n:]] *)
Fixpoint drop (n : nat) (s : string) : string :=
  match n, s with
  | S n', String _ s' => drop n' s'
  | _, _ => s
  end.

(** The last character, [s[-1]]. *)
Fixpoint last (s : string) : option ascii :=
  match s with
  | EmptyString => None
  | String a EmptyString => Some a
  | String _ s' => last s'
  end.

End Str.

(** ** Regular expressions *)

Module Re.

(** *** Abstract syntax *)

Inductive item : Type :=
| IChar (a : ascii)
| IDigit
| IWord
| ISpace.

Inductive regex : Type :=
| Eps
| Chr (a : ascii)                       (* a literal character *)
| Dot                                   (* [.] *)
| Digit                                 (* [\d] *)
| Word                                  (* [\w] *)
| Space                                 (* [\s] *)
| Cset (negated : bool) (items : list item)   (* [[...]], [[^...]] *)
| Bnd                                   (* [\b] *)
| Eos                                   (* [$] *)
| Cat (r1 r2 : regex)
| Alt (r1 r2 : regex)
| Rep (greedy : bool) (lo : nat) (hi : option nat) (r : regex)
| Grp (r : regex)                       (* capturing group 1 *)
| Ahead (r : regex).                    (* [(?=...)] *)

Record flags : Type := Flags { ignorecase : bool; dotall : bool }.

Definition no_flags : flags := Flags false false.
Definition IGNORECASE : flags := Flags true false.
Definition DOTALL_IGNORECASE : flags := Flags true true.

(** *** Parsing a pattern string

    [parse_alt n s] reads an alternation from the front of [s] and returns
    it with the rest of the input; [n] bounds the recursion depth.  The
    syntax covered is the one the source uses; anything else (ranges in a
    class, back-references, other escapes) is refused. *)

Fixpoint parse_nat (acc : option nat) (s : string) : option nat * string :=
  match s with
  | String a s' =>
      if Char.is_digit a
      then parse_nat (Some (10 * default 0 acc + (Char.code a - 48))) s'
      else (acc, s)
  | EmptyString => (acc, s)
  end.

Definition parse_lazy (lo : nat) (hi : option nat) (r : regex) (s : string)
  : regex * string :=
  match s with
  | String "?" s' => (Rep false lo hi r, s')
  | _ => (Rep true lo hi r, s)
  end.

Definition parse_quant (r : regex) (s : string) : option (regex * string) :=
  match s with
  | String "*" s' => Some (parse_lazy 0 None r s')
  | String "+" s' => Some (parse_lazy 1 None r s')
  | String "?" s' => Some (parse_lazy 0 (Some 1) r s')
  | String "{" s' =>
      match parse_nat None s' with
      | (Some lo, String "}" s'') => Some (parse_lazy lo (Some lo) r s'')
      | (Some lo, String "," s'') =>
          match parse_nat None s'' with
          | (hi, String "}" s3) => Some (parse_lazy lo hi r s3)
          | _ => None
          end
      | _ => None
      end
  | _ => Some (r, s)
  end.

Definition escape_item (a : ascii) : option item :=
  match a with
  | "d"%char => Some IDigit
  | "w"%char => Some IWord
  | "s"%char => Some ISpace
  | "n"%char => Some (IChar Char.newline)
  | _ => if Char.is_punct a || Char.is_space a then Some (IChar a) else None
  end.

(** The items of a class, up to the closing bracket.  A hyphen is a
    literal only as the first item or just before the bracket. *)
Fixpoint parse_items (first : bool) (s : string) : option (list item * string) :=
  match s with
  | EmptyString => None
  | String "]" s' => Some ([], s')
  | String "\" (String a s') =>
      match escape_item a, parse_items false s' with
      | Some i, Some (its, s'') => Some (i :: its, s'')
      | _, _ => None
      end
  | String "\" EmptyString => None
  | String "-" s' =>
      match s' with
      | String "]" _ =>
          match parse_items false s' with
          | Some (its, s'') => Some (IChar "-" :: its, s'')
          | None => None
          end
      | _ =>
          if first
          then match parse_items false s' with
               | Some (its, s'') => Some (IChar "-" :: its, s'')
               | None => None
               end
          else None
      end
  | String a s' =>
      match parse_items false s' with
      | Some (its, s'') => Some (IChar a :: its, s'')
      | None => None
      end
  end.

Definition parse_class (s : string) : option (regex * string) :=
  match s with
  | String "^" s' =>
      match parse_items true s' with
      | Some (its, s'') => Some (Cset true its, s'')
      | None => None
      end
  | _ =>
      match parse_items true s with
      | Some (its, s'') => Some (Cset false its, s'')
      | None => None
      end
  end.

Definition parse_escape (a : ascii) : option regex :=
  match a with
  | "b"%char => Some Bnd
  | "d"%char => Some Digit
  | "w"%char => Some Word
  | "s"%char => Some Space
  | "n"%char => Some (Chr Char.newline)
  | _ => if Char.is_punct a || Char.is_space a then Some (Chr a) else None
  end.

Definition is_special (a : ascii) : bool :=
  match a with
  | "*"%char | "+"%char | "?"%char | "{"%char | "}"%char
  | ")"%char | "|"%char | "^"%char | "]"%char => true
  | _ => false
  end.

Fixpoint parse_alt (n : nat) (s : string) : option (regex * string) :=
  match n with
  | 0 => None
  | S n' =>
      match parse_seq n' s with
      | Some (r1, String "|" s') =>
          match parse_alt n' s' with
          | Some (r2, s'') => Some (Alt r1 r2, s'')
          | None => None
          end
      | other => other
      end
  end
with parse_seq (n : nat) (s : string) : option (regex * string) :=
  match n with
  | 0 => None
  | S n' =>
      match s with
      | EmptyString | String "|" _ | String ")" _ => Some (Eps, s)
      | _ =>
          match parse_atom n' s with
          | Some (a, s1) =>
              match parse_quant a s1 with
              | Some (q, s2) =>
                  match parse_seq n' s2 with
                  | Some (r, s3) => Some (Cat q r, s3)
                  | None => None
                  end
              | None => None
              end
          | None => None
          end
      end
  end
with parse_atom (n : nat) (s : string) : option (regex * string) :=
  match n with
  | 0 => None
  | S n' =>
      match s with
      | EmptyString => None
      | String "(" (String "?" (String ":" s')) =>
          match parse_alt n' s' with
          | Some (r, String ")" s'') => Some (r, s'')
          | _ => None
          end
      | String "(" (String "?" (String "=" s')) =>
          match parse_alt n' s' with
          | Some (r, String ")" s'') => Some (Ahead r, s'')
          | _ => None
          end
      | String "(" (String "?" _) => None
      | String "(" s' =>
          match parse_alt n' s' with
          | Some (r, String ")" s'') => Some (Grp r, s'')
          | _ => None
          end
      | String "[" s' => parse_class s'
      | String "\" (String a s') =>
          match parse_escape a with
          | Some r => Some (r, s')
          | None => None
          end
      | String "\" EmptyString => None
      | String "." s' => Some (Dot, s')
      | String "$" s' => Some (Eos, s')
      | String a s' => if is_special a then None else Some (Chr a, s')
      end
  end.

Fixpoint groups (r : regex) : nat :=
  match r with
  | Cat r1 r2 | Alt r1 r2 => groups r1 + groups r2
  | Rep _ _ _ r1 | Ahead r1 => groups r1
  | Grp r1 => S (groups r1)
  | _ => 0
  end.

(** [re.compile(pattern)]: the whole pattern must parse, with at most one
    capturing group. *)
Definition parse (pattern : string) : option regex :=
  match parse_alt (3 * String.length pattern + 3) pattern with
  | Some (r, EmptyString) => if groups r <=? 1 then Some r else None
  | _ => None
  end.

(** *** Matching

    A position in the subject is the character before it (if any) and the
    text from it on.  The matcher is written in continuation-passing
    style: [run fl r k p g] matches [r] at [p] with group 1 currently [g]
    and hands the position reached to [k]; when [k] fails the matcher
    backtracks into [r], in the order CPython tries the alternatives. *)

Record pos : Type := Pos { before : option ascii; rest : string }.

Definition outcome : Type := option (pos * option string).
Definition cont : Type := pos -> option string -> outcome.

Definition accept : cont := fun p g => Some (p, g).

Definition item_matches (fl : flags) (i : item) (c : ascii) : bool :=
  match i with
  | IChar a => if ignorecase fl then Char.eqb_ci a c else Ascii.eqb a c
  | IDigit => Char.is_digit c
  | IWord => Char.is_word c
  | ISpace => Char.is_space c
  end.

(** The test a one-character pattern makes on the character it reads. *)
Definition char_test (fl : flags) (r : regex) (c : ascii) : bool :=
  match r with
  | Chr a => if ignorecase fl then Char.eqb_ci a c else Ascii.eqb a c
  | Dot => dotall fl || negb (Ascii.eqb c Char.newline)
  | Digit => Char.is_digit c
  | Word => Char.is_word c
  | Space => Char.is_space c
  | Cset neg its => xorb neg (existsb (fun i => item_matches fl i c) its)
  | _ => false
  end.

Definition one (f : ascii -> bool) (k : cont) (p : pos) (g : option string)
  : outcome :=
  match rest p with
  | String a s => if f a then k (Pos (Some a) s) g else None
  | EmptyString => None
  end.

Definition is_word_opt (o : option ascii) : bool :=
  match o with Some a => Char.is_word a | None => false end.

Definition next (p : pos) : option ascii :=
  match rest p with String a _ => Some a | EmptyString => None end.

(** [\b]: exactly one of the two neighbours is a word character. *)
Definition at_boundary (p : pos) : bool :=
  xorb (is_word_opt (before p)) (is_word_opt (next p)).

(** [$] without MULTILINE: the end of the text, or just before a newline
    that ends the text. *)
Definition at_end (p : pos) : bool :=
  match rest p with
  | EmptyString => true
  | String a EmptyString => Ascii.eqb a Char.newline
  | _ => false
  end.

Definition pred_hi (hi : option nat) : option nat :=
  match hi with Some n => Some (Nat.pred n) | None => None end.

Definition hi_reached (hi : option nat) : bool :=
  match hi with Some 0 => true | _ => false end.

Definition shorter (p' p : pos) : bool :=
  String.length (rest p') <? String.length (rest p).

(** [r{lo,hi}] for a body matched by [body]: [lo] mandatory iterations,
    then optional ones, each of which must consume input; a greedy
    repetition tries one more iteration before the continuation, a lazy
    one the continuation first.  [fuel] bounds the number of iterations;
    [lo] plus the length of the remaining text plus one is enough. *)
Fixpoint rep (body : cont -> cont) (greedy : bool) (lo : nat)
    (hi : option nat) (fuel : nat) (k : cont) (p : pos) (g : option string)
    {struct fuel} : outcome :=
  match fuel with
  | 0 => None
  | S fuel' =>
      match lo with
      | S lo' => body (rep body greedy lo' (pred_hi hi) fuel' k) p g
      | 0 =>
          if hi_reached hi then k p g
          else
            let more :=
              body (fun p' g' =>
                      if shorter p' p
                      then rep body greedy 0 (pred_hi hi) fuel' k p' g'
                      else None) p g in
            if greedy
            then match more with Some x => Some x | None => k p g end
            else match k p g with Some x => Some x | None => more end
      end
  end.

Definition captured (p p' : pos) : string :=
  Str.take (String.length (rest p) - String.length (rest p')) (rest p).

Fixpoint run (fl : flags) (r : regex) (k : cont) (p : pos)
    (g : option string) {struct r} : outcome :=
  match r with
  | Eps => k p g
  | Chr _ | Dot | Digit | Word | Space | Cset _ _ =>
      one (char_test fl r) k p g
  | Bnd => if at_boundary p then k p g else None
  | Eos => if at_end p then k p g else None
  | Cat r1 r2 => run fl r1 (run fl r2 k) p g
  | Alt r1 r2 =>
      match run fl r1 k p g with
      | Some x => Some x
      | None => run fl r2 k p g
      end
  | Rep greedy lo hi r1 =>
      rep (run fl r1) greedy lo hi (lo + S (String.length (rest p))) k p g
  | Grp r1 => run fl r1 (fun p' _ => k p' (Some (captured p p'))) p g
  | Ahead r1 =>
      match run fl r1 accept p g with
      | Some (_, g') => k p g'
      | None => None
      end
  end.

(** *** The functions of the [re] module

    A match is reported as its start, its length and group 1.  None of
    the source's patterns matches the empty string; a match of length 0
    counts as no match in [sub], [findall] and [split]. *)

Record rmatch : Type :=
  Match { m_start : nat; m_len : nat; m_group : option string }.

(** [match.group(1)]; every pattern of the source that reads group 1 has
    the group outside any optional part. *)
Definition group1 (m : rmatch) : string := default EmptyString (m_group m).

(** A match starting exactly at the given position: its length, group 1. *)
Definition match_at (fl : flags) (r : regex) (prev : option ascii)
    (s : string) : option (nat * option string) :=
  match run fl r accept (Pos prev s) None with
  | Some (p', g) => Some (String.length s - String.length (rest p'), g)
  | None => None
  end.

Fixpoint search_go (fl : flags) (r : regex) (prev : option ascii)
    (s : string) (i : nat) : option rmatch :=
  match match_at fl r prev s with
  | Some (n, g) => Some (Match i n g)
  | None =>
      match s with
      | String a s' => search_go fl r (Some a) s' (S i)
      | EmptyString => None
      end
  end.

(** [re.search(pattern, text, flags)] for a compiled pattern. *)
Definition search_re (fl : flags) (r : regex) (s : string) : option rmatch :=
  search_go fl r None s 0.

(** The replacement template: [\1] stands for group 1. *)
Fixpoint expand (template : string) (g : option string) : string :=
  match template with
  | String "\" (String "1" t) => default EmptyString g +:+ expand t g
  | String a t => String a (expand t g)
  | EmptyString => EmptyString
  end.

(** [skip] characters of a match found earlier are still to be passed. *)
Fixpoint sub_go (fl : flags) (r : regex) (template : string)
    (prev : option ascii) (s : string) (skip : nat) : string :=
  match s with
  | EmptyString => EmptyString
  | String a s' =>
      match skip with
      | S n => sub_go fl r template (Some a) s' n
      | 0 =>
          match match_at fl r prev s with
          | Some (S n, g) =>
              expand template g +:+ sub_go fl r template (Some a) s' n
          | _ => String a (sub_go fl r template (Some a) s' 0)
          end
      end
  end.

Definition sub_re (fl : flags) (r : regex) (template s : string) : string :=
  sub_go fl r template None s 0.

Fixpoint findall_go (fl : flags) (r : regex) (prev : option ascii)
    (s : string) (skip : nat) : list string :=
  match s with
  | EmptyString => []
  | String a s' =>
      match skip with
      | S n => findall_go fl r (Some a) s' n
      | 0 =>
          match match_at fl r prev s with
          | Some (S n, g) =>
              default EmptyString g :: findall_go fl r (Some a) s' n
          | _ => findall_go fl r (Some a) s' 0
          end
      end
  end.

Definition findall_re (fl : flags) (r : regex) (s : string) : list string :=
  findall_go fl r None s 0.

(** The pieces between the matches; the head of the result is the piece
    being read. *)
Fixpoint split_go (fl : flags) (r : regex) (prev : option ascii)
    (s : string) (skip : nat) : list string :=
  match s with
  | EmptyString => [EmptyString]
  | String a s' =>
      match skip with
      | S n => split_go fl r (Some a) s' n
      | 0 =>
          match match_at fl r prev s with
          | Some (S n, _) => EmptyString :: split_go fl r (Some a) s' n
          | _ =>
              match split_go fl r (Some a) s' 0 with
              | piece :: pieces => String a piece :: pieces
              | [] => [String a EmptyString]
              end
          end
      end
  end.

Definition split_re (fl : flags) (r : regex) (s : string) : list string :=
  split_go fl r None s 0.

(** The module-level functions take the pattern as the source writes it.
    A pattern that does not compile makes CPython raise [re.error]; every
    pattern of the source compiles (see [patterns_compile] below), and the
    functions below return the neutral result in the other case. *)
Definition search (pattern : string) (fl : flags) (s : string)
  : option rmatch :=
  match parse pattern with
  | Some r => search_re fl r s
  | None => None
  end.

Definition sub (pattern template : string) (fl : flags) (s : string)
  : string :=
  match parse pattern with
  | Some r => sub_re fl r template s
  | None => s
  end.

Definition findall (pattern : string) (fl : flags) (s : string)
  : list string :=
  match parse pattern with
  | Some r => findall_re fl r s
  | None => []
  end.

Definition split (pattern : string) (fl : flags) (s : string)
  : list string :=
  match parse pattern with
  | Some r => split_re fl r s
  | None => [s]
  end.

(** [re.escape]: a backslash before every special character. *)
Definition is_escaped (a : ascii) : bool :=
  match a with
  | "("%char | ")"%char | "["%char | "]"%char | "{"%char | "}"%char
  | "?"%char | "*"%char | "+"%char | "-"%char | "|"%char | "^"%char
  | "$"%char | "\"%char | "."%char | "&"%char | "~"%char | "#"%char
  | " "%char => true
  | _ => (9 <=? Char.code a) && (Char.code a <=? 13)
  end.

Fixpoint escape (s : string) : string :=
  match s with
  | EmptyString => EmptyString
  | String a s' =>
      if is_escaped a then String "\" (String a (escape s'))
      else String a (escape s')
  end.

End Re.

(** ** [utils/text_processor.py]: class [TextProcessor] *)

Module TextProcessor.

(** [self.medical_abbreviations] *)
Definition medical_abbreviations : gmap string string :=
  list_to_map
    [ ("pt", "patient"); ("pts", "patients"); ("hx", "history");
      ("dx", "diagnosis"); ("tx", "treatment"); ("rx", "prescription");
      ("sx", "symptoms"); ("f/u", "follow-up"); ("w/", "with");
      ("w/o", "without"); ("c/o", "complains of"); ("r/o", "rule out");
      ("sob", "shortness of breath"); ("cp", "chest pain");
      ("bp", "blood pressure"); ("hr", "heart rate");
      ("rr", "respiratory rate"); ("temp", "temperature");
      ("wbc", "white blood cell count"); ("rbc", "red blood cell count");
      ("hgb", "hemoglobin"); ("hct", "hematocrit");
      ("bun", "blood urea nitrogen"); ("cr", "creatinine");
      ("na", "sodium"); ("k", "potassium"); ("cl", "chloride");
      ("co2", "carbon dioxide"); ("mg", "magnesium"); ("po", "by mouth");
      ("iv", "intravenous"); ("im", "intramuscular");
      ("bid", "twice daily"); ("tid", "three times daily");
      ("qid", "four times daily"); ("qd", "once daily");
      ("prn", "as needed"); ("hs", "at bedtime"); ("ac", "before meals");
      ("pc", "after meals") ].

(** [self.section_headers] *)
Definition section_headers : list string :=
  [ "chief complaint"; "history of present illness"; "past medical history";
    "medications"; "allergies"; "social history"; "family history";
    "review of systems"; "physical examination"; "assessment";
    "plan"; "discharge summary"; "impression"; "recommendations";
    "procedures"; "laboratory results"; "imaging"; "vital signs" ].

Definition _expand_abbreviations (text : string) : string :=
  let words := Str.words text in
  let expanded_words :=
    List.map
      (fun word =>
         let clean_word := Str.strip_by Char.is_punct (Str.lower word) in
         match medical_abbreviations !! clean_word with
         | Some expansion =>
             let punctuation := Str.filter Char.is_punct word in
             expansion +:+ punctuation
         | None => word
         end)
      words in
  Str.join " " expanded_words.

Definition is_terminal (c : ascii) : bool :=
  match c with
  | "."%char | "!"%char | "?"%char => true
  | _ => false
  end.

Definition _clean_punctuation (text : string) : string :=
  let text := Re.sub "\s*([,.;:!?])\s*" "\1 " Re.no_flags text in
  let text := Re.sub "([,.;:!?]){2,}" "\1" Re.no_flags text in
  let sentences := Str.split_char "." text in
  let cleaned_sentences :=
    List.flat_map
      (fun sentence =>
         let sentence := Str.strip sentence in
         let sentence :=
           match Str.last sentence with
           | Some c => if is_terminal c then sentence else sentence +:+ "."
           | None => sentence
           end in
         if Str.nonempty sentence then [sentence] else [])
      sentences in
  Str.join " " cleaned_sentences.

Definition _remove_phi_patterns (text : string) : string :=
  let text := Re.sub "\b\d{3}-\d{2}-\d{4}\b" "[SSN]" Re.no_flags text in
  let text :=
    Re.sub "\b\d{3}[-.]?\d{3}[-.]?\d{4}\b" "[PHONE]" Re.no_flags text in
  let text := Re.sub "\b\d{1,2}/\d{1,2}/\d{4}\b" "[DATE]" Re.no_flags text in
  let text := Re.sub "\bMRN:?\s*\d+\b" "[MRN]" Re.IGNORECASE text in
  text.

Definition clean_text (text : string) : string :=
  if negb (Str.nonempty text) then ""
  else
    let text := Re.sub "\s+" " " Re.no_flags (Str.strip text) in
    let text := Re.sub "[^\w\s\.,;:!?\-\(\)\/]" "" Re.no_flags text in
    let text := _expand_abbreviations text in
    let text := _clean_punctuation text in
    let text := _remove_phi_patterns text in
    text.

Definition headers_pattern : string :=
  "\b" +:+ Str.join "\b|\b" (List.map Re.escape section_headers) +:+ "\b".

Definition section_pattern (header : string) : string :=
  "\b" +:+ Re.escape header +:+ ":?\s*\n?(.*?)(?=\n\s*(?:"
       +:+ headers_pattern +:+ ")|$)".

Definition extract_sections (text : string) : gmap string string :=
  let text_lower := Str.lower text in
  foldl
    (fun sections header =>
       match Re.search (section_pattern header) Re.DOTALL_IGNORECASE
               text_lower with
       | Some m =>
           let content := Str.strip (Re.group1 m) in
           if Str.nonempty content then <[header := content]> sections
           else sections
       | None => sections
       end)
    ∅ section_headers.

Record ExtractedInfo : Type := Info {
  medications : list string;
  procedures : list string;
  diagnoses : list string;
  vital_signs : list (string * string);
  recommendations : list string
}.

Definition med_patterns : list string :=
  [ "\b(\w+)\s+\d+\s*mg\b";
    "\b(\w+)\s+\d+\s*mcg\b";
    "\b(\w+)\s+tablet\b";
    "\b(\w+)\s+capsule\b" ].

Definition procedure_keywords : list string :=
  [ "catheterization"; "angioplasty"; "surgery"; "biopsy"; "endoscopy";
    "bronchoscopy"; "colonoscopy"; "echocardiogram"; "CT scan"; "MRI";
    "X-ray"; "ultrasound"; "blood transfusion"; "dialysis" ].

Definition vital_patterns : list (string * string) :=
  [ ("blood_pressure", "bp:?\s*(\d+/\d+)");
    ("heart_rate", "hr:?\s*(\d+)");
    ("temperature", "temp:?\s*(\d+\.?\d*)");
    ("respiratory_rate", "rr:?\s*(\d+)") ].

(** [list(set(l))] *)
Definition list_of_set (l : list string) : list string :=
  elements (list_to_set l : gset string).

Definition extract_key_information (text : string) : ExtractedInfo :=
  let medications :=
    List.flat_map
      (fun pattern =>
         List.map Str.title (Re.findall pattern Re.IGNORECASE text))
      med_patterns in
  let procedures :=
    List.flat_map
      (fun keyword =>
         if Str.contains (Str.lower keyword) (Str.lower text)
         then [Str.title keyword] else [])
      procedure_keywords in
  let vital_signs :=
    List.flat_map
      (fun '(vital, pattern) =>
         match Re.search pattern Re.no_flags (Str.lower text) with
         | Some m => [(vital, Re.group1 m)]
         | None => []
         end)
      vital_patterns in
  {| medications := list_of_set medications;
     procedures := list_of_set procedures;
     diagnoses := [];
     vital_signs := vital_signs;
     recommendations := [] |}.

End TextProcessor.

(** ** [utils/summarizer.py]: class [MedicalSummarizer] *)

Module MedicalSummarizer.

Import TextProcessor.

(** The [options] dictionary; the caller always supplies the four keys. *)
Record Options : Type := Opts {
  length : string;
  include_medications : bool;
  include_procedures : bool;
  include_recommendations : bool
}.

(** [self.important_indicators] *)
Definition important_indicators : list string :=
  [ "diagnosis"; "diagnosed"; "treatment"; "medication"; "procedure";
    "surgery"; "admission"; "discharge"; "follow-up"; "recommendation";
    "condition"; "symptoms"; "chief complaint"; "assessment"; "plan" ].

(** [self.patient_translations], in declaration order. *)
Definition patient_translations : list (string * string) :=
  [ ("myocardial infarction", "heart attack");
    ("hypertension", "high blood pressure");
    ("diabetes mellitus", "diabetes");
    ("cerebrovascular accident", "stroke");
    ("pneumonia", "lung infection");
    ("gastroenteritis", "stomach bug");
    ("urinary tract infection", "bladder infection");
    ("angina", "chest pain");
    ("arrhythmia", "irregular heartbeat");
    ("tachycardia", "fast heart rate");
    ("bradycardia", "slow heart rate");
    ("dyspnea", "trouble breathing");
    ("syncope", "fainting");
    ("edema", "swelling");
    ("hemorrhage", "bleeding");
    ("fracture", "broken bone");
    ("laceration", "cut");
    ("contusion", "bruise");
    ("antibiotic", "infection medicine");
    ("analgesic", "pain medicine");
    ("catheterization", "procedure to open blocked blood vessels");
    ("angioplasty", "procedure to open blocked blood vessels");
    ("stent", "small tube to keep blood vessels open");
    ("biopsy", "tissue sample test");
    ("CT scan", "detailed X-ray");
    ("MRI", "detailed body scan");
    ("echocardiogram", "heart ultrasound");
    ("endoscopy", "camera examination");
    ("prognosis", "outlook");
    ("acute", "sudden");
    ("chronic", "long-term") ].

(** [d.get(key, default)] for a dictionary literal. *)
Fixpoint dict_get (d : list (string * nat)) (key : string) (dflt : nat)
  : nat :=
  match d with
  | [] => dflt
  | (k, v) :: d' => if String.eqb k key then v else dict_get d' key dflt
  end.

(** The sentences of a summary: [re.split(r'[.!?]+', summary)], each piece
    stripped, the empty ones dropped. *)
Definition sentences_of (summary : string) : list string :=
  List.filter Str.nonempty
    (List.map Str.strip (Re.split "[.!?]+" Re.no_flags summary)).

(** Stable insertion at the front of a list sorted by decreasing score:
    the new element goes before the elements of equal score. *)
Fixpoint insert_by_score (x : string * nat) (l : list (string * nat))
  : list (string * nat) :=
  match l with
  | [] => [x]
  | y :: l' =>
      if snd y <=? snd x then x :: l else y :: insert_by_score x l'
  end.

(** [l.sort(key=lambda x: x[1], reverse=True)] *)
Definition sort_by_score (l : list (string * nat)) : list (string * nat) :=
  List.fold_right insert_by_score [] l.

Definition _extract_important_sentences (text : string) (length : string)
  : list string :=
  let sentences := Re.split "[.!?]+" Re.no_flags text in
  let important_sentences :=
    List.flat_map
      (fun sentence =>
         let sentence := Str.strip sentence in
         if String.length sentence <? 10 then []
         else
           let sentence_lower := Str.lower sentence in
           let score :=
             List.length
               (List.filter (fun indicator =>
                               Str.contains indicator sentence_lower)
                  important_indicators) in
           if 0 <? score then [(sentence, score)] else [])
      sentences in
  let important_sentences := sort_by_score important_sentences in
  let max_sentences :=
    dict_get [("short", 3); ("medium", 5); ("long", 8)] length 5 in
  List.map fst (firstn max_sentences important_sentences).

(** The loop over a list of patterns that returns at the first pattern
    that matches, with [match.group(1).strip()]. *)
Fixpoint first_match (patterns : list string) (text : string)
  : option string :=
  match patterns with
  | [] => None
  | pattern :: patterns' =>
      match Re.search pattern Re.IGNORECASE text with
      | Some m => Some (Str.strip (Re.group1 m))
      | None => first_match patterns' text
      end
  end.

Definition diagnosis_patterns : list string :=
  [ "diagnosis:?\s*([^.\n]+)";
    "diagnosed with\s+([^.\n]+)";
    "impression:?\s*([^.\n]+)";
    "assessment:?\s*([^.\n]+)" ].

Definition _extract_diagnosis_info (text : string) : string :=
  default "" (first_match diagnosis_patterns text).

Definition treatment_patterns : list string :=
  [ "treatment:?\s*([^.\n]+)";
    "treated with\s+([^.\n]+)";
    "plan:?\s*([^.\n]+)" ].

Definition _extract_treatment_info (text : string) (key_info : ExtractedInfo)
  : string :=
  match first_match treatment_patterns text with
  | Some found => found
  | None =>
      match procedures key_info with
      | [] => ""
      | _ => Str.join ", " (firstn 2 (procedures key_info))
      end
  end.

Definition rec_patterns : list string :=
  [ "follow[-\s]?up:?\s*([^.\n]+)";
    "recommendation:?\s*([^.\n]+)";
    "discharge.*?instructions:?\s*([^.\n]+)" ].

Definition _extract_recommendations (text : string) : string :=
  default "" (first_match rec_patterns text).

(** The degree sign U+00B0 of the temperature line: one character, in no
    character class. *)
Definition degree : ascii := ascii_of_nat 176.

Definition _format_vitals (vitals : list (string * string)) : string :=
  let vital_strings :=
    List.flat_map
      (fun '(vital, value) =>
         if String.eqb vital "blood_pressure" then ["BP " +:+ value]
         else if String.eqb vital "heart_rate" then ["HR " +:+ value]
         else if String.eqb vital "temperature"
              then ["Temp " +:+ value +:+ String degree "F"]
         else if String.eqb vital "respiratory_rate" then ["RR " +:+ value]
         else [])
      vitals in
  Str.join ", " vital_strings.

Definition reason_patterns : list string :=
  [ "chief complaint:?\s*([^.\n]+)";
    "presenting complaint:?\s*([^.\n]+)";
    "came.*?because of\s+([^.\n]+)" ].

Fixpoint _extract_patient_reason_go (patterns : list string) (text : string)
  : string :=
  match patterns with
  | [] => "You came to the hospital for medical care."
  | pattern :: patterns' =>
      match Re.search pattern Re.IGNORECASE text with
      | Some m =>
          let reason := Str.strip (Re.group1 m) in
          "You came to the hospital because of " +:+ Str.lower reason +:+ "."
      | None => _extract_patient_reason_go patterns' text
      end
  end.

Definition _extract_patient_reason (text : string) : string :=
  _extract_patient_reason_go reason_patterns text.

Definition _extract_patient_diagnosis (text : string) : string :=
  let diagnosis := _extract_diagnosis_info text in
  if Str.nonempty diagnosis
  then "Tests and examinations showed that you have "
         +:+ Str.lower diagnosis +:+ "."
  else "".

Definition _extract_patient_treatment (text : string)
    (key_info : ExtractedInfo) : string :=
  let treatment := _extract_treatment_info text key_info in
  if Str.nonempty treatment
  then "Doctors provided treatment including "
         +:+ Str.lower treatment +:+ "."
  else "".

Definition _explain_medications_to_patient (medications : list string)
  : string :=
  match medications with
  | [] => ""
  | [medication] =>
      "You have been given medicine called " +:+ medication
        +:+ " to help with your condition."
  | _ =>
      let med_list := Str.join ", " (firstn 3 medications) in
      "You have been given medicines including " +:+ med_list
        +:+ " to help with your condition."
  end.

Definition _extract_patient_next_steps (text : string) : string :=
  let recommendations := _extract_recommendations text in
  if Str.nonempty recommendations
  then "Please " +:+ Str.lower recommendations
  else "Please follow up with your doctor as recommended.".

Definition _translate_for_patients (text : string) : string :=
  List.fold_left
    (fun text '(medical_term, patient_term) =>
       Re.sub ("\b" +:+ Re.escape medical_term +:+ "\b") patient_term
         Re.IGNORECASE text)
    patient_translations text.

Definition _adjust_summary_length (summary : string) (length : string)
  : string :=
  let sentences := sentences_of summary in
  let max_sentences :=
    dict_get [("short", 3); ("medium", 5); ("long", 8)] length 5 in
  if max_sentences <? List.length sentences
  then Str.join ". " (firstn max_sentences sentences) +:+ "."
  else summary.

Definition _adjust_patient_summary (summary : string) (length : string)
  : string :=
  let sentences := sentences_of summary in
  let max_sentences :=
    dict_get [("short", 2); ("medium", 4); ("long", 6)] length 4 in
  let summary :=
    if max_sentences <? List.length sentences
    then Str.join ". " (firstn max_sentences sentences) +:+ "."
    else summary in
  if Str.endswith "." summary then summary else summary +:+ ".".

(** The parts that are appended only under a condition. *)
Definition part_if (b : bool) (part : string) : list string :=
  if b then [part] else [].

Definition generate_doctor_summary (text : string) (options : Options)
  : string :=
  let key_info := extract_key_information text in
  let sections := extract_sections text in
  let important_sentences :=
    _extract_important_sentences text (length options) in
  let chief :=
    match sections !! "chief complaint" with
    | Some content =>
        ["**Chief Complaint**: " +:+ Str.take 200 content +:+ "..."]
    | None => []
    end in
  let diagnosis_info := _extract_diagnosis_info text in
  let diagnosis :=
    part_if (Str.nonempty diagnosis_info)
      ("**Diagnosis**: " +:+ diagnosis_info) in
  let treatment_info := _extract_treatment_info text key_info in
  let treatment :=
    part_if (Str.nonempty treatment_info)
      ("**Treatment**: " +:+ treatment_info) in
  let meds :=
    part_if (include_medications options
             && negb (Nat.eqb (List.length (medications key_info)) 0))
      ("**Medications**: "
         +:+ Str.join ", " (firstn 5 (medications key_info))) in
  let procs :=
    part_if (include_procedures options
             && negb (Nat.eqb (List.length (procedures key_info)) 0))
      ("**Procedures**: "
         +:+ Str.join ", " (firstn 3 (procedures key_info))) in
  let recommendations :=
    if include_recommendations options
    then _extract_recommendations text else "" in
  let follow_up :=
    part_if (Str.nonempty recommendations)
      ("**Follow-up**: " +:+ recommendations) in
  let vitals :=
    match vital_signs key_info with
    | [] => ""
    | _ => _format_vitals (vital_signs key_info)
    end in
  let vital_part :=
    part_if (Str.nonempty vitals) ("**Vital Signs**: " +:+ vitals) in
  let summary_parts :=
    chief ++ diagnosis ++ treatment ++ meds ++ procs ++ follow_up
          ++ vital_part in
  let summary :=
    Str.join (String Char.newline (String Char.newline ""))
      summary_parts in
  let summary := _adjust_summary_length summary (length options) in
  if Str.nonempty summary then summary
  else "Unable to generate professional summary from the provided text.".

Definition generate_patient_summary (text : string) (options : Options)
  : string :=
  let key_info := extract_key_information text in
  let reason := _extract_patient_reason text in
  let diagnosis := _extract_patient_diagnosis text in
  let treatment := _extract_patient_treatment text key_info in
  let med_explanation :=
    if include_medications options
    then _explain_medications_to_patient (medications key_info) else "" in
  let next_steps :=
    if include_recommendations options
    then _extract_patient_next_steps text else "" in
  let summary_parts :=
    List.filter Str.nonempty
      [reason; diagnosis; treatment; med_explanation; next_steps] in
  let summary := Str.join " " summary_parts in
  let summary := _translate_for_patients summary in
  let summary := _adjust_patient_summary summary (length options) in
  if Str.nonempty summary then summary
  else "We are unable to create a simple summary of your medical report at this time. Please ask your doctor to explain your results.".

End MedicalSummarizer.

(** ** The inputs and readings used in the statements below *)

Module Scenario.

Import TextProcessor MedicalSummarizer.

Definition nl : string := String Char.newline "".

(** The report of the end-to-end example. *)
Definition report : string :=
  "Chief Complaint: chest pain" +:+ nl
    +:+ "Diagnosis: Acute myocardial infarction" +:+ nl
    +:+ "Medications: Aspirin 81mg daily" +:+ nl
    +:+ "Follow-up: cardiology in 1 week".

Definition all_on (length : string) : Options := Opts length true true true.

Definition doctor_placeholder : string :=
  "Unable to generate professional summary from the provided text.".

Definition patient_placeholder : string :=
  "We are unable to create a simple summary of your medical report at this time. Please ask your doctor to explain your results.".

(** [w] occurs in [s] as a whole word: an occurrence with no word
    character directly before or after it. *)
Fixpoint contains_word_go (w : string) (prev : option ascii) (s : string)
  : bool :=
  (negb (Re.is_word_opt prev)
     && Str.startswith w s
     && negb (Re.is_word_opt
                (Re.next (Re.Pos None (Str.drop (String.length w) s)))))
  || match s with
     | String a s' => contains_word_go w (Some a) s'
     | EmptyString => false
     end.

Definition contains_word (w s : string) : bool := contains_word_go w None s.

(** The number of sentences of a summary, splitting on [.], [!] and [?]. *)
Definition sentence_count (summary : string) : nat :=
  List.length (sentences_of summary).

End Scenario.

(** ** Auxiliary definitions for reasoning about the matcher *)

Module Scan.

Import Re.

Definition all_ascii : list ascii := List.map ascii_of_nat (seq 0 256).

(** [needs_other fl ok r]: every match of [r] reads at least one
    character that [ok] rejects; a syntactic, sufficient test. *)
Fixpoint needs_other (fl : flags) (ok : ascii -> bool) (r : regex) : bool :=
  match r with
  | Chr _ | Dot | Digit | Word | Space | Cset _ _ =>
      forallb (fun c => implb (ok c) (negb (char_test fl r c))) all_ascii
  | Cat r1 r2 =>
      if needs_other fl ok r1 then true else needs_other fl ok r2
  | Alt r1 r2 =>
      if needs_other fl ok r1 then needs_other fl ok r2 else false
  | Rep _ lo _ r1 => if 0 <? lo then needs_other fl ok r1 else false
  | Grp r1 | Ahead r1 => needs_other fl ok r1
  | Eps | Bnd | Eos => false
  end.

(** The same test for a pattern string. *)
Definition never_matches (fl : flags) (ok : ascii -> bool)
    (pattern : string) : bool :=
  match parse pattern with
  | Some r => needs_other fl ok r
  | None => false
  end.

(** The length of the longest prefix made of characters recognised by
    [f], and the number of such characters in the whole string. *)
Fixpoint span (f : ascii -> bool) (s : string) : nat :=
  match s with
  | String a s' => if f a then S (span f s') else 0
  | EmptyString => 0
  end.

Fixpoint count (f : ascii -> bool) (s : string) : nat :=
  match s with
  | String a s' => (if f a then 1 else 0) + count f s'
  | EmptyString => 0
  end.

(** The position reached after reading [n] characters. *)
Fixpoint advance (prev : option ascii) (s : string) (n : nat) {struct n}
  : pos :=
  match n, s with
  | S n', String a s' => advance (Some a) s' n'
  | _, _ => Pos prev s
  end.

(** What a greedy [c*] does for a one-character pattern with test [f]:
    the continuation is tried after the longest run first, then after
    each shorter one. *)
Fixpoint greedy_scan (f : ascii -> bool) (k : cont) (prev : option ascii)
    (s : string) (g : option string) : outcome :=
  match s with
  | String a s' =>
      if f a
      then match greedy_scan f k (Some a) s' g with
           | Some x => Some x
           | None => k (Pos prev s) g
           end
      else k (Pos prev s) g
  | EmptyString => k (Pos prev s) g
  end.

(** What a lazy [c*?] does: the continuation is tried at once, and after
    each further character that passes the test. *)
Fixpoint lazy_scan (f : ascii -> bool) (k : cont) (prev : option ascii)
    (s : string) (g : option string) : outcome :=
  match k (Pos prev s) g with
  | Some x => Some x
  | None =>
      match s with
      | String a s' => if f a then lazy_scan f k (Some a) s' g else None
      | EmptyString => None
      end
  end.

(** The pieces of a split that count as sentences: stripped and not
    empty; and the pattern [[.!?]+], compiled. *)
Definition kept (l : list string) : list string :=
  List.filter Str.nonempty (List.map Str.strip l).

Definition terminators : regex :=
  Cat (Rep true 1 None (Cset false [IChar "."; IChar "!"; IChar "?"])) Eps.

(** The patterns that read exactly one character. *)
Definition is_char (r : regex) : bool :=
  match r with
  | Chr _ | Dot | Digit | Word | Space | Cset _ _ => true
  | _ => false
  end.

(** Two continuations that agree on every position with at most [n]
    characters left, and a matcher that depends on its continuation only
    at positions not before its own. *)
Definition agree (n : nat) (k k' : cont) : Prop :=
  forall p g, String.length (rest p) <= n -> k p g = k' p g.

Definition forward (body : cont -> cont) : Prop :=
  forall k k' p g,
    agree (String.length (rest p)) k k' -> body k p g = body k' p g.

(** A continuation that fails at every position whose remaining text is
    made of [ok] characters only. *)
Definition dead (ok : ascii -> bool) (k : cont) : Prop :=
  forall p g, Str.all ok (rest p) = true -> k p g = None.

End Scan.


(** ** What [extract_sections] computes, and what it was said to compute *)

Module SectionSpec.

Import Re TextProcessor.

(** [p] is a prefix of [s], letters compared without case. *)
Fixpoint startswith_ci (p s : string) : bool :=
  match p, s with
  | EmptyString, _ => true
  | String a p', String b s' => Char.eqb_ci a b && startswith_ci p' s'
  | String _ _, EmptyString => false
  end.

Definition first_char (s : string) : option ascii :=
  match s with String a _ => Some a | EmptyString => None end.

(** The text after the leftmost occurrence of [header] that does not
    directly follow a word character. *)
Fixpoint find_header (header : string) (prev : option ascii) (s : string)
    : option string :=
  if negb (is_word_opt prev) && startswith_ci header s
  then Some (Str.drop (String.length header) s)
  else match s with
       | String a s' => find_header header (Some a) s'
       | EmptyString => None
       end.

(** An optional colon and the whitespace after it are passed over. *)
Definition skip_colon (s : string) : string :=
  match s with
  | String a s' => if Ascii.eqb a ":" then s' else s
  | EmptyString => s
  end.

Definition skip_label_end (s : string) : string :=
  Str.lstrip_by Char.is_space (skip_colon s).

(** [header] stands at the front of [s] as a whole word. *)
Definition header_word (header s : string) : bool :=
  startswith_ci header s
  && negb (is_word_opt (first_char (Str.drop (String.length header) s))).

(** [s] begins with a line break after which, whitespace apart, a header
    of the vocabulary stands as a whole word. *)
Definition header_line (s : string) : bool :=
  match s with
  | String a s' =>
      Ascii.eqb a Char.newline
      && existsb (fun header =>
                    header_word header (Str.lstrip_by Char.is_space s'))
           section_headers
  | EmptyString => false
  end.

(** The end of the text, or the line break that ends it. *)
Definition text_end (s : string) : bool :=
  match s with
  | EmptyString => true
  | String a EmptyString => Ascii.eqb a Char.newline
  | _ => false
  end.

(** The text up to the next header line, or to the end. *)
Fixpoint up_to_header_line (s : string) : string :=
  if header_line s || text_end s then EmptyString
  else match s with
       | String a s' => String a (up_to_header_line s')
       | EmptyString => EmptyString
       end.

(** The section of [header] in the (lower-cased) text [s]. *)
Definition section_of (header s : string) : option string :=
  match find_header header None s with
  | Some after =>
      let content := Str.strip (up_to_header_line (skip_label_end after)) in
      if Str.nonempty content then Some content else None
  | None => None
  end.

(** The reading of the specification: the leftmost occurrence of the
    header, an optional colon, and everything up to the next occurrence of
    any header of the vocabulary, or to the end of the text.  It is applied
    to the lower-cased text and the capture is stripped, as the code does. *)
Fixpoint find_occurrence (header s : string) : option string :=
  if startswith_ci header s
  then Some (Str.drop (String.length header) s)
  else match s with
       | String _ s' => find_occurrence header s'
       | EmptyString => None
       end.

Fixpoint up_to_any_header (s : string) : string :=
  if existsb (fun header => startswith_ci header s) section_headers
  then EmptyString
  else match s with
       | String a s' => String a (up_to_any_header s')
       | EmptyString => EmptyString
       end.

Definition section_as_stated (header s : string) : option string :=
  match find_occurrence header s with
  | Some after =>
      let content := Str.strip (up_to_any_header (skip_colon after)) in
      if Str.nonempty content then Some content else None
  | None => None
  end.

(** A header as a whole word at a position of the matcher, with both word
    boundaries tested as the pattern tests them, and the first header of a
    list that stands there. *)
Definition word_at (p : pos) (header : string) : bool :=
  at_boundary p
  && startswith_ci header (rest p)
  && at_boundary (Scan.advance (before p) (rest p) (String.length header)).

Fixpoint first_word_at (p : pos) (g : option string) (headers : list string)
    : outcome :=
  match headers with
  | [] => None
  | header :: headers' =>
      if word_at p header
      then Some (Scan.advance (before p) (rest p) (String.length header), g)
      else first_word_at p g headers'
  end.

(** The continuation after the captured group: it succeeds where a section
    ends, with the group set by [cap]. *)
Definition at_stop (cap : pos -> option string) : cont :=
  fun p _ =>
    if header_line (rest p) || text_end (rest p) then Some (p, cap p) else None.

(** A header that begins and ends with a word character. *)
Definition word_ended (header : string) : bool :=
  is_word_opt (first_char header) && is_word_opt (Str.last header).

(** The regular expression that [section_pattern header] compiles to. *)
Fixpoint lit (s : string) (r : regex) : regex :=
  match s with
  | EmptyString => r
  | String a s' => Cat (Chr a) (lit s' r)
  end.

Definition header_word_re (header : string) : regex :=
  Cat Bnd (lit header (Cat Bnd Eps)).

Fixpoint alt_of (l : list regex) : regex :=
  match l with
  | [] => Eps
  | [r] => r
  | r :: l' => Alt r (alt_of l')
  end.

Definition headers_re : regex := alt_of (List.map header_word_re section_headers).

Definition stop_re : regex :=
  Alt (Cat (Chr Char.newline)
         (Cat (Rep true 0 None Space) (Cat headers_re Eps)))
      (Cat Eos Eps).

Definition after_header_re : regex :=
  Cat (Rep true 0 (Some 1) (Chr ":"))
    (Cat (Rep true 0 None Space)
       (Cat (Rep true 0 (Some 1) (Chr Char.newline))
          (Cat (Grp (Cat (Rep false 0 None Dot) Eps))
             (Cat (Ahead stop_re) Eps)))).

Definition section_re (header : string) : regex :=
  Cat Bnd (lit header after_header_re).

End SectionSpec.

(** ** Plain sentences: words of letters, single spaces, a final period *)

Module Plain.

Import Re TextProcessor.




Definition not_digit (c : ascii) : bool := negb (Char.is_digit c).






End Plain.

(** ** Characters read by a group, characters of a cleaned text *)

Module Charset.

Import Re.

(** The literal characters of a replacement template. *)
Fixpoint literals (template : string) : string :=
  match template with
  | String "\" (String "1" t) => literals t
  | String a t => String a (literals t)
  | EmptyString => EmptyString
  end.

Section Class.

Variable fl : flags.
Variable Q : ascii -> bool.

(** [r] has no group and no lookahead, and every character it reads is
    in the class [Q]. *)
Fixpoint reads_only (r : regex) : bool :=
  match r with
  | Eps | Bnd | Eos => true
  | Chr _ | Dot | Digit | Word | Space | Cset _ _ =>
      forallb (fun c => implb (char_test fl r c) (Q c)) Scan.all_ascii
  | Cat r1 r2 | Alt r1 r2 => reads_only r1 && reads_only r2
  | Rep _ _ _ r1 => reads_only r1
  | Grp _ | Ahead _ => false
  end.

(** Every group of [r] reads only characters of [Q]. *)
Fixpoint group_reads (r : regex) : bool :=
  match r with
  | Grp r1 => reads_only r1
  | Cat r1 r2 | Alt r1 r2 => group_reads r1 && group_reads r2
  | Rep _ _ _ r1 | Ahead r1 => group_reads r1
  | _ => true
  end.

Definition group_in (g : option string) : bool :=
  match g with Some s => Str.all Q s | None => true end.

(** A continuation that hands on a group of [Q] when it is given one. *)
Definition keeps_group (k : cont) : Prop :=
  forall p g p' g',
    group_in g = true -> k p g = Some (p', g') -> group_in g' = true.

(** [p'] is reached from [p] by reading characters of [Q]. *)
Definition reached (p p' : pos) : Prop :=
  exists w, rest p = w +:+ rest p' /\ Str.all Q w = true.

End Class.

Definition pattern_group_reads (fl : flags) (Q : ascii -> bool)
    (pattern : string) : bool :=
  match parse pattern with
  | Some r => group_reads fl Q r
  | None => true
  end.

(** The class [[\w\s\.,;:!?\-\(\)\/]], whose complement [clean_text]
    removes. *)
Definition kept_char (c : ascii) : bool :=
  Char.is_word c || Char.is_space c ||
  match c with
  | "."%char | ","%char | ";"%char | ":"%char | "!"%char | "?"%char
  | "-"%char | "("%char | ")"%char | "/"%char => true
  | _ => false
  end.

(** The characters of a cleaned text: word characters, the space, the
    punctuation that [clean_text] keeps, and the square brackets of the
    redaction marks. *)
Definition clean_char (c : ascii) : bool :=
  Char.is_word c ||
  match c with
  | " "%char | "."%char | ","%char | ";"%char | ":"%char | "!"%char
  | "?"%char | "-"%char | "("%char | ")"%char | "/"%char
  | "["%char | "]"%char => true
  | _ => false
  end.


(** Neither a period nor a line break: the class [[^.\n]]. *)
Definition fragment_char (c : ascii) : bool :=
  negb (Ascii.eqb c "." || Ascii.eqb c Char.newline).

(** The characters of the value captured for a vital sign. *)
Definition vital_char (vital : string) (c : ascii) : bool :=
  Char.is_digit c
  || (String.eqb vital "blood_pressure" && Ascii.eqb c "/")
  || (String.eqb vital "temperature" && Ascii.eqb c ".").

End Charset.

(** ** One-line texts and lower-cased texts *)

Module Lines.

(** Not a line break. *)
Definition one_line (c : ascii) : bool := negb (Ascii.eqb c Char.newline).

(** A character that [str.lower] leaves as it is. *)
Definition lowered (c : ascii) : bool := Ascii.eqb (Char.lower c) c.

End Lines.

(** ** The score of a sentence *)

Module Scoring.

Import MedicalSummarizer.

(** The number of indicators that occur in the lower-cased sentence: the
    score that [_extract_important_sentences] computes. *)
Definition score (sentence : string) : nat :=
  List.length
    (List.filter (fun indicator =>
                    Str.contains indicator (Str.lower sentence))
       important_indicators).

(** Ranked by score, the highest first. *)
Definition ranks_before (a b : string) : Prop := score b <= score a.

End Scoring.

(** ** [app.py]: the processing of an uploaded report *)

Module App.

Import TextProcessor MedicalSummarizer.

(** The choices of the [Summary Length] select box. *)
Definition summary_lengths : list string :=
  [ "Short (2-3 sentences)"; "Medium (4-5 sentences)";
    "Long (6-8 sentences)" ].

(** What [main] does with an upload: [st.error(message)] and a return, or
    the two summaries and the three word counts stored in the session
    state. *)
Inductive outcome : Type :=
| Error (message : string)
| Summaries (doctor_summary patient_summary : string)
    (original_length doctor_length patient_length : nat).

(** The [try] block of [main] from the text of the upload on:
    [text_content] is the decoded text file, or the text extracted from
    the PDF.  A choice without a word makes [summary_length.split()[0]]
    raise [IndexError], which the handler reports. *)
Definition main (text_content summary_length : string)
    (include_medications include_procedures include_recommendations : bool)
  : outcome :=
  if negb (Str.nonempty (Str.strip text_content))
  then Error "The uploaded file appears to be empty or the text could not be extracted."
  else
    let processed_text := clean_text text_content in
    if negb (Str.nonempty (Str.strip processed_text))
    then Error "No meaningful text could be extracted from the document."
    else
      match Str.words summary_length with
      | first :: _ =>
          let options :=
            Opts (Str.lower first) include_medications include_procedures
              include_recommendations in
          let doctor_summary :=
            generate_doctor_summary processed_text options in
          let patient_summary :=
            generate_patient_summary processed_text options in
          Summaries doctor_summary patient_summary
            (List.length (Str.words text_content))
            (List.length (Str.words doctor_summary))
            (List.length (Str.words patient_summary))
      | [] => Error "Error processing file: list index out of range"
      end.

(** The largest number of sentences that a choice of the select box
    names: the number after the hyphen. *)
Definition promised_maximum (summary_length : string) : nat :=
  match Str.split_char "-" summary_length with
  | [_; after] => default 0 (fst (Re.parse_nat None after))
  | _ => 0
  end.

End App.

(** * Properties *)

Import TextProcessor MedicalSummarizer Scenario.

(** Every pattern string of the source is accepted by the parser. *)
Lemma patterns_compile :
  forallb (fun pattern => bool_decide (is_Some (Re.parse pattern)))
    ([ "\s+"; "[^\w\s\.,;:!?\-\(\)\/]"; "\s*([,.;:!?])\s*"; "([,.;:!?]){2,}";
       "\b\d{3}-\d{2}-\d{4}\b"; "\b\d{3}[-.]?\d{3}[-.]?\d{4}\b";
       "\b\d{1,2}/\d{1,2}/\d{4}\b"; "\bMRN:?\s*\d+\b"; "[.!?]+" ]
       ++ med_patterns ++ List.map snd vital_patterns
       ++ diagnosis_patterns ++ treatment_patterns ++ rec_patterns
       ++ reason_patterns
       ++ List.map section_pattern section_headers
       ++ List.map (fun '(term, _) => "\b" +:+ Re.escape term +:+ "\b")
            patient_translations)
  = true.
Proof. vm_compute. reflexivity. Qed.

(** ** The worked examples of the specification *)

(** C7.  [clean_text("pt c/o cp")] is the text below; it contains
    [patient], [complains of] and [chest pain], each as a whole word.  (The
    slash of [c/o] is kept after the expansion, as the punctuation of the
    token.) *)
Theorem clean_text_expands_abbreviations :
  clean_text "pt c/o cp" = "patient complains of/ chest pain."
  /\ contains_word "patient" (clean_text "pt c/o cp") = true
  /\ contains_word "complains of" (clean_text "pt c/o cp") = true
  /\ contains_word "chest pain" (clean_text "pt c/o cp") = true.
Proof. repeat apply conj; vm_compute; reflexivity. Qed.


(** C9.  The [diagnoses] and [recommendations] fields are empty for every
    text: no pass of [extract_key_information] writes to them. *)
Theorem diagnoses_and_recommendations_empty (text : string) :
  diagnoses (extract_key_information text) = []
  /\ recommendations (extract_key_information text) = [].
Proof. split; reflexivity. Qed.

(** C8.  The medication and procedure lists have no duplicates, so no entry
    occurs in them more than once; the text [Aspirin 81mg daily], mentioned
    once or twice, gives [Aspirin] exactly once. *)
Theorem medications_and_procedures_no_duplicates :
  (forall text : string,
      List.NoDup (medications (extract_key_information text))
      /\ List.NoDup (procedures (extract_key_information text))
      /\ (forall x,
             count_occ string_dec
               (medications (extract_key_information text)) x <= 1)
      /\ (forall x,
             count_occ string_dec
               (procedures (extract_key_information text)) x <= 1))
  /\ medications (extract_key_information "Aspirin 81mg daily") = ["Aspirin"]
  /\ count_occ string_dec
       (medications
          (extract_key_information
             "Aspirin 81mg daily in the morning. Continue Aspirin 81mg daily."))
       "Aspirin" = 1
  /\ count_occ string_dec
       (medications
          (extract_key_information
             "Aspirin 81mg daily, Metoprolol 25 mg, aspirin 81mg daily"))
       "Aspirin" = 1.
Proof.
  split.
  - intros text.
    assert (Hm : List.NoDup (medications (extract_key_information text)))
      by (apply NoDup_ListNoDup;
          exact (NoDup_elements (C := gset string) _)).
    assert (Hp : List.NoDup (procedures (extract_key_information text)))
      by (apply NoDup_ListNoDup;
          exact (NoDup_elements (C := gset string) _)).
    repeat apply conj; try assumption.
    + apply (proj1 (List.NoDup_count_occ string_dec _)). exact Hm.
    + apply (proj1 (List.NoDup_count_occ string_dec _)). exact Hp.
  - repeat apply conj; vm_compute; reflexivity.
Qed.

(** ** Patterns that cannot match a text of a given alphabet *)

Module ScanFacts.

Import Re Scan.

Lemma all_ascii_complete (c : ascii) : In c all_ascii.
Proof.
  unfold all_ascii. rewrite <- (ascii_nat_embedding c).
  apply in_map, in_seq. pose proof (nat_ascii_bounded c). lia.
Qed.

Section Alphabet.

Variable fl : flags.
Variable ok : ascii -> bool.

Lemma one_dead (f : ascii -> bool) (k : cont) :
  dead ok k -> dead ok (one f k).
Proof.
  intros Hk [prev s] g Hall. unfold one. cbn [rest] in *.
  destruct s as [|a s]; [reflexivity|].
  cbn in Hall. apply andb_prop in Hall as [_ Hs].
  destruct (f a); [|reflexivity]. apply Hk. exact Hs.
Qed.

Lemma one_rejects (f : ascii -> bool) (k : cont) :
  (forall c, ok c = true -> f c = false) -> dead ok (one f k).
Proof.
  intros Hf [prev s] g Hall. unfold one. cbn [rest] in *.
  destruct s as [|a s]; [reflexivity|].
  cbn in Hall. apply andb_prop in Hall as [Ha _].
  now rewrite (Hf a Ha).
Qed.

Lemma rep_dead (body : cont -> cont) (greedy : bool) (k : cont) :
  (forall k', dead ok k' -> dead ok (body k')) ->
  dead ok k ->
  forall fuel lo hi, dead ok (rep body greedy lo hi fuel k).
Proof.
  intros Hbody Hk. induction fuel as [|fuel IH]; intros lo hi p g Hall.
  - reflexivity.
  - cbn [rep]. destruct lo as [|lo].
    + destruct (hi_reached hi); [now apply Hk|].
      rewrite (Hk p g Hall).
      assert (Hmore :
        body (fun p' g' =>
                if shorter p' p
                then rep body greedy 0 (pred_hi hi) fuel k p' g'
                else None) p g = None).
      { apply Hbody; [|exact Hall].
        intros p' g' Hall'. destruct (shorter p' p); [|reflexivity].
        now apply IH. }
      rewrite Hmore. now destruct greedy.
    + apply Hbody; [|exact Hall]. apply IH.
Qed.

Lemma rep_needs (body : cont -> cont) (greedy : bool) (k : cont) :
  (forall k', dead ok (body k')) ->
  forall fuel lo hi, dead ok (rep body greedy (S lo) hi (S fuel) k).
Proof.
  intros Hbody fuel lo hi p g Hall. cbn [rep]. now apply Hbody.
Qed.

Lemma run_dead (r : regex) :
  forall k, dead ok k -> dead ok (run fl r k).
Proof.
  induction r; intros k Hk; try (cbn [run]; now apply one_dead).
  - exact Hk.
  - intros p g Hall. cbn [run]. destruct (at_boundary p); [now apply Hk|reflexivity].
  - intros p g Hall. cbn [run]. destruct (at_end p); [now apply Hk|reflexivity].
  - cbn [run]. apply IHr1, IHr2, Hk.
  - intros p g Hall. cbn [run].
    rewrite (IHr1 k Hk p g Hall). now apply IHr2.
  - intros p g Hall. cbn [run]. now apply rep_dead.
  - intros p g Hall. cbn [run]. apply IHr; [|exact Hall].
    intros p' g' Hall'. now apply Hk.
  - intros p g Hall. cbn [run].
    destruct (run fl r accept p g) as [[p' g']|]; [now apply Hk|reflexivity].
Qed.

Lemma char_test_rejects (r : regex) :
  forallb (fun c => implb (ok c) (negb (char_test fl r c))) all_ascii = true ->
  forall c, ok c = true -> char_test fl r c = false.
Proof.
  intros H c Hc. rewrite forallb_forall in H.
  specialize (H c (all_ascii_complete c)). rewrite Hc in H. cbn in H.
  now apply negb_true_iff in H.
Qed.

Lemma run_needs (r : regex) :
  needs_other fl ok r = true -> forall k, dead ok (run fl r k).
Proof.
  induction r; cbn [needs_other]; intros Hn k;
    try discriminate;
    try (cbn [run]; apply one_rejects; now apply char_test_rejects).
  - cbn [run]. destruct (needs_other fl ok r1).
    + now apply IHr1.
    + apply run_dead. now apply IHr2.
  - destruct (needs_other fl ok r1); [|discriminate].
    intros p g Hall. cbn [run].
    rewrite (IHr1 eq_refl k p g Hall). now apply IHr2.
  - destruct (0 <? lo) eqn:Hlo; [|discriminate]. apply Nat.ltb_lt in Hlo.
    intros p g Hall. cbn [run]. destruct lo as [|lo]; [lia|].
    cbn [Nat.add]. apply rep_needs; [|exact Hall]. intros k'. now apply IHr.
  - intros p g Hall. cbn [run]. now apply IHr.
  - intros p g Hall. cbn [run]. now rewrite (IHr Hn accept p g Hall).
Qed.

Variable r : regex.
Hypothesis r_needs : needs_other fl ok r = true.

Lemma match_at_none prev s :
  Str.all ok s = true -> match_at fl r prev s = None.
Proof.
  intros Hall. unfold match_at.
  now rewrite (run_needs r r_needs accept (Pos prev s) None Hall).
Qed.

Lemma search_go_none s : forall prev i,
  Str.all ok s = true -> search_go fl r prev s i = None.
Proof.
  induction s as [|a s IH]; intros prev i Hall; cbn [search_go];
    rewrite (match_at_none _ _ Hall); [reflexivity|].
  apply IH. cbn in Hall. now apply andb_prop in Hall as [_ ?].
Qed.

Lemma search_re_none s :
  Str.all ok s = true -> search_re fl r s = None.
Proof. apply search_go_none. Qed.

Lemma sub_go_id template s : forall prev,
  Str.all ok s = true -> sub_go fl r template prev s 0 = s.
Proof.
  induction s as [|a s IH]; intros prev Hall; cbn [sub_go]; [reflexivity|].
  rewrite (match_at_none _ _ Hall). f_equal.
  apply IH. cbn in Hall. now apply andb_prop in Hall as [_ ?].
Qed.

Lemma sub_re_id template s :
  Str.all ok s = true -> sub_re fl r template s = s.
Proof. apply sub_go_id. Qed.

Lemma findall_go_nil s : forall prev,
  Str.all ok s = true -> findall_go fl r prev s 0 = [].
Proof.
  induction s as [|a s IH]; intros prev Hall; cbn [findall_go]; [reflexivity|].
  rewrite (match_at_none _ _ Hall).
  apply IH. cbn in Hall. now apply andb_prop in Hall as [_ ?].
Qed.

Lemma findall_re_nil s :
  Str.all ok s = true -> findall_re fl r s = [].
Proof. apply findall_go_nil. Qed.

End Alphabet.

Section Patterns.

Variables (fl : flags) (ok : ascii -> bool) (pattern : string).
Hypothesis pattern_needs : never_matches fl ok pattern = true.
Variable s : string.
Hypothesis s_ok : Str.all ok s = true.

Lemma search_none : search pattern fl s = None.
Proof.
  unfold search. unfold never_matches in pattern_needs.
  destruct (parse pattern) as [r|]; [|reflexivity].
  now apply search_re_none with (ok := ok).
Qed.

Lemma findall_nil : findall pattern fl s = [].
Proof.
  unfold findall. unfold never_matches in pattern_needs.
  destruct (parse pattern) as [r|]; [|reflexivity].
  now apply findall_re_nil with (ok := ok).
Qed.

Lemma sub_id template : sub pattern template fl s = s.
Proof.
  unfold sub. unfold never_matches in pattern_needs.
  destruct (parse pattern) as [r|]; [|reflexivity].
  now apply sub_re_id with (ok := ok).
Qed.

End Patterns.

End ScanFacts.

(** ** The fuel of a repetition

    [run] gives a repetition [lo] plus the length of the remaining text plus
    one as fuel.  Any larger amount gives the same result: the bound is
    never the reason for a failure. *)

Module Fuel.

Import Re Scan.

Lemma agree_le n m k k' : m <= n -> agree n k k' -> agree m k k'.
Proof. intros Hle H p g Hp. apply H. lia. Qed.

Lemma rep_fuel (body : cont -> cont) (greedy : bool) :
  forward body ->
  forall fuel fuel' lo hi k k' p g,
    agree (String.length (rest p)) k k' ->
    lo + String.length (rest p) < fuel ->
    lo + String.length (rest p) < fuel' ->
    rep body greedy lo hi fuel k p g = rep body greedy lo hi fuel' k' p g.
Proof.
  intros Hbody. induction fuel as [|fuel IH];
    intros fuel' lo hi k k' p g Hk Hf Hf'; [lia|].
  destruct fuel' as [|fuel']; [lia|]. cbn [rep].
  destruct lo as [|lo].
  - rewrite (Hk p g (Nat.le_refl _)).
    destruct (hi_reached hi); [reflexivity|].
    assert (Hmore :
      body (fun p' g' =>
              if shorter p' p
              then rep body greedy 0 (pred_hi hi) fuel k p' g' else None)
        p g
      = body (fun p' g' =>
                if shorter p' p
                then rep body greedy 0 (pred_hi hi) fuel' k' p' g' else None)
          p g).
    { apply Hbody. intros p' g' Hle. unfold shorter.
      destruct (Nat.ltb_spec (String.length (rest p'))
                  (String.length (rest p))) as [Hlt|_]; [|reflexivity].
      apply IH; [|lia|lia]. apply (agree_le _ _ _ _ Hle Hk). }
    now rewrite Hmore.
  - apply Hbody. intros p' g' Hle.
    apply IH; [|lia|lia]. apply (agree_le _ _ _ _ Hle Hk).
Qed.

Lemma one_forward (f : ascii -> bool) : forward (one f).
Proof.
  intros k k' [prev s] g Hk. unfold one. cbn [rest] in *.
  destruct s as [|a s]; [reflexivity|].
  destruct (f a); [|reflexivity]. apply Hk. cbn. lia.
Qed.

Lemma run_forward (fl : flags) (r : regex) : forward (run fl r).
Proof.
  induction r; intros k k' p g Hk;
    try (cbn [run]; now apply one_forward).
  - cbn [run]. now apply Hk.
  - cbn [run]. destruct (at_boundary p); [now apply Hk|reflexivity].
  - cbn [run]. destruct (at_end p); [now apply Hk|reflexivity].
  - cbn [run]. apply IHr1. intros p' g' Hle. apply IHr2.
    apply (agree_le _ _ _ _ Hle Hk).
  - cbn [run]. now rewrite (IHr1 k k' p g Hk), (IHr2 k k' p g Hk).
  - cbn [run]. apply rep_fuel; [exact IHr|exact Hk|lia|lia].
  - cbn [run]. apply IHr. intros p' g' Hle. now apply Hk.
  - cbn [run]. destruct (run fl r accept p g) as [[p' g']|];
      [now apply Hk|reflexivity].
Qed.

Theorem rep_fuel_enough (fl : flags) (r : regex) (greedy : bool)
    (lo : nat) (hi : option nat) (fuel : nat) (k : cont) (p : pos)
    (g : option string) :
  lo + String.length (rest p) < fuel ->
  rep (run fl r) greedy lo hi fuel k p g
  = run fl (Rep greedy lo hi r) k p g.
Proof.
  intros Hf. cbn [run].
  apply rep_fuel; [apply run_forward| |exact Hf|lia].
  intros p' g' _. reflexivity.
Qed.

End Fuel.

(** ** Texts made of whitespace only *)

Module Blank.

Import Re Scan ScanFacts.

Lemma is_space_lower (c : ascii) :
  Char.is_space (Char.lower c) = Char.is_space c.
Proof. destruct c as [[] [] [] [] [] [] [] []]; reflexivity. Qed.

Lemma all_space_lower (s : string) :
  Str.all Char.is_space (Str.lower s) = Str.all Char.is_space s.
Proof.
  unfold Str.lower. induction s as [|a s IH]; [reflexivity|].
  cbn [Str.map Str.all]. now rewrite is_space_lower, IH.
Qed.

Lemma startswith_blank (a : ascii) (p s : string) :
  Char.is_space a = false -> Str.all Char.is_space s = true ->
  Str.startswith (String a p) s = false.
Proof.
  intros Ha Hs. destruct s as [|b s]; [reflexivity|].
  cbn in *. apply andb_prop in Hs as [Hb _].
  destruct (Ascii.eqb_spec a b) as [->|]; [congruence|reflexivity].
Qed.

Lemma contains_blank (a : ascii) (p s : string) :
  Char.is_space a = false -> Str.all Char.is_space s = true ->
  Str.contains (String a p) s = false.
Proof.
  intros Ha. induction s as [|b s IH]; intros Hs; [reflexivity|].
  cbn [Str.contains]. rewrite (startswith_blank a p _ Ha Hs).
  cbn in Hs. apply andb_prop in Hs as [_ Hs]. now apply IH.
Qed.

(** Rewrites away the regular-expression calls whose pattern cannot match
    a text of the alphabet [ok]. *)
Ltac no_match ok :=
  repeat match goal with
    | |- context [findall ?p ?fl ?s] =>
        let H := fresh in
        assert (H : never_matches fl ok p = true) by (vm_compute; reflexivity);
        rewrite (findall_nil fl ok p H s ltac:(assumption)); clear H
    | |- context [search ?p ?fl ?s] =>
        let H := fresh in
        assert (H : never_matches fl ok p = true) by (vm_compute; reflexivity);
        rewrite (search_none fl ok p H s ltac:(assumption)); clear H
    end.

Section BlankText.

Variable text : string.
Hypothesis blank : Str.all Char.is_space text = true.

Let blank_lower : Str.all Char.is_space (Str.lower text) = true.
Proof. now rewrite all_space_lower. Qed.

Lemma key_information_blank :
  extract_key_information text = Info [] [] [] [] [].
Proof.
  unfold extract_key_information, med_patterns, vital_patterns,
    procedure_keywords.
  cbn [flat_map]. no_match Char.is_space.
  repeat match goal with
    | |- context [Str.contains ?p (Str.lower text)] =>
        let q := eval vm_compute in p in
        match q with
        | String ?a ?q' =>
            change (Str.contains p (Str.lower text))
              with (Str.contains (String a q') (Str.lower text));
            rewrite (contains_blank a q' _ eq_refl blank_lower)
        end
    end.
  reflexivity.
Qed.

Lemma sections_blank : extract_sections text = ∅.
Proof.
  unfold extract_sections.
  assert (H : forallb (fun h => never_matches DOTALL_IGNORECASE
                                  Char.is_space (section_pattern h))
                section_headers = true) by (vm_compute; reflexivity).
  revert H. generalize section_headers as hs.
  generalize (∅ : gmap string string) as acc.
  intros acc hs. revert acc.
  induction hs as [|h hs IH]; intros acc H; [reflexivity|].
  cbn [forallb] in H. apply andb_prop in H as [Hh Hhs].
  change (foldl ?f acc (h :: hs)) with (foldl f (f acc h) hs).
  cbv beta.
  rewrite (search_none DOTALL_IGNORECASE Char.is_space _ Hh _ blank_lower).
  now apply IH.
Qed.

Lemma first_match_blank (patterns : list string) :
  forallb (never_matches IGNORECASE Char.is_space) patterns = true ->
  first_match patterns text = None.
Proof.
  induction patterns as [|pattern patterns IH]; intros H; [reflexivity|].
  cbn in H. apply andb_prop in H as [Hp Hps]. cbn [first_match].
  rewrite (search_none IGNORECASE Char.is_space _ Hp text blank).
  now apply IH.
Qed.

Lemma patient_reason_blank :
  _extract_patient_reason text
  = "You came to the hospital for medical care.".
Proof.
  unfold _extract_patient_reason, reason_patterns.
  cbn [_extract_patient_reason_go].
  no_match Char.is_space. reflexivity.
Qed.
End BlankText.
End Blank.

Module BlankSummaries.

Import Re Scan ScanFacts Blank.

Lemma adjust_summary_length_empty (length : string) :
  _adjust_summary_length "" length = "".
Proof. reflexivity. Qed.

Lemma patient_cap_ge_2 (length : string) :
  2 <= dict_get [("short", 2); ("medium", 4); ("long", 6)] length 4.
Proof.
  cbn [dict_get].
  repeat match goal with |- context [String.eqb ?a ?b] => destruct (String.eqb a b) end; lia.
Qed.

Lemma doctor_blank text options :
  Str.all Char.is_space text = true ->
  generate_doctor_summary text options = doctor_placeholder.
Proof.
  intros blank. unfold generate_doctor_summary. cbv zeta.
  rewrite (key_information_blank text blank), (sections_blank text blank).
  unfold _extract_diagnosis_info, _extract_treatment_info,
    _extract_recommendations.
  rewrite !(first_match_blank text blank) by (vm_compute; reflexivity).
  rewrite lookup_empty.
  destruct options as [len [] [] []]; reflexivity.
Qed.

Lemma patient_adjust_short (summary length : string) :
  List.length (sentences_of summary) <= 2 ->
  Str.endswith "." summary = true ->
  _adjust_patient_summary summary length = summary.
Proof.
  intros Hlen Hend. unfold _adjust_patient_summary. cbv zeta.
  pose proof (patient_cap_ge_2 length) as Hcap.
  destruct (Nat.ltb_spec
              (dict_get [("short", 2); ("medium", 4); ("long", 6)] length 4)
              (List.length (sentences_of summary))) as [Hlt|_]; [lia|].
  now rewrite Hend.
Qed.

Lemma patient_blank text options :
  Str.all Char.is_space text = true ->
  generate_patient_summary text options
  = if include_recommendations options
    then "You came to the hospital for medical care. Please follow up with your doctor as recommended."
    else "You came to the hospital for medical care.".
Proof.
  intros blank. unfold generate_patient_summary. cbv zeta.
  rewrite (key_information_blank text blank),
    (patient_reason_blank text blank).
  unfold _extract_patient_diagnosis, _extract_patient_treatment,
    _extract_patient_next_steps,
    _extract_diagnosis_info, _extract_treatment_info,
    _extract_recommendations.
  rewrite !(first_match_blank text blank) by (vm_compute; reflexivity).
  destruct options as [len [] ip []];
    cbn [include_recommendations length include_medications];
    match goal with
    | |- context [_adjust_patient_summary ?s len] =>
        let s' := eval vm_compute in s in
        replace s with s' by (vm_compute; reflexivity)
    end;
    (rewrite patient_adjust_short;
     [reflexivity | vm_compute; lia | vm_compute; reflexivity]).
Qed.

End BlankSummaries.

(** C2 (as amended).  For an empty or whitespace-only text and any options,
    the doctor summary is the fixed placeholder; the patient summary is the
    default reason clause, followed by the default next-steps clause when
    recommendations are included.  (The apology placeholder is not
    returned: the reason clause is always present.) *)
Theorem blank_text_summaries (text : string) (options : Options) :
  Str.all Char.is_space text = true ->
  generate_doctor_summary text options = doctor_placeholder
  /\ generate_patient_summary text options
     = if include_recommendations options
       then "You came to the hospital for medical care. Please follow up with your doctor as recommended."
       else "You came to the hospital for medical care.".
Proof.
  intros blank. split.
  - now apply BlankSummaries.doctor_blank.
  - now apply BlankSummaries.patient_blank.
Qed.

Lemma blank_text_summaries_witness :
  Str.all Char.is_space ("  " +:+ nl +:+ " ") = true
  /\ generate_doctor_summary ("  " +:+ nl +:+ " ") (all_on "short")
     = doctor_placeholder
  /\ generate_patient_summary ("  " +:+ nl +:+ " ") (all_on "short")
     = "You came to the hospital for medical care. Please follow up with your doctor as recommended.".
Proof.
  split; [reflexivity|].
  exact (blank_text_summaries ("  " +:+ nl +:+ " ") (all_on "short") eq_refl).
Defined.

(** C2 (as stated) fails: for the empty text the patient summary is not the
    apology placeholder. *)
Lemma blank_text_patient_not_placeholder :
  ~ (generate_doctor_summary "" (all_on "medium") = doctor_placeholder
     /\ generate_patient_summary "" (all_on "medium") = patient_placeholder).
Proof.
  intros [_ H].
  assert (E : generate_patient_summary "" (all_on "medium")
              = "You came to the hospital for medical care. Please follow up with your doctor as recommended.")
    by (vm_compute; reflexivity).
  rewrite E in H. discriminate H.
Qed.


(** ** Repetition of a one-character pattern *)

Module RepFacts.

Import Re Scan.

Lemma run_char fl r : is_char r = true -> run fl r = one (char_test fl r).
Proof. destruct r; try discriminate; reflexivity. Qed.

Lemma length_drop n : forall s,
  String.length (Str.drop n s) = String.length s - n.
Proof.
  induction n as [|n IH]; intros [|a s]; cbn; try lia. apply IH.
Qed.

Lemma span_le f s : span f s <= String.length s.
Proof. induction s as [|a s IH]; cbn; [lia|]. destruct (f a); lia. Qed.

Lemma rest_advance n : forall prev s,
  rest (advance prev s n) = Str.drop n s.
Proof.
  induction n as [|n IH]; intros prev [|a s]; cbn; try reflexivity. apply IH.
Qed.

Lemma rep_mandatory body greedy lo hi fuel k p g :
  rep body greedy (S lo) hi (S fuel) k p g
  = body (rep body greedy lo (pred_hi hi) fuel k) p g.
Proof. reflexivity. Qed.

Section OneChar.

Variable f : ascii -> bool.

Lemma rep_greedy_star (k : cont) : forall fuel prev s g,
  String.length s < fuel ->
  rep (one f) true 0 None fuel k (Pos prev s) g = greedy_scan f k prev s g.
Proof.
  induction fuel as [|fuel IH]; intros prev s g Hfuel; [lia|].
  cbn [rep hi_reached]. destruct s as [|a s]; [reflexivity|].
  cbn [one rest greedy_scan]. destruct (f a); [|reflexivity].
  unfold shorter. cbn [rest String.length].
  rewrite (proj2 (Nat.ltb_lt _ _) (Nat.lt_succ_diag_r _)).
  rewrite IH by (cbn in Hfuel; lia). reflexivity.
Qed.

Lemma rep_lazy_star (k : cont) : forall fuel prev s g,
  String.length s < fuel ->
  rep (one f) false 0 None fuel k (Pos prev s) g = lazy_scan f k prev s g.
Proof.
  induction fuel as [|fuel IH]; intros prev s g Hfuel; [lia|].
  cbn [rep hi_reached]. destruct s as [|a s].
  - cbn [lazy_scan one rest]. now destruct (k (Pos prev "") g).
  - cbn [one rest lazy_scan].
    destruct (k (Pos prev (String a s)) g); [reflexivity|].
    destruct (f a); [|reflexivity].
    unfold shorter. cbn [rest String.length].
    rewrite (proj2 (Nat.ltb_lt _ _) (Nat.lt_succ_diag_r _)).
    apply IH. cbn in Hfuel. lia.
Qed.

(** A greedy scan stops after the longest run when the continuation
    succeeds there. *)
Lemma greedy_scan_longest (k : cont) x : forall s prev g,
  k (advance prev s (span f s)) g = Some x ->
  greedy_scan f k prev s g = Some x.
Proof.
  induction s as [|a s IH]; intros prev g Hk; cbn in *; [exact Hk|].
  destruct (f a); [|exact Hk]. now rewrite (IH _ _ Hk).
Qed.

Lemma greedy_scan_accept s prev g :
  greedy_scan f accept prev s g = Some (advance prev s (span f s), g).
Proof. now apply greedy_scan_longest. Qed.

End OneChar.

(** [c?] for a one-character pattern with test [f]. *)
Lemma rep_optional (f : ascii -> bool) (k : cont) prev s g :
  rep (one f) true 0 (Some 1) (S (String.length s)) k (Pos prev s) g
  = match s with
    | String a s' =>
        if f a
        then match k (Pos (Some a) s') g with
             | Some x => Some x
             | None => k (Pos prev s) g
             end
        else k (Pos prev s) g
    | EmptyString => k (Pos prev s) g
    end.
Proof.
  cbn [rep hi_reached pred_hi Nat.pred]. destruct s as [|a s]; [reflexivity|].
  cbn [one rest]. destruct (f a); [|reflexivity].
  unfold shorter. cbn [rest String.length].
  rewrite (proj2 (Nat.ltb_lt _ _) (Nat.lt_succ_diag_r _)).
  reflexivity.
Qed.

Lemma rep_optional_at (f : ascii -> bool) (k : cont) p g :
  rep (one f) true 0 (Some 1) (S (String.length (rest p))) k p g
  = match rest p with
    | String a s' =>
        if f a
        then match k (Pos (Some a) s') g with
             | Some x => Some x
             | None => k p g
             end
        else k p g
    | EmptyString => k p g
    end.
Proof. destruct p as [prev s]. cbn [rest]. apply rep_optional. Qed.

Lemma greedy_scan_gated (f : ascii -> bool) (k : cont) g :
  (forall prev a s, f a = true -> k (Pos prev (String a s)) g = None) ->
  forall s prev,
    greedy_scan f k prev s g = k (advance prev s (span f s)) g.
Proof.
  intros Hgate. induction s as [|a s IH]; intros prev; [reflexivity|].
  cbn [greedy_scan span]. destruct (f a) eqn:Ha; [|reflexivity].
  cbn [advance]. rewrite IH.
  destruct (k (advance (Some a) s (span f s)) g); [reflexivity|].
  now apply Hgate.
Qed.

Lemma lazy_scan_ext (f : ascii -> bool) (k k' : cont) :
  (forall p g, k p g = k' p g) ->
  forall s prev g, lazy_scan f k prev s g = lazy_scan f k' prev s g.
Proof.
  intros H. induction s as [|a s IH]; intros prev g; cbn [lazy_scan];
    rewrite H; [reflexivity|].
  destruct (k' (Pos prev (String a s)) g); [reflexivity|].
  destruct (f a); [apply IH|reflexivity].
Qed.

Lemma drop_span_lstrip (f : ascii -> bool) (s : string) :
  Str.drop (span f s) s = Str.lstrip_by f s.
Proof.
  induction s as [|a s IH]; [reflexivity|]. cbn.
  destruct (f a); [exact IH|reflexivity].
Qed.

(** [c+] for a one-character pattern [c], as the whole pattern: it
    matches where the first character passes the test, and takes the
    longest run. *)
Lemma match_at_plus fl r prev s :
  is_char r = true ->
  match_at fl (Cat (Rep true 1 None r) Eps) prev s
  = match s with
    | String a s' =>
        if char_test fl r a
        then Some (S (span (char_test fl r) s'), None)
        else None
    | EmptyString => None
    end.
Proof.
  intros Hr. unfold match_at. cbn [run rest Nat.add].
  rewrite (run_char fl r Hr), rep_mandatory.
  destruct s as [|a s]; [reflexivity|]. cbn [one rest pred_hi].
  destruct (char_test fl r a); [|reflexivity].
  rewrite rep_greedy_star by (cbn; lia).
  change (fun (p : pos) (g : option string) => accept p g) with accept.
  rewrite greedy_scan_accept. rewrite rest_advance, length_drop.
  pose proof (span_le (char_test fl r) s). cbn [String.length].
  do 2 f_equal. lia.
Qed.

End RepFacts.

(** ** Sentences of a summary *)

Module Sentences.

Import Re Scan RepFacts.

Lemma parse_terminators : parse "[.!?]+" = Some terminators.
Proof. reflexivity. Qed.

Lemma terminator_test (a : ascii) :
  char_test no_flags (Cset false [IChar "."; IChar "!"; IChar "?"]) a
  = is_terminal a.
Proof. destruct a as [[] [] [] [] [] [] [] []]; reflexivity. Qed.

Lemma span_ext f f' s : (forall a, f a = f' a) -> span f s = span f' s.
Proof.
  intros H. induction s as [|a s IH]; [reflexivity|].
  cbn. now rewrite H, IH.
Qed.

Lemma match_at_terminators prev s :
  match_at no_flags terminators prev s
  = match s with
    | String a s' =>
        if is_terminal a then Some (S (span is_terminal s'), None) else None
    | EmptyString => None
    end.
Proof.
  unfold terminators. rewrite match_at_plus by reflexivity.
  destruct s as [|a s]; [reflexivity|].
  rewrite terminator_test. now rewrite (span_ext _ _ s terminator_test).
Qed.

Lemma kept_cons h t :
  kept (h :: t)
  = (if Str.nonempty (Str.strip h) then [Str.strip h] else []) ++ kept t.
Proof. unfold kept. cbn. now destruct (Str.nonempty (Str.strip h)). Qed.

Lemma kept_app l l' : kept (l ++ l') = kept l ++ kept l'.
Proof. unfold kept. now rewrite List.map_app, List.filter_app. Qed.

Lemma kept_length l : List.length (kept l) <= List.length l.
Proof.
  unfold kept. etransitivity; [apply List.filter_length_le|].
  now rewrite List.length_map.
Qed.

(** Splitting at the runs of terminators and splitting at every
    terminator give the same sentences. *)
Lemma split_go_split_by s : forall prev,
  (forall n, n <= span is_terminal s ->
     kept (split_go no_flags terminators prev s n)
     = kept (Str.split_by is_terminal s))
  /\ (exists h t t',
        split_go no_flags terminators prev s 0 = h :: t
        /\ Str.split_by is_terminal s = h :: t'
        /\ kept t = kept t').
Proof.
  induction s as [|a s IH]; intros prev.
  - split; [intros n _; now destruct n|]. now exists "", [], [].
  - assert (Hhead : exists h t t',
               split_go no_flags terminators prev (String a s) 0 = h :: t
               /\ Str.split_by is_terminal (String a s) = h :: t'
               /\ kept t = kept t').
    { cbn [split_go Str.split_by]. rewrite match_at_terminators.
      destruct (is_terminal a) eqn:Ha.
      - exists "", (split_go no_flags terminators (Some a) s
                      (span is_terminal s)), (Str.split_by is_terminal s).
        repeat split. now apply (proj1 (IH (Some a))).
      - destruct (proj2 (IH (Some a))) as (h & t & t' & E1 & E2 & E3).
        rewrite E1, E2. now exists (String a h), t, t'. }
    split; [|exact Hhead].
    intros [|n] Hn.
    + destruct Hhead as (h & t & t' & E1 & E2 & E3).
      now rewrite E1, E2, !kept_cons, E3.
    + cbn [span] in Hn. cbn [split_go Str.split_by].
      destruct (is_terminal a) eqn:Ha; [|lia].
      rewrite kept_cons. cbn [Str.strip Str.strip_by Str.lstrip_by
                                Str.rstrip_by Str.nonempty app].
      apply (proj1 (IH (Some a))). lia.
Qed.

Lemma sentences_of_split_by s :
  sentences_of s = kept (Str.split_by is_terminal s).
Proof.
  unfold sentences_of, split. rewrite parse_terminators.
  apply (proj1 (split_go_split_by s None) 0). lia.
Qed.

Section SplitBy.

Variable f : ascii -> bool.

Lemma split_by_not_nil s : Str.split_by f s <> [].
Proof.
  destruct s as [|a s]; cbn; [discriminate|].
  destruct (f a); [discriminate|]. now destruct (Str.split_by f s).
Qed.

Lemma split_by_length s :
  List.length (Str.split_by f s) = S (count f s).
Proof.
  induction s as [|a s IH]; [reflexivity|]. cbn.
  destruct (f a); cbn; [now rewrite IH|].
  pose proof (split_by_not_nil s).
  destruct (Str.split_by f s); [contradiction|exact IH].
Qed.

Lemma split_by_snoc s c :
  f c = true ->
  Str.split_by f (s +:+ String c "") = Str.split_by f s ++ [""].
Proof.
  intros Hc. induction s as [|a s IH].
  - change ("" +:+ String c "") with (String c ""). cbn. now rewrite Hc.
  - change (String a s +:+ String c "")
      with (String a (s +:+ String c "")).
    cbn [Str.split_by].
    rewrite IH. destruct (f a); [reflexivity|].
  pose proof (split_by_not_nil s).
  now destruct (Str.split_by f s).
Qed.

Lemma split_by_pieces s p :
  In p (Str.split_by f s) -> count f p = 0.
Proof.
  revert p. induction s as [|a s IH]; intros p Hp; cbn in Hp.
  - destruct Hp as [<-|[]]. reflexivity.
  - destruct (f a) eqn:Ha.
    + destruct Hp as [<-|Hp]; [reflexivity|now apply IH].
    + pose proof (split_by_not_nil s).
      destruct (Str.split_by f s) as [|h t]; [contradiction|].
      destruct Hp as [<-|Hp].
      * cbn. rewrite Ha. apply IH. now left.
      * apply IH. now right.
Qed.

Lemma count_app s s' : count f (s +:+ s') = count f s + count f s'.
Proof.
  induction s as [|a s IH]; [reflexivity|].
  change (String a s +:+ s') with (String a (s +:+ s')).
  cbn [count]. rewrite IH. lia.
Qed.

Lemma count_lstrip g s : count f s = 0 -> count f (Str.lstrip_by g s) = 0.
Proof.
  induction s as [|a s IH]; intros H; cbn; [reflexivity|].
  destruct (g a); [|exact H]. apply IH. cbn in H. lia.
Qed.

Lemma count_rstrip g s : count f s = 0 -> count f (Str.rstrip_by g s) = 0.
Proof.
  induction s as [|a s IH]; intros H; cbn; [reflexivity|].
  cbn in H. assert (Hs : count f s = 0) by lia. specialize (IH Hs).
  destruct (Str.rstrip_by g s) eqn:E.
  - destruct (g a); cbn; lia.
  - cbn in *. lia.
Qed.

Lemma count_strip s : count f s = 0 -> count f (Str.strip s) = 0.
Proof. intros H. now apply count_rstrip, count_lstrip. Qed.

End SplitBy.

Lemma kept_pieces f l p :
  (forall q, In q l -> count f q = 0) -> In p (kept l) -> count f p = 0.
Proof.
  unfold kept. intros Hl Hp. apply List.filter_In in Hp as [Hp _].
  apply List.in_map_iff in Hp as (q & <- & Hq). apply count_strip. now apply Hl.
Qed.

(** No sentence contains a terminator. *)
Lemma sentences_no_terminator s p :
  In p (sentences_of s) -> count is_terminal p = 0.
Proof.
  rewrite sentences_of_split_by. apply kept_pieces.
  intros q. apply split_by_pieces.
Qed.

Lemma sentences_length s :
  List.length (sentences_of s) <= S (count is_terminal s).
Proof.
  rewrite sentences_of_split_by, <- split_by_length. apply kept_length.
Qed.

(** A final period adds no sentence. *)
Lemma sentences_final_period s : sentences_of (s +:+ ".") = sentences_of s.
Proof.
  rewrite !sentences_of_split_by, split_by_snoc by reflexivity.
  rewrite kept_app. cbn. apply List.app_nil_r.
Qed.

Lemma count_join (ps : list string) :
  (forall p, In p ps -> count is_terminal p = 0) ->
  count is_terminal (Str.join ". " ps) = Nat.pred (List.length ps).
Proof.
  induction ps as [|p ps IH]; intros H; [reflexivity|].
  destruct ps as [|q ps].
  - cbn. apply H. now left.
  - change (Str.join ". " (p :: q :: ps))
      with (p +:+ ". " +:+ Str.join ". " (q :: ps)).
    rewrite !count_app, IH by (intros r Hr; apply H; now right).
    rewrite (H p) by now left. reflexivity.
Qed.

(** Joining sentences with a period and a space and closing with a
    period gives back at most as many sentences. *)
Lemma sentences_of_joined (ps : list string) :
  (forall p, In p ps -> count is_terminal p = 0) ->
  List.length (sentences_of (Str.join ". " ps +:+ ".")) <= List.length ps.
Proof.
  intros H. rewrite sentences_final_period.
  destruct ps as [|p ps]; [cbn; lia|].
  etransitivity; [apply sentences_length|].
  rewrite count_join by exact H. cbn. lia.
Qed.

Lemma in_firstn {A} (x : A) n : forall l, In x (firstn n l) -> In x l.
Proof.
  induction n as [|n IH]; intros [|y l] H; cbn in H; try contradiction.
  destruct H as [->|H]; [now left|right; now apply IH].
Qed.

(** The truncation shared by [_adjust_summary_length] and
    [_adjust_patient_summary] leaves at most [cap] sentences. *)
Lemma truncation_bound (summary : string) (cap : nat) :
  List.length
    (sentences_of
       (if cap <? List.length (sentences_of summary)
        then Str.join ". " (firstn cap (sentences_of summary)) +:+ "."
        else summary)) <= cap.
Proof.
  destruct (Nat.ltb_spec cap (List.length (sentences_of summary)))
    as [Hlt|Hge]; [|exact Hge].
  etransitivity.
  - apply sentences_of_joined. intros p Hp.
    apply (sentences_no_terminator summary).
    now apply (in_firstn p cap).
  - rewrite List.length_firstn. lia.
Qed.

Lemma doctor_cap_ge_1 (length : string) :
  1 <= dict_get [("short", 3); ("medium", 5); ("long", 8)] length 5.
Proof.
  cbn [dict_get].
  repeat match goal with
    | |- context [String.eqb ?a ?b] => destruct (String.eqb a b)
    end; lia.
Qed.

Lemma doctor_summary_bound text options :
  sentence_count (generate_doctor_summary text options)
  <= dict_get [("short", 3); ("medium", 5); ("long", 8)] (length options) 5.
Proof.
  unfold generate_doctor_summary. cbv zeta.
  match goal with
  | |- context [_adjust_summary_length ?s ?l] =>
      generalize s; intros summary
  end.
  destruct (Str.nonempty (_adjust_summary_length summary (length options))).
  - apply truncation_bound.
  - etransitivity; [|apply doctor_cap_ge_1].
    vm_compute. lia.
Qed.

Lemma patient_summary_bound text options :
  sentence_count (generate_patient_summary text options)
  <= dict_get [("short", 2); ("medium", 4); ("long", 6)] (length options) 4.
Proof.
  unfold generate_patient_summary. cbv zeta.
  match goal with
  | |- context [_adjust_patient_summary ?s ?l] =>
      generalize s; intros summary
  end.
  destruct (Str.nonempty (_adjust_patient_summary summary (length options))).
  - unfold _adjust_patient_summary, sentence_count. cbv zeta.
    match goal with
    | |- context [Str.endswith "." ?s] => destruct (Str.endswith "." s)
    end; [|rewrite sentences_final_period]; apply truncation_bound.
  - etransitivity; [|apply BlankSummaries.patient_cap_ge_2].
    vm_compute. lia.
Qed.

End Sentences.

(** ** Length tiers *)

(** C4.  For every text and every choice of the include flags, the doctor
    summary has at most 3, 5 and 8 sentences for the tiers short, medium and
    long, and the patient summary at most 2, 4 and 6. *)
Theorem summary_sentence_caps (text : string) (im ip ir : bool) :
  sentence_count (generate_doctor_summary text (Opts "short" im ip ir)) <= 3
  /\ sentence_count (generate_doctor_summary text (Opts "medium" im ip ir)) <= 5
  /\ sentence_count (generate_doctor_summary text (Opts "long" im ip ir)) <= 8
  /\ sentence_count (generate_patient_summary text (Opts "short" im ip ir)) <= 2
  /\ sentence_count (generate_patient_summary text (Opts "medium" im ip ir)) <= 4
  /\ sentence_count (generate_patient_summary text (Opts "long" im ip ir)) <= 6.
Proof.
  repeat split.
  - exact (Sentences.doctor_summary_bound text (Opts "short" im ip ir)).
  - exact (Sentences.doctor_summary_bound text (Opts "medium" im ip ir)).
  - exact (Sentences.doctor_summary_bound text (Opts "long" im ip ir)).
  - exact (Sentences.patient_summary_bound text (Opts "short" im ip ir)).
  - exact (Sentences.patient_summary_bound text (Opts "medium" im ip ir)).
  - exact (Sentences.patient_summary_bound text (Opts "long" im ip ir)).
Qed.

Module Tiers.

Lemma dict_get_unknown (a b c : nat) (key : string) (dflt : nat) :
  existsb (String.eqb key) ["short"; "medium"; "long"] = false ->
  dict_get [("short", a); ("medium", b); ("long", c)] key dflt = dflt.
Proof.
  cbn [existsb dict_get]. intros H.
  apply orb_false_elim in H as [H1 H].
  apply orb_false_elim in H as [H2 H].
  apply orb_false_elim in H as [H3 _].
  rewrite (String.eqb_sym "short"), (String.eqb_sym "medium"),
    (String.eqb_sym "long").
  now rewrite H1, H2, H3.
Qed.

Lemma adjust_doctor_unknown summary key :
  existsb (String.eqb key) ["short"; "medium"; "long"] = false ->
  _adjust_summary_length summary key
  = _adjust_summary_length summary "medium".
Proof.
  intros H. unfold _adjust_summary_length. cbv zeta.
  now rewrite (dict_get_unknown _ _ _ key 5 H).
Qed.

Lemma adjust_patient_unknown summary key :
  existsb (String.eqb key) ["short"; "medium"; "long"] = false ->
  _adjust_patient_summary summary key
  = _adjust_patient_summary summary "medium".
Proof.
  intros H. unfold _adjust_patient_summary. cbv zeta.
  now rewrite (dict_get_unknown _ _ _ key 4 H).
Qed.

Section SameFlags.

Variables (text : string) (o1 o2 : Options).
Hypothesis same_medications :
  include_medications o1 = include_medications o2.
Hypothesis same_procedures :
  include_procedures o1 = include_procedures o2.
Hypothesis same_recommendations :
  include_recommendations o1 = include_recommendations o2.
Hypothesis unknown :
  existsb (String.eqb (length o1)) ["short"; "medium"; "long"] = false.
Hypothesis medium : length o2 = "medium".

Lemma doctor_unknown :
  generate_doctor_summary text o1 = generate_doctor_summary text o2.
Proof.
  unfold generate_doctor_summary. cbv zeta.
  rewrite same_medications, same_procedures, same_recommendations.
  rewrite (adjust_doctor_unknown _ _ unknown), medium. reflexivity.
Qed.

Lemma patient_unknown :
  generate_patient_summary text o1 = generate_patient_summary text o2.
Proof.
  unfold generate_patient_summary. cbv zeta.
  rewrite same_medications, same_recommendations.
  rewrite (adjust_patient_unknown _ _ unknown), medium. reflexivity.
Qed.

End SameFlags.

End Tiers.

(** C10.  When the length value is none of short, medium and long, both
    summaries are the ones computed for medium (the functions are total, so
    they return), and they have at most 5 and 4 sentences. *)
Theorem unknown_length_defaults_to_medium
    (text key : string) (im ip ir : bool) :
  existsb (String.eqb key) ["short"; "medium"; "long"] = false ->
  generate_doctor_summary text (Opts key im ip ir)
  = generate_doctor_summary text (Opts "medium" im ip ir)
  /\ generate_patient_summary text (Opts key im ip ir)
     = generate_patient_summary text (Opts "medium" im ip ir)
  /\ sentence_count (generate_doctor_summary text (Opts key im ip ir)) <= 5
  /\ sentence_count (generate_patient_summary text (Opts key im ip ir)) <= 4.
Proof.
  intros H.
  assert (Hd : generate_doctor_summary text (Opts key im ip ir)
               = generate_doctor_summary text (Opts "medium" im ip ir))
    by (apply Tiers.doctor_unknown; [reflexivity..|exact H|reflexivity]).
  assert (Hp : generate_patient_summary text (Opts key im ip ir)
               = generate_patient_summary text (Opts "medium" im ip ir))
    by (apply Tiers.patient_unknown; [reflexivity..|exact H|reflexivity]).
  split; [exact Hd|]. split; [exact Hp|]. split.
  - rewrite Hd.
    exact (Sentences.doctor_summary_bound text (Opts "medium" im ip ir)).
  - rewrite Hp.
    exact (Sentences.patient_summary_bound text (Opts "medium" im ip ir)).
Qed.

Lemma unknown_length_defaults_to_medium_witness :
  existsb (String.eqb "brief") ["short"; "medium"; "long"] = false
  /\ generate_doctor_summary report (all_on "brief")
     = generate_doctor_summary report (all_on "medium")
  /\ generate_patient_summary report (all_on "brief")
     = generate_patient_summary report (all_on "medium")
  /\ sentence_count (generate_doctor_summary report (all_on "brief")) <= 5
  /\ sentence_count (generate_patient_summary report (all_on "brief")) <= 4.
Proof.
  split; [reflexivity|].
  exact (unknown_length_defaults_to_medium report "brief" true true true
           eq_refl).
Defined.

(** ** The end-to-end example *)

(** C1 (as amended).  For the example report with all include flags set and
    the medium tier, the doctor summary is made of the Chief Complaint,
    Diagnosis, Medications and Follow-up blocks, and the diagnosis clause of
    the patient summary reads [you have sudden heart attack.]: the
    translation table turns [myocardial infarction] into [heart attack] and
    then [acute] into [sudden]. *)
Theorem end_to_end_report :
  generate_doctor_summary report (all_on "medium")
  = "**Chief Complaint**: chest pain" +:+ nl
      +:+ "diagnosis: acute myocardial infarction..." +:+ nl +:+ nl
      +:+ "**Diagnosis**: Acute myocardial infarction" +:+ nl +:+ nl
      +:+ "**Medications**: Aspirin" +:+ nl +:+ nl
      +:+ "**Follow-up**: cardiology in 1 week"
  /\ Str.contains "**Chief Complaint**: "
       (generate_doctor_summary report (all_on "medium")) = true
  /\ Str.contains "**Diagnosis**: "
       (generate_doctor_summary report (all_on "medium")) = true
  /\ Str.contains "**Medications**: "
       (generate_doctor_summary report (all_on "medium")) = true
  /\ Str.contains "**Follow-up**: "
       (generate_doctor_summary report (all_on "medium")) = true
  /\ generate_patient_summary report (all_on "medium")
     = "You came to the hospital because of chest pain. Tests and examinations showed that you have sudden heart attack. You have been given medicine called Aspirin to help with your condition. Please cardiology in 1 week."
  /\ Str.contains
       "Tests and examinations showed that you have sudden heart attack."
       (generate_patient_summary report (all_on "medium")) = true.
Proof. repeat apply conj; vm_compute; reflexivity. Qed.

(** C1 (as stated) fails: the patient summary of the example report does
    not contain [you have acute heart attack.]. *)
Lemma end_to_end_report_not_acute :
  ~ (Str.contains "**Chief Complaint**: "
       (generate_doctor_summary report (all_on "medium")) = true
     /\ Str.contains "**Diagnosis**: "
          (generate_doctor_summary report (all_on "medium")) = true
     /\ Str.contains "**Medications**: "
          (generate_doctor_summary report (all_on "medium")) = true
     /\ Str.contains "**Follow-up**: "
          (generate_doctor_summary report (all_on "medium")) = true
     /\ Str.contains "you have acute heart attack."
          (generate_patient_summary report (all_on "medium")) = true).
Proof.
  intros (_ & _ & _ & _ & H).
  assert (E : Str.contains "you have acute heart attack."
                (generate_patient_summary report (all_on "medium")) = false)
    by (vm_compute; reflexivity).
  rewrite E in H. discriminate H.
Qed.

(** ** Normalising twice *)


(** ** Sections *)

Module SectionFacts.

Import Re Scan RepFacts SectionSpec.

Lemma parse_section_pattern (header : string) :
  In header section_headers ->
  parse (section_pattern header) = Some (section_re header).
Proof.
  intros H. unfold section_headers in H. cbn [In] in H.
  repeat (destruct H as [<-|H]; [vm_compute; reflexivity|]).
  contradiction.
Qed.

Abbreviation fl := DOTALL_IGNORECASE.

(** *** Characters compared without case *)

Lemma is_word_lower (c : ascii) : Char.is_word (Char.lower c) = Char.is_word c.
Proof. destruct c as [[] [] [] [] [] [] [] []]; reflexivity. Qed.

Lemma eqb_ci_word (a c : ascii) :
  Char.eqb_ci a c = true -> Char.is_word c = Char.is_word a.
Proof.
  unfold Char.eqb_ci. intros H. apply Ascii.eqb_eq in H.
  now rewrite <- (is_word_lower c), <- (is_word_lower a), H.
Qed.

Lemma eqb_ci_space (a c : ascii) :
  Char.eqb_ci a c = true -> Char.is_space c = Char.is_space a.
Proof.
  unfold Char.eqb_ci. intros H. apply Ascii.eqb_eq in H.
  now rewrite <- (Blank.is_space_lower c), <- (Blank.is_space_lower a), H.
Qed.

Lemma eqb_ci_colon (c : ascii) : Char.eqb_ci ":" c = Ascii.eqb c ":".
Proof. destruct c as [[] [] [] [] [] [] [] []]; reflexivity. Qed.

Lemma eqb_ci_newline (c : ascii) :
  Char.eqb_ci Char.newline c = Ascii.eqb c Char.newline.
Proof. destruct c as [[] [] [] [] [] [] [] []]; reflexivity. Qed.

Lemma space_not_word (c : ascii) :
  Char.is_space c = true -> Char.is_word c = false.
Proof. destruct c as [[] [] [] [] [] [] [] []]; (reflexivity || discriminate). Qed.

(** *** The pieces of the matcher *)

Lemma run_lit (h : string) (r : regex) (k : cont) : forall prev s g,
  run fl (lit h r) k (Pos prev s) g
  = if startswith_ci h s
    then run fl r k (advance prev s (String.length h)) g
    else None.
Proof.
  induction h as [|a h IH]; intros prev s g; [reflexivity|].
  change (run fl (lit (String a h) r) k (Pos prev s) g)
    with (one (Char.eqb_ci a) (run fl (lit h r) k) (Pos prev s) g).
  destruct s as [|c s]; [reflexivity|].
  unfold one. cbn [rest startswith_ci].
  destruct (Char.eqb_ci a c); [|reflexivity].
  cbn [andb String.length advance]. apply IH.
Qed.

(** *** Headers as whole words *)

Lemma run_header_word (h : string) (k : cont) (p : pos) g :
  run fl (header_word_re h) k p g
  = if word_at p h
    then k (advance (before p) (rest p) (String.length h)) g
    else None.
Proof.
  unfold header_word_re, word_at. destruct p as [prev s].
  cbn [run before rest]. destruct (at_boundary (Pos prev s)); [|reflexivity].
  rewrite run_lit. destruct (startswith_ci h s); [|reflexivity].
  cbn [run andb].
  now destruct (at_boundary (advance prev s (String.length h))).
Qed.

Lemma run_alt_headers (hs : list string) (p : pos) g :
  hs <> [] ->
  run fl (alt_of (List.map header_word_re hs)) accept p g
  = first_word_at p g hs.
Proof.
  induction hs as [|h hs IH]; intros Hne; [contradiction|].
  destruct hs as [|h' hs].
  - cbn [List.map alt_of first_word_at]. rewrite run_header_word.
    now destruct (word_at p h).
  - change (alt_of (List.map header_word_re (h :: h' :: hs)))
      with (Alt (header_word_re h)
              (alt_of (List.map header_word_re (h' :: hs)))).
    cbn [run first_word_at]. rewrite run_header_word.
    destruct (word_at p h); [reflexivity|]. now apply IH.
Qed.

Lemma first_word_at_spec (p : pos) g (hs : list string) :
  match first_word_at p g hs with
  | Some (_, g') => g' = g /\ existsb (word_at p) hs = true
  | None => existsb (word_at p) hs = false
  end.
Proof.
  induction hs as [|h hs IH]; [reflexivity|]. cbn [first_word_at existsb].
  destruct (word_at p h); [now split|exact IH].
Qed.

Lemma startswith_ci_first (h s : string) :
  startswith_ci h s = true ->
  is_word_opt (first_char h) = true ->
  is_word_opt (first_char s) = true.
Proof.
  destruct h as [|a h]; [discriminate 2|].
  destruct s as [|c s]; [discriminate 1|]. cbn.
  intros H Ha. apply andb_prop in H as [H _].
  now rewrite (eqb_ci_word a c H).
Qed.

Lemma startswith_ci_last (h : string) : forall s prev,
  startswith_ci h s = true ->
  is_word_opt (Str.last h) = true ->
  is_word_opt (before (advance prev s (String.length h))) = true.
Proof.
  induction h as [|a h IH]; intros s prev Hs Hl; [discriminate Hl|].
  destruct s as [|c s]; [discriminate Hs|].
  cbn [startswith_ci] in Hs. apply andb_prop in Hs as [Hac Hs].
  cbn [String.length advance].
  destruct h as [|b h].
  - cbn in *. now rewrite (eqb_ci_word a c Hac).
  - apply IH; [exact Hs|exact Hl].
Qed.

Lemma next_is_first_char (p : pos) : next p = first_char (rest p).
Proof. reflexivity. Qed.

(** After a character that is not a word character, a header that begins
    and ends with word characters is a whole word when the text that
    follows it does not begin with a word character. *)
Lemma word_at_header_word (p : pos) (h : string) :
  is_word_opt (before p) = false ->
  word_ended h = true ->
  word_at p h = header_word h (rest p).
Proof.
  intros Hprev Hh. apply andb_prop in Hh as [Hfirst Hlast].
  unfold word_at, header_word. destruct p as [prev s]. cbn [before rest] in *.
  destruct (startswith_ci h s) eqn:Hs;
    [|now rewrite andb_false_r].
  unfold at_boundary at 1. cbn [before]. rewrite Hprev, next_is_first_char.
  cbn [rest]. rewrite (startswith_ci_first h s Hs Hfirst). cbn [xorb andb].
  unfold at_boundary.
  rewrite (startswith_ci_last h s prev Hs Hlast), next_is_first_char.
  rewrite rest_advance. reflexivity.
Qed.

Lemma first_word_at_space g (hs : list string) prev a s :
  forallb word_ended hs = true ->
  Char.is_space a = true ->
  first_word_at (Pos prev (String a s)) g hs = None.
Proof.
  intros Hhs Ha. induction hs as [|h hs IH]; [reflexivity|].
  cbn [forallb] in Hhs. apply andb_prop in Hhs as [Hh Hhs].
  cbn [first_word_at]. rewrite IH by exact Hhs.
  unfold word_at. cbn [rest].
  destruct (startswith_ci h (String a s)) eqn:Hs;
    [|now rewrite andb_false_r].
  apply andb_prop in Hh as [Hfirst _].
  pose proof (startswith_ci_first h _ Hs Hfirst) as Hw. cbn in Hw.
  now rewrite (space_not_word a Ha) in Hw.
Qed.

Lemma before_advance_span (s : string) : forall prev,
  is_word_opt prev = false ->
  is_word_opt (before (advance prev s (span Char.is_space s))) = false.
Proof.
  induction s as [|c s IH]; intros prev Hprev; [exact Hprev|].
  cbn [span]. destruct (Char.is_space c) eqn:Hc; [|exact Hprev].
  cbn [advance]. apply IH. cbn. now apply space_not_word.
Qed.

Lemma headers_word_ended : forallb word_ended section_headers = true.
Proof. reflexivity. Qed.

(** *** The lookahead that ends a section *)

Lemma run_headers_after_space (prev : option ascii) (s : string) g :
  is_word_opt prev = false ->
  match run fl (Cat (Rep true 0 None Space) (Cat headers_re Eps)) accept
          (Pos prev s) g with
  | Some (_, g') =>
      g' = g
      /\ existsb (fun h => header_word h (Str.lstrip_by Char.is_space s))
           section_headers = true
  | None =>
      existsb (fun h => header_word h (Str.lstrip_by Char.is_space s))
        section_headers = false
  end.
Proof.
  intros Hprev. cbn [run rest Nat.add].
  change (run fl Space) with (one Char.is_space).
  rewrite rep_greedy_star by lia.
  rewrite greedy_scan_gated.
  - change (fun (p : pos) (g0 : option string) => accept p g0) with accept.
    unfold headers_re. rewrite run_alt_headers by discriminate.
    change (char_test fl Space) with Char.is_space.
    set (p' := advance prev s (span Char.is_space s)).
    assert (Hsame : existsb (word_at p') section_headers
                    = existsb (fun h => header_word h
                                          (Str.lstrip_by Char.is_space s))
                        section_headers).
    { assert (Hrest : rest p' = Str.lstrip_by Char.is_space s)
        by (unfold p'; now rewrite rest_advance, drop_span_lstrip).
      assert (Hbefore : is_word_opt (before p') = false)
        by (unfold p'; now apply before_advance_span).
      pose proof headers_word_ended as Hhs.
      induction section_headers as [|h hs IH]; [reflexivity|].
      cbn [forallb] in Hhs. apply andb_prop in Hhs as [Hh Hhs].
      cbn [existsb].
      now rewrite (word_at_header_word p' h Hbefore Hh), Hrest, IH. }
    pose proof (first_word_at_spec p' g section_headers) as Hspec.
    destruct (first_word_at p' g section_headers) as [[q g']|].
    + rewrite <- Hsame. exact Hspec.
    + rewrite <- Hsame. exact Hspec.
  - intros prev' a s' Ha.
    change (fun (p : pos) (g0 : option string) => accept p g0) with accept.
    unfold headers_re. rewrite run_alt_headers by discriminate.
    now apply first_word_at_space; [apply headers_word_ended|].
Qed.

Lemma run_ahead_stop (k : cont) (p : pos) g :
  run fl (Ahead stop_re) k p g
  = if header_line (rest p) || text_end (rest p) then k p g else None.
Proof.
  destruct p as [prev s]. cbn [run rest]. unfold stop_re at 1.
  change (run fl (Alt ?a ?b) accept (Pos prev s) g)
    with (match run fl a accept (Pos prev s) g with
          | Some x => Some x
          | None => run fl b accept (Pos prev s) g
          end).
  assert (Hend : run fl (Cat Eos Eps) accept (Pos prev s) g
                 = if text_end s then Some (Pos prev s, g) else None)
    by reflexivity.
  rewrite Hend.
  change (run fl (Cat (Chr Char.newline) ?r) accept (Pos prev s) g)
    with (one (Char.eqb_ci Char.newline) (run fl r accept) (Pos prev s) g).
  unfold one. cbn [rest]. destruct s as [|a s]; [reflexivity|].
  cbn [header_line]. rewrite eqb_ci_newline.
  destruct (Ascii.eqb_spec a Char.newline) as [->|Hne].
  - pose proof (run_headers_after_space (Some Char.newline) s g eq_refl) as H.
    destruct (run fl (Cat (Rep true 0 None Space) (Cat headers_re Eps))
                accept (Pos (Some Char.newline) s) g) as [[q g']|].
    + destruct H as [-> H]. now rewrite H.
    + rewrite H. cbn [andb orb]. now destruct (text_end _).
  - cbn [andb orb]. now destruct (text_end _).
Qed.

(** *** The capture *)

Lemma lazy_scan_stop (f : ascii -> bool) (cap : pos -> option string) :
  (forall c, f c = true) ->
  forall s prev g,
    lazy_scan f (at_stop cap) prev s g
    = Some (advance prev s (String.length (up_to_header_line s)),
            cap (advance prev s (String.length (up_to_header_line s)))).
Proof.
  intros Hf. induction s as [|a s IH]; intros prev g.
  - reflexivity.
  - cbn [lazy_scan up_to_header_line]. unfold at_stop at 1. cbn [rest].
    destruct (header_line (String a s) || text_end (String a s));
      [reflexivity|].
    rewrite Hf. cbn [String.length advance]. apply IH.
Qed.

Lemma take_up_to_header_line (s : string) :
  Str.take (String.length (up_to_header_line s)) s = up_to_header_line s.
Proof.
  induction s as [|a s IH]; [reflexivity|]. cbn [up_to_header_line].
  destruct (header_line (String a s) || text_end (String a s));
    [reflexivity|].
  cbn [String.length Str.take]. now rewrite IH.
Qed.

Lemma length_up_to_header_line (s : string) :
  String.length (up_to_header_line s) <= String.length s.
Proof.
  induction s as [|a s IH]; [cbn; lia|]. cbn [up_to_header_line].
  destruct (header_line (String a s) || text_end (String a s)); cbn; lia.
Qed.

Lemma lstrip_first (f : ascii -> bool) (s : string) :
  match Str.lstrip_by f s with
  | String a _ => f a = false
  | EmptyString => True
  end.
Proof.
  induction s as [|a s IH]; [exact I|]. cbn.
  destruct (f a) eqn:Ha; [exact IH|exact Ha].
Qed.

(** The group and the lookahead, from a given position. *)
Lemma run_capture (p : pos) g :
  run fl (Cat (Grp (Cat (Rep false 0 None Dot) Eps))
            (Cat (Ahead stop_re) Eps)) accept p g
  = Some (advance (before p) (rest p)
            (String.length (up_to_header_line (rest p))),
          Some (up_to_header_line (rest p))).
Proof.
  destruct p as [prev s]. cbn [before rest].
  change (run fl (Cat (Grp (Cat (Rep false 0 None Dot) Eps))
                    (Cat (Ahead stop_re) Eps)) accept (Pos prev s) g)
    with (rep (one (char_test fl Dot)) false 0 None
            (S (String.length s))
            (fun p' (g' : option string) =>
               run fl (Ahead stop_re) (fun q g0 => accept q g0) p'
                 (Some (captured (Pos prev s) p')))
            (Pos prev s) g).
  rewrite rep_lazy_star by lia.
  rewrite (lazy_scan_ext _ _
             (at_stop (fun p' => Some (captured (Pos prev s) p'))))
    by (intros p' g'; now rewrite run_ahead_stop).
  rewrite lazy_scan_stop by reflexivity.
  unfold captured. rewrite rest_advance, length_drop. cbn [rest].
  pose proof (length_up_to_header_line s) as Hlen.
  replace (String.length s
           - (String.length s - String.length (up_to_header_line s)))
    with (String.length (up_to_header_line s)) by lia.
  now rewrite take_up_to_header_line.
Qed.

(** The part of the pattern after the header: it always matches, and
    group 1 is the text up to the next header line. *)
Lemma run_after_header (prev : option ascii) (s : string) g :
  exists p_end,
    run fl after_header_re accept (Pos prev s) g
    = Some (p_end, Some (up_to_header_line (skip_label_end s))).
Proof.
  assert (Hspace : forall prev' s',
             exists p_end,
               run fl
                 (Cat (Rep true 0 None Space)
                    (Cat (Rep true 0 (Some 1) (Chr Char.newline))
                       (Cat (Grp (Cat (Rep false 0 None Dot) Eps))
                          (Cat (Ahead stop_re) Eps)))) accept
                 (Pos prev' s') g
               = Some (p_end,
                       Some (up_to_header_line
                               (Str.lstrip_by Char.is_space s')))).
  { intros prev' s'.
    set (p2 := advance prev' s' (span Char.is_space s')).
    assert (Hrest : rest p2 = Str.lstrip_by Char.is_space s')
      by (unfold p2; now rewrite rest_advance, drop_span_lstrip).
    exists (advance (before p2) (rest p2)
              (String.length (up_to_header_line (rest p2)))).
    change (run fl (Cat (Rep true 0 None Space) ?r) accept (Pos prev' s') g)
      with (rep (one Char.is_space) true 0 None (S (String.length s'))
              (run fl r accept) (Pos prev' s') g).
    rewrite rep_greedy_star by lia.
    apply greedy_scan_longest. fold p2.
    change (run fl (Cat (Rep true 0 (Some 1) (Chr Char.newline)) ?r)
              accept p2 g)
      with (rep (one (Char.eqb_ci Char.newline)) true 0 (Some 1)
              (S (String.length (rest p2))) (run fl r accept) p2 g).
    rewrite rep_optional_at, <- Hrest.
    pose proof (lstrip_first Char.is_space s') as Hfirst.
    rewrite <- Hrest in Hfirst.
    destruct (rest p2) as [|a s3] eqn:Hs2.
    - rewrite run_capture, Hs2. reflexivity.
    - rewrite eqb_ci_newline.
      destruct (Ascii.eqb_spec a Char.newline) as [->|_];
        [discriminate Hfirst|].
      rewrite run_capture, Hs2. reflexivity. }
  change (run fl after_header_re accept (Pos prev s) g)
    with (rep (one (Char.eqb_ci ":")) true 0 (Some 1)
            (S (String.length s))
            (run fl
               (Cat (Rep true 0 None Space)
                  (Cat (Rep true 0 (Some 1) (Chr Char.newline))
                     (Cat (Grp (Cat (Rep false 0 None Dot) Eps))
                        (Cat (Ahead stop_re) Eps)))) accept)
            (Pos prev s) g).
  rewrite rep_optional. unfold skip_label_end, skip_colon.
  destruct s as [|a s]; [apply Hspace|].
  rewrite eqb_ci_colon. destruct (Ascii.eqb a ":").
  - destruct (Hspace (Some a) s) as [p_end ->]. now exists p_end.
  - apply Hspace.
Qed.

(** *** The search for a header *)

Lemma match_at_section (h : string) (prev : option ascii) (s : string) :
  word_ended h = true ->
  option_map snd (match_at fl (section_re h) prev s)
  = if negb (is_word_opt prev) && startswith_ci h s
    then Some (Some (up_to_header_line
                       (skip_label_end (Str.drop (String.length h) s))))
    else None.
Proof.
  intros Hh. apply andb_prop in Hh as [Hfirst _].
  unfold match_at, section_re.
  change (run fl (Cat Bnd ?r) accept (Pos prev s) None)
    with (if at_boundary (Pos prev s)
          then run fl r accept (Pos prev s) None else None).
  rewrite run_lit.
  destruct (startswith_ci h s) eqn:Hs.
  - unfold at_boundary. cbn [before]. rewrite next_is_first_char. cbn [rest].
    rewrite (startswith_ci_first h s Hs Hfirst).
    destruct (is_word_opt prev); [reflexivity|]. cbn [xorb negb andb].
    pose proof (rest_advance (String.length h) prev s) as Hrest.
    destruct (advance prev s (String.length h)) as [prev' s'].
    cbn [rest] in Hrest. subst s'.
    destruct (run_after_header prev' (Str.drop (String.length h) s) None)
      as [p_end ->].
    reflexivity.
  - rewrite andb_false_r. now destruct (at_boundary (Pos prev s)).
Qed.

Lemma search_go_section (h : string) (s : string) :
  word_ended h = true ->
  forall prev i,
    option_map m_group (search_go fl (section_re h) prev s i)
    = option_map (fun after =>
                    Some (up_to_header_line (skip_label_end after)))
        (find_header h prev s).
Proof.
  intros Hh. induction s as [|a s IH]; intros prev i.
  - cbn [search_go find_header].
    pose proof (match_at_section h prev "" Hh) as H.
    destruct (match_at fl (section_re h) prev "") as [[n g]|];
      destruct (negb (is_word_opt prev) && startswith_ci h "");
      cbn in H |- *; congruence.
  - cbn [search_go find_header].
    pose proof (match_at_section h prev (String a s) Hh) as H.
    destruct (match_at fl (section_re h) prev (String a s)) as [[n g]|];
      destruct (negb (is_word_opt prev) && startswith_ci h (String a s));
      cbn [option_map snd m_group] in H |- *;
      solve [congruence | apply IH].
Qed.

(** What the loop body of [extract_sections] stores for a header. *)
Lemma section_value (h text : string) :
  In h section_headers ->
  match search (section_pattern h) fl (Str.lower text) with
  | Some m =>
      if Str.nonempty (Str.strip (group1 m))
      then Some (Str.strip (group1 m)) else None
  | None => None
  end
  = section_of h (Str.lower text).
Proof.
  intros Hin. unfold search. rewrite (parse_section_pattern h Hin).
  assert (Hh : word_ended h = true).
  { pose proof headers_word_ended as Hall.
    rewrite forallb_forall in Hall. now apply Hall. }
  unfold search_re, section_of.
  pose proof (search_go_section h (Str.lower text) Hh None 0) as H.
  destruct (search_go fl (section_re h) None (Str.lower text) 0) as [m|];
    destruct (find_header h None (Str.lower text)) as [after|];
    cbn [option_map] in H; try discriminate H; [|reflexivity].
  unfold group1. injection H as ->. reflexivity.
Qed.

(** *** The dictionary built by the loop *)

Section Loop.

Variable value : string -> option string.

Let step (sections : gmap string string) (header : string)
  : gmap string string :=
  match value header with
  | Some content => <[header := content]> sections
  | None => sections
  end.

Lemma loop_other (hs : list string) : forall acc h,
  ~ In h hs -> foldl step acc hs !! h = acc !! h.
Proof.
  induction hs as [|x hs IH]; intros acc h Hnot; [reflexivity|].
  cbn [foldl]. rewrite IH by (intros ?; apply Hnot; now right).
  unfold step. destruct (value x); [|reflexivity].
  apply lookup_insert_ne. intros ->. apply Hnot. now left.
Qed.

Lemma loop_found (hs : list string) : forall acc h,
  List.NoDup hs -> In h hs ->
  foldl step acc hs !! h
  = match value h with Some c => Some c | None => acc !! h end.
Proof.
  induction hs as [|x hs IH]; intros acc h Hnd Hin; [contradiction|].
  apply List.NoDup_cons_iff in Hnd as [Hx Hnd]. cbn [foldl].
  destruct Hin as [->|Hin].
  - rewrite loop_other by exact Hx. unfold step.
    destruct (value h); [apply lookup_insert_eq|reflexivity].
  - rewrite IH by assumption. destruct (value h); [reflexivity|].
    unfold step. destruct (value x); [|reflexivity].
    apply lookup_insert_ne. intros ->. contradiction.
Qed.

End Loop.

Lemma section_headers_nodup : List.NoDup section_headers.
Proof.
  apply (proj1 (NoDup_ListNoDup _)).
  refine (bool_decide_unpack (NoDup section_headers) _).
  vm_compute. reflexivity.
Qed.

Lemma extract_sections_fold (text : string) :
  extract_sections text
  = foldl
      (fun sections header =>
         match
           match search (section_pattern header) fl (Str.lower text) with
           | Some m =>
               if Str.nonempty (Str.strip (group1 m))
               then Some (Str.strip (group1 m)) else None
           | None => None
           end
         with
         | Some content => <[header := content]> sections
         | None => sections
         end)
      ∅ section_headers.
Proof.
  unfold extract_sections. cbv zeta.
  generalize (∅ : gmap string string) as acc.
  induction section_headers as [|h hs IH]; intros acc; [reflexivity|].
  change (foldl ?f acc (h :: hs)) with (foldl f (f acc h) hs).
  rewrite IH. cbv beta. f_equal.
  destruct (search (section_pattern h) fl (Str.lower text)) as [m|];
    [|reflexivity].
  now destruct (Str.nonempty (Str.strip (group1 m))).
Qed.

End SectionFacts.

(** Only headers of the vocabulary are keys of the map. *)
Lemma extract_sections_only_headers (text header : string) :
  ~ In header section_headers -> extract_sections text !! header = None.
Proof.
  intros H. rewrite SectionFacts.extract_sections_fold.
  now rewrite (SectionFacts.loop_other _ section_headers ∅ header H).
Qed.

(** C5 (as amended).  For every text and every header of the vocabulary,
    [extract_sections] looks in the lower-cased text for the leftmost
    occurrence of the header that does not directly follow a word
    character, passes over an optional colon and the whitespace after it,
    and captures everything from there up to the next line break that is
    followed, whitespace apart, by a header of the vocabulary standing as a
    whole word, or up to the end of the text; the capture is stripped, and
    only non-empty captures are in the map. *)
Theorem extract_sections_characterised (text header : string) :
  In header section_headers ->
  extract_sections text !! header
  = SectionSpec.section_of header (Str.lower text).
Proof.
  intros H. rewrite SectionFacts.extract_sections_fold.
  rewrite (SectionFacts.loop_found _ section_headers ∅ header
             SectionFacts.section_headers_nodup H).
  rewrite (SectionFacts.section_value header text H).
  now destruct (SectionSpec.section_of header (Str.lower text)).
Qed.

Lemma extract_sections_characterised_witness :
  In "plan" section_headers
  /\ extract_sections ("Plan: rest" +:+ nl +:+ "Assessment: stable") !! "plan"
     = SectionSpec.section_of "plan"
         (Str.lower ("Plan: rest" +:+ nl +:+ "Assessment: stable")).
Proof.
  assert (Hin : In "plan" section_headers)
    by (do 10 right; left; reflexivity).
  split; [exact Hin|].
  exact (extract_sections_characterised _ "plan" Hin).
Defined.

(** The section of the witness ends at the header line that follows. *)
Example section_ends_at_header_line :
  extract_sections ("Plan: rest" +:+ nl +:+ "Assessment: stable") !! "plan"
  = Some "rest"
  /\ extract_sections ("Plan: rest" +:+ nl +:+ "Assessment: stable")
       !! "assessment" = Some "stable".
Proof. split; vm_compute; reflexivity. Qed.

(** C5 (as stated) fails: a header in the middle of a line does not end
    the section before it.  In the one-line text below the section of
    [plan] runs to the end of the text, across [assessment]. *)
Lemma extract_sections_not_up_to_any_header :
  ~ (forall text header : string,
        In header section_headers ->
        extract_sections text !! header
        = SectionSpec.section_as_stated header (Str.lower text)).
Proof.
  intros H.
  specialize (H "Plan: rest. Assessment: stable" "plan").
  assert (Hin : In "plan" section_headers)
    by (do 10 right; left; reflexivity).
  specialize (H Hin).
  assert (E1 : extract_sections "Plan: rest. Assessment: stable" !! "plan"
               = Some "rest. assessment: stable")
    by (vm_compute; reflexivity).
  assert (E2 : SectionSpec.section_as_stated "plan"
                 (Str.lower "Plan: rest. Assessment: stable")
               = Some "rest.")
    by (vm_compute; reflexivity).
  rewrite E1, E2 in H. discriminate H.
Qed.

(** ** Normalising a plain sentence *)

Module PlainFacts.

Import Re Scan ScanFacts RepFacts Plain.











(** *** The shape of a plain sentence *)





(** *** Stripping *)






(** *** Whitespace runs *)



(** *** The passes that find nothing *)




(** *** Tokens *)







(** *** Spacing after punctuation *)





(** *** Repeated punctuation *)




(** *** Sentences of [_clean_punctuation] *)





End PlainFacts.



(** * Further properties of the pipeline *)

(** ** Stripping *)

Module StripFacts.

Section Strip.

Variable f : ascii -> bool.

Lemma lstrip_all s : Str.all f s = true -> Str.lstrip_by f s = "".
Proof.
  induction s as [|a s IH]; [reflexivity|]. cbn. intros H.
  apply andb_prop in H as [Ha Hs]. rewrite Ha. now apply IH.
Qed.

Lemma lstrip_head a s : f a = false -> Str.lstrip_by f (String a s) = String a s.
Proof. intros H. cbn. now rewrite H. Qed.

Lemma lstrip_skip a s : f a = true -> Str.lstrip_by f (String a s) = Str.lstrip_by f s.
Proof. intros H. cbn. now rewrite H. Qed.

(** The result of [lstrip] does not begin with a stripped character. *)
Lemma lstrip_result s :
  match Str.lstrip_by f s with
  | String a _ => f a = false
  | EmptyString => True
  end.
Proof.
  induction s as [|a s IH]; [exact I|]. cbn.
  destruct (f a) eqn:Ha; [exact IH|exact Ha].
Qed.

(** [rstrip] keeps the first character of a text that does not begin with
    a stripped character. *)
Lemma rstrip_head a s :
  f a = false -> exists t, Str.rstrip_by f (String a s) = String a t.
Proof.
  intros Ha. cbn [Str.rstrip_by].
  destruct (Str.rstrip_by f s) as [|b t]; [|now exists (String b t)].
  rewrite Ha. now exists "".
Qed.

(** The result of [rstrip] does not end with a stripped character. *)
Lemma rstrip_last s c :
  Str.last (Str.rstrip_by f s) = Some c -> f c = false.
Proof.
  induction s as [|a s IH]; [discriminate|]. cbn [Str.rstrip_by].
  destruct (Str.rstrip_by f s) as [|b t] eqn:E.
  - destruct (f a) eqn:Ha; [discriminate|]. cbn. intros [= <-]. exact Ha.
  - intros H. apply IH. exact H.
Qed.

Lemma rstrip_fixed s :
  (forall c, Str.last s = Some c -> f c = false) -> Str.rstrip_by f s = s.
Proof.
  induction s as [|a s IH]; intros H; [reflexivity|]. cbn [Str.rstrip_by].
  destruct s as [|b s].
  - cbn. now rewrite (H a eq_refl).
  - rewrite IH by (intros c Hc; apply H; exact Hc). reflexivity.
Qed.

Lemma rstrip_idempotent s :
  Str.rstrip_by f (Str.rstrip_by f s) = Str.rstrip_by f s.
Proof. apply rstrip_fixed. apply rstrip_last. Qed.

(** [strip] is idempotent. *)
Lemma strip_idempotent s :
  Str.strip_by f (Str.strip_by f s) = Str.strip_by f s.
Proof.
  unfold Str.strip_by. pose proof (lstrip_result s) as Hhead.
  destruct (Str.lstrip_by f s) as [|a t] eqn:E; [reflexivity|].
  destruct (rstrip_head a t Hhead) as [u Hu]. rewrite Hu.
  rewrite (lstrip_head a u Hhead), <- Hu. apply rstrip_idempotent.
Qed.

Lemma strip_all s : Str.all f s = true -> Str.strip_by f s = "".
Proof. intros H. unfold Str.strip_by. now rewrite lstrip_all. Qed.

Lemma strip_skip a s : f a = true -> Str.strip_by f (String a s) = Str.strip_by f s.
Proof. intros H. unfold Str.strip_by. now rewrite lstrip_skip. Qed.

Lemma strip_last s c :
  Str.last (Str.strip_by f s) = Some c -> f c = false.
Proof. apply rstrip_last. Qed.

End Strip.

End StripFacts.

(** ** [clean_text] and its passes at the edges *)

(** X2.  Redaction leaves a text without digits as it is. *)
Theorem remove_phi_needs_digits (text : string) :
  Str.all Plain.not_digit text = true -> _remove_phi_patterns text = text.
Proof.
  intros Hd. unfold _remove_phi_patterns. cbv zeta.
  rewrite (ScanFacts.sub_id Re.no_flags Plain.not_digit
             "\b\d{3}-\d{2}-\d{4}\b") by (reflexivity || exact Hd).
  rewrite (ScanFacts.sub_id Re.no_flags Plain.not_digit
             "\b\d{3}[-.]?\d{3}[-.]?\d{4}\b") by (reflexivity || exact Hd).
  rewrite (ScanFacts.sub_id Re.no_flags Plain.not_digit
             "\b\d{1,2}/\d{1,2}/\d{4}\b") by (reflexivity || exact Hd).
  now rewrite (ScanFacts.sub_id Re.IGNORECASE Plain.not_digit
                 "\bMRN:?\s*\d+\b") by (reflexivity || exact Hd).
Qed.

Lemma remove_phi_needs_digits_witness :
  Str.all Plain.not_digit "Call MRN desk at ext. (none) - SSN unknown" = true
  /\ _remove_phi_patterns "Call MRN desk at ext. (none) - SSN unknown"
     = "Call MRN desk at ext. (none) - SSN unknown".
Proof.
  split; [reflexivity|].
  exact (remove_phi_needs_digits
           "Call MRN desk at ext. (none) - SSN unknown" eq_refl).
Defined.

(** X3.  The table entry for [w/] is never used: the stem of a token is
    stripped of punctuation at both ends, so it never ends with a slash,
    and no token is ever expanded to [with]. *)
Theorem abbreviation_with_unreachable (word : string) :
  medical_abbreviations !! Str.strip_by Char.is_punct (Str.lower word)
  <> Some "with".
Proof.
  intros H. unfold medical_abbreviations in H.
  apply elem_of_list_to_map_2 in H.
  assert (Hkey : Str.strip_by Char.is_punct (Str.lower word) = "w/").
  { repeat (apply elem_of_cons in H as [H|H];
            [injection H; intros; congruence|]).
    now apply elem_of_nil in H. }
  assert (Hlast : Str.last (Str.strip_by Char.is_punct (Str.lower word))
                  = Some "/"%char) by now rewrite Hkey.
  apply StripFacts.strip_last in Hlast. discriminate Hlast.
Qed.

(** ** Extracted entities *)

Module EntityFacts.



Lemma lower_lower (c : ascii) : Char.lower (Char.lower c) = Char.lower c.
Proof. destruct c as [[] [] [] [] [] [] [] []]; reflexivity. Qed.




Lemma in_list_of_set (x : string) (l : list string) :
  In x (list_of_set l) <-> In x l.
Proof.
  unfold list_of_set.
  now rewrite <- !list_elem_of_In, elem_of_elements, elem_of_list_to_set.
Qed.

End EntityFacts.




(** X6.  The vital signs are stored at most once each and in the order
    blood pressure, heart rate, temperature, respiratory rate. *)
Theorem vital_signs_in_fixed_order (text : string) :
  sublist (List.map fst (vital_signs (extract_key_information text)))
    ["blood_pressure"; "heart_rate"; "temperature"; "respiratory_rate"].
Proof.
  cbn [vital_signs extract_key_information]. unfold vital_patterns.
  cbn [List.flat_map].
  repeat match goal with
    | |- context [Re.search ?p ?fl ?s] => destruct (Re.search p fl s)
    end;
    cbn [app List.map fst]; repeat constructor.
Qed.

(** ** Truncation to the sentence cap *)

Module Truncation.

Import Scan Sentences.

Lemma append_assoc (a b c : string) : (a +:+ b) +:+ c = a +:+ (b +:+ c).
Proof.
  induction a as [|x a IH]; [reflexivity|].
  change (String x a +:+ b) with (String x (a +:+ b)).
  change (String x (a +:+ b) +:+ c) with (String x ((a +:+ b) +:+ c)).
  now rewrite IH.
Qed.

Section SplitBy.

Variable f : ascii -> bool.

Lemma split_by_none p : count f p = 0 -> Str.split_by f p = [p].
Proof.
  induction p as [|a p IH]; [reflexivity|]. cbn [count Str.split_by].
  destruct (f a); [discriminate|]. intros H. now rewrite (IH H).
Qed.

Lemma split_by_app p c r :
  count f p = 0 -> f c = true ->
  Str.split_by f (p +:+ String c r) = p :: Str.split_by f r.
Proof.
  intros Hp Hc. induction p as [|a p IH].
  - change ("" +:+ String c r) with (String c r). cbn. now rewrite Hc.
  - change (String a p +:+ String c r) with (String a (p +:+ String c r)).
    cbn [count] in Hp. cbn [Str.split_by].
    destruct (f a); [discriminate|]. now rewrite (IH Hp).
Qed.

Lemma kept_split_space c s :
  f c = false -> Char.is_space c = true ->
  kept (Str.split_by f (String c s)) = kept (Str.split_by f s).
Proof.
  intros Hc Hs. cbn [Str.split_by]. rewrite Hc.
  pose proof (split_by_not_nil f s) as Hne.
  destruct (Str.split_by f s) as [|h t]; [contradiction|].
  rewrite !kept_cons. unfold Str.strip.
  now rewrite (StripFacts.strip_skip Char.is_space c h Hs).
Qed.

End SplitBy.

(** A sentence is stripped, not empty and free of terminators. *)
Lemma sentence_shape s p :
  In p (sentences_of s) ->
  Str.strip p = p /\ Str.nonempty p = true /\ count is_terminal p = 0.
Proof.
  intros H. split; [|split].
  - rewrite sentences_of_split_by in H. unfold kept in H.
    apply List.filter_In in H as [H _].
    apply List.in_map_iff in H as (q & <- & _).
    apply StripFacts.strip_idempotent.
  - rewrite sentences_of_split_by in H. unfold kept in H.
    now apply List.filter_In in H as [_ H].
  - now apply (sentences_no_terminator s).
Qed.

(** Joining sentences with a period and a space, and closing with a
    period, gives a text whose sentences are the ones joined. *)
Lemma sentences_of_join (ps : list string) :
  (forall p, In p ps ->
     Str.strip p = p /\ Str.nonempty p = true /\ count is_terminal p = 0) ->
  sentences_of (Str.join ". " ps +:+ ".") = ps.
Proof.
  induction ps as [|p ps IH]; intros H; [reflexivity|].
  destruct (H p (or_introl eq_refl)) as (Hstrip & Hne & Hcount).
  destruct ps as [|q ps].
  - cbn [Str.join]. rewrite sentences_final_period, sentences_of_split_by.
    rewrite (split_by_none _ p Hcount), kept_cons, Hstrip, Hne. reflexivity.
  - change (Str.join ". " (p :: q :: ps))
      with (p +:+ ". " +:+ Str.join ". " (q :: ps)).
    rewrite !append_assoc.
    change (". " +:+ Str.join ". " (q :: ps) +:+ ".")
      with (String "." (String " " (Str.join ". " (q :: ps) +:+ "."))).
    rewrite sentences_of_split_by.
    rewrite (split_by_app _ p "." _ Hcount eq_refl), kept_cons, Hstrip, Hne.
    rewrite kept_split_space by reflexivity.
    rewrite <- sentences_of_split_by, IH; [reflexivity|].
    intros r Hr. apply H. now right.
Qed.

Lemma truncated_sentences (summary : string) (cap : nat) :
  sentences_of
    (if cap <? List.length (sentences_of summary)
     then Str.join ". " (firstn cap (sentences_of summary)) +:+ "."
     else summary)
  = firstn cap (sentences_of summary).
Proof.
  destruct (Nat.ltb_spec cap (List.length (sentences_of summary)))
    as [Hlt|Hge].
  - apply sentences_of_join. intros p Hp.
    apply (sentence_shape summary). now apply (in_firstn p cap).
  - symmetry. now apply List.firstn_all2.
Qed.

Lemma endswith_snoc s : Str.endswith "." (s +:+ ".") = true.
Proof.
  induction s as [|a s IH]; [reflexivity|].
  change (String a s +:+ ".") with (String a (s +:+ ".")).
  cbn [Str.endswith]. rewrite IH. apply orb_true_r.
Qed.

Lemma adjust_patient_ends summary length :
  Str.endswith "." (_adjust_patient_summary summary length) = true.
Proof.
  unfold _adjust_patient_summary. cbv zeta.
  match goal with
  | |- context [if Str.endswith "." ?s then _ else _] =>
      generalize s; intros t
  end.
  destruct (Str.endswith "." t) eqn:E; [exact E|apply endswith_snoc].
Qed.

Lemma endswith_nonempty p s :
  Str.nonempty p = true -> Str.endswith p s = true -> Str.nonempty s = true.
Proof. intros Hp H. destruct s; [|reflexivity]. now destruct p. Qed.

Lemma adjust_summary_sentences (summary length : string) :
  sentences_of (_adjust_summary_length summary length)
  = firstn (dict_get [("short", 3); ("medium", 5); ("long", 8)] length 5)
      (sentences_of summary).
Proof.
  unfold _adjust_summary_length. cbv zeta. apply truncated_sentences.
Qed.

Lemma adjust_patient_sentences (summary length : string) :
  sentences_of (_adjust_patient_summary summary length)
  = firstn (dict_get [("short", 2); ("medium", 4); ("long", 6)] length 4)
      (sentences_of summary).
Proof.
  unfold _adjust_patient_summary. cbv zeta.
  match goal with
  | |- context [if Str.endswith "." ?s then _ else _] =>
      destruct (Str.endswith "." s)
  end; [|rewrite sentences_final_period]; apply truncated_sentences.
Qed.

End Truncation.

(** X7.  Both length adjustments keep exactly the leading sentences: the
    sentences of the adjusted summary are the first [cap] sentences of the
    summary, [cap] being the cap of the tier (the medium one for an unknown
    tier). *)
Theorem adjusted_sentences_are_a_prefix (summary length : string) :
  sentences_of (_adjust_summary_length summary length)
  = firstn (dict_get [("short", 3); ("medium", 5); ("long", 8)] length 5)
      (sentences_of summary)
  /\ sentences_of (_adjust_patient_summary summary length)
     = firstn (dict_get [("short", 2); ("medium", 4); ("long", 6)] length 4)
         (sentences_of summary).
Proof.
  split; [apply Truncation.adjust_summary_sentences
         |apply Truncation.adjust_patient_sentences].
Qed.

(** X8.  Both length adjustments are idempotent: adjusting an adjusted
    summary again, for the same tier, changes nothing. *)
Theorem adjustments_idempotent (summary length : string) :
  _adjust_summary_length (_adjust_summary_length summary length) length
  = _adjust_summary_length summary length
  /\ _adjust_patient_summary (_adjust_patient_summary summary length) length
     = _adjust_patient_summary summary length.
Proof.
  split.
  - set (adjusted := _adjust_summary_length summary length).
    unfold _adjust_summary_length at 1. cbv zeta.
    pose proof (Sentences.truncation_bound summary
                  (dict_get [("short", 3); ("medium", 5); ("long", 8)]
                     length 5)) as Hb.
    fold (sentences_of summary) in Hb.
    change (List.length (sentences_of adjusted)
            <= dict_get [("short", 3); ("medium", 5); ("long", 8)] length 5)
      in Hb.
    now rewrite (proj2 (Nat.ltb_ge _ _) Hb).
  - set (adjusted := _adjust_patient_summary summary length).
    pose proof (Truncation.adjust_patient_sentences summary length) as Hs.
    fold adjusted in Hs.
    pose proof (Truncation.adjust_patient_ends summary length) as He.
    fold adjusted in He.
    unfold _adjust_patient_summary at 1. cbv zeta.
    assert (Hb : List.length (sentences_of adjusted)
                 <= dict_get [("short", 2); ("medium", 4); ("long", 6)]
                      length 4).
    { rewrite Hs, List.length_firstn. lia. }
    now rewrite (proj2 (Nat.ltb_ge _ _) Hb), He.
Qed.

(** ** What a group captures *)

Module CharsetFacts.

Import Re Charset.

Lemma all_app P a b : Str.all P (a +:+ b) = Str.all P a && Str.all P b.
Proof.
  induction a as [|x a IH]; [reflexivity|].
  change (String x a +:+ b) with (String x (a +:+ b)).
  cbn [Str.all]. now rewrite IH, andb_assoc.
Qed.

Lemma length_app a b :
  String.length (a +:+ b) = String.length a + String.length b.
Proof.
  induction a as [|x a IH]; [reflexivity|].
  change (String x a +:+ b) with (String x (a +:+ b)).
  cbn [String.length]. now rewrite IH.
Qed.

Lemma take_app w r : Str.take (String.length w) (w +:+ r) = w.
Proof.
  induction w as [|x w IH]; [now destruct r|].
  change (String x w +:+ r) with (String x (w +:+ r)).
  cbn [String.length Str.take]. now rewrite IH.
Qed.

Lemma all_weaken (P R : ascii -> bool) s :
  (forall c, P c = true -> R c = true) ->
  Str.all P s = true -> Str.all R s = true.
Proof.
  intros H. induction s as [|a s IH]; [reflexivity|]. cbn [Str.all].
  intros [Ha Hs]%andb_true_iff. now rewrite (H a Ha), (IH Hs).
Qed.

Section Class.

Variable fl : flags.
Variable Q : ascii -> bool.

Lemma reached_refl p : reached Q p p.
Proof. now exists "". Qed.

Lemma reached_trans p1 p2 p3 :
  reached Q p1 p2 -> reached Q p2 p3 -> reached Q p1 p3.
Proof.
  intros (w1 & H1 & Q1) (w2 & H2 & Q2). exists (w1 +:+ w2). split.
  - now rewrite H1, H2, Truncation.append_assoc.
  - now rewrite all_app, Q1, Q2.
Qed.

Lemma captured_reached p p' :
  reached Q p p' -> Str.all Q (captured p p') = true.
Proof.
  intros (w & H & Hw). unfold captured. rewrite H, length_app.
  replace (String.length w + String.length (rest p')
           - String.length (rest p')) with (String.length w) by lia.
  now rewrite take_app.
Qed.

Lemma char_reads r c :
  forallb (fun c => implb (char_test fl r c) (Q c)) Scan.all_ascii = true ->
  char_test fl r c = true -> Q c = true.
Proof.
  intros H Hc. rewrite forallb_forall in H.
  specialize (H c (ScanFacts.all_ascii_complete c)).
  now rewrite Hc in H.
Qed.

Lemma one_reads f k p g o :
  (forall c, f c = true -> Q c = true) ->
  one f k p g = Some o ->
  exists p', reached Q p p' /\ k p' g = Some o.
Proof.
  intros Hf H. unfold one in H. destruct (rest p) as [|a s] eqn:E;
    [discriminate|].
  destruct (f a) eqn:Ha; [|discriminate].
  exists (Pos (Some a) s). split; [|exact H].
  exists (String a ""). split; [now rewrite E|].
  cbn. now rewrite (Hf a Ha).
Qed.

Lemma rep_reads (body : cont -> cont) :
  (forall k p g o, body k p g = Some o ->
     exists p', reached Q p p' /\ k p' g = Some o) ->
  forall fuel greedy lo hi k p g o,
    rep body greedy lo hi fuel k p g = Some o ->
    exists p', reached Q p p' /\ k p' g = Some o.
Proof.
  intros Hbody. induction fuel as [|fuel IH];
    intros greedy lo hi k p g o H; [discriminate|].
  cbn [rep] in H. destruct lo as [|lo].
  - destruct (hi_reached hi).
    { exists p. split; [apply reached_refl|exact H]. }
    cbv zeta in H.
    assert (Hmore : forall o',
               body (fun p' g' =>
                       if shorter p' p
                       then rep body greedy 0 (pred_hi hi) fuel k p' g'
                       else None) p g = Some o' ->
               exists p', reached Q p p' /\ k p' g = Some o').
    { intros o' Ho'. apply Hbody in Ho' as (p1 & Hr1 & Hk1).
      cbv beta in Hk1. destruct (shorter p1 p); [|discriminate].
      apply IH in Hk1 as (p2 & Hr2 & Hk2).
      exists p2. split; [exact (reached_trans _ _ _ Hr1 Hr2)|exact Hk2]. }
    destruct greedy.
    + destruct (body _ p g) as [x|] eqn:E.
      * apply Hmore. exact H.
      * exists p. split; [apply reached_refl|exact H].
    + destruct (k p g) as [x|] eqn:E.
      * exists p. split; [apply reached_refl|now rewrite E].
      * apply Hmore. exact H.
  - apply Hbody in H as (p1 & Hr1 & Hk1).
    apply IH in Hk1 as (p2 & Hr2 & Hk2).
    exists p2. split; [exact (reached_trans _ _ _ Hr1 Hr2)|exact Hk2].
Qed.

Lemma run_reads r :
  reads_only fl Q r = true ->
  forall k p g o, run fl r k p g = Some o ->
    exists p', reached Q p p' /\ k p' g = Some o.
Proof.
  induction r as [| a | | | | | neg its | | | r1 IH1 r2 IH2 | r1 IH1 r2 IH2
                 | greedy lo hi r1 IH1 | r1 IH1 | r1 IH1];
    intros Hr k p g o H; cbn [reads_only] in Hr; cbn [run] in H;
    try discriminate Hr;
    try (eapply one_reads; [|exact H]; intros c Hc;
         now apply (char_reads _ c Hr)).
  - exists p. split; [apply reached_refl|exact H].
  - destruct (at_boundary p); [|discriminate].
    exists p. split; [apply reached_refl|exact H].
  - destruct (at_end p); [|discriminate].
    exists p. split; [apply reached_refl|exact H].
  - apply andb_true_iff in Hr as [Hr1 Hr2].
    apply (IH1 Hr1) in H as (p1 & Hp1 & Hk1).
    apply (IH2 Hr2) in Hk1 as (p2 & Hp2 & Hk2).
    exists p2. split; [exact (reached_trans _ _ _ Hp1 Hp2)|exact Hk2].
  - apply andb_true_iff in Hr as [Hr1 Hr2].
    destruct (run fl r1 k p g) as [x|] eqn:E.
    + apply (IH1 Hr1 k p g o). now rewrite E.
    + now apply (IH2 Hr2).
  - eapply rep_reads; [|exact H]. intros k' p' g' o'. now apply IH1.
Qed.

Lemma accept_keeps : keeps_group Q accept.
Proof. intros p g p' g' Hg H. unfold accept in H. congruence. Qed.

Lemma rep_keeps (body : cont -> cont) :
  (forall k, keeps_group Q k -> keeps_group Q (body k)) ->
  forall fuel greedy lo hi k,
    keeps_group Q k -> keeps_group Q (rep body greedy lo hi fuel k).
Proof.
  intros Hbody. induction fuel as [|fuel IH];
    intros greedy lo hi k Hk p g p' g' Hg H; [discriminate|].
  cbn [rep] in H. destruct lo as [|lo].
  - destruct (hi_reached hi); [exact (Hk _ _ _ _ Hg H)|].
    cbv zeta in H.
    assert (Hmore : keeps_group Q
              (fun p1 g1 =>
                 if shorter p1 p
                 then rep body greedy 0 (pred_hi hi) fuel k p1 g1
                 else None)).
    { intros q gq q' gq' Hgq Hq. cbv beta in Hq.
      destruct (shorter q p); [|discriminate].
      exact (IH _ _ _ _ Hk _ _ _ _ Hgq Hq). }
    apply Hbody in Hmore.
    destruct greedy.
    + destruct (body _ p g) as [x|] eqn:E.
      * rewrite H in E. exact (Hmore _ _ _ _ Hg E).
      * exact (Hk _ _ _ _ Hg H).
    + destruct (k p g) as [x|] eqn:E.
      * rewrite H in E. exact (Hk _ _ _ _ Hg E).
      * exact (Hmore _ _ _ _ Hg H).
  - exact (Hbody _ (IH greedy lo (pred_hi hi) k Hk) _ _ _ _ Hg H).
Qed.

Lemma run_keeps r :
  group_reads fl Q r = true ->
  forall k, keeps_group Q k -> keeps_group Q (run fl r k).
Proof.
  induction r as [| a | | | | | neg its | | | r1 IH1 r2 IH2 | r1 IH1 r2 IH2
                 | greedy lo hi r1 IH1 | r1 IH1 | r1 IH1];
    intros Hr k Hk p g p' g' Hg H; cbn [group_reads] in Hr;
    cbn [run] in H;
    try (unfold one in H; destruct (rest p) as [|c s]; [discriminate|];
         destruct (char_test fl _ c); [|discriminate];
         exact (Hk _ _ _ _ Hg H)).
  - exact (Hk _ _ _ _ Hg H).
  - destruct (at_boundary p); [|discriminate]. exact (Hk _ _ _ _ Hg H).
  - destruct (at_end p); [|discriminate]. exact (Hk _ _ _ _ Hg H).
  - apply andb_true_iff in Hr as [Hr1 Hr2].
    exact (IH1 Hr1 _ (IH2 Hr2 _ Hk) _ _ _ _ Hg H).
  - apply andb_true_iff in Hr as [Hr1 Hr2].
    destruct (run fl r1 k p g) as [x|] eqn:E.
    + rewrite H in E. exact (IH1 Hr1 _ Hk _ _ _ _ Hg E).
    + exact (IH2 Hr2 _ Hk _ _ _ _ Hg H).
  - refine (rep_keeps _ _ _ _ _ _ _ Hk _ _ _ _ Hg H).
    intros k' Hk'. now apply IH1.
  - apply (run_reads r1 Hr) in H as (p1 & Hp1 & Hk1).
    refine (Hk _ _ _ _ _ Hk1). cbn [group_in].
    now apply captured_reached.
  - destruct (run fl r1 accept p g) as [[q g1]|] eqn:E; [|discriminate].
    pose proof (IH1 Hr _ accept_keeps _ _ _ _ Hg E) as Hg1.
    exact (Hk _ _ _ _ Hg1 H).
Qed.

Lemma match_at_group r prev s n g :
  group_reads fl Q r = true ->
  match_at fl r prev s = Some (n, g) -> group_in Q g = true.
Proof.
  intros Hr H. unfold match_at in H.
  destruct (run fl r accept (Pos prev s) None) as [[p' g']|] eqn:E;
    [|discriminate].
  injection H as _ <-.
  exact (run_keeps r Hr _ accept_keeps _ None _ _ eq_refl E).
Qed.

Lemma search_go_group r s : forall prev i m,
  group_reads fl Q r = true ->
  search_go fl r prev s i = Some m -> Str.all Q (group1 m) = true.
Proof.
  induction s as [|a s IH]; intros prev i m Hr H; cbn [search_go] in H.
  - destruct (match_at fl r prev "") as [[n g]|] eqn:E; [|discriminate].
    injection H as <-. apply (match_at_group _ _ _ _ _ Hr) in E.
    unfold group1. cbn [m_group]. now destruct g.
  - destruct (match_at fl r prev (String a s)) as [[n g]|] eqn:E.
    + injection H as <-. apply (match_at_group _ _ _ _ _ Hr) in E.
      unfold group1. cbn [m_group]. now destruct g.
    + exact (IH _ _ _ Hr H).
Qed.

Lemma findall_go_group r s : forall prev skip x,
  group_reads fl Q r = true ->
  In x (findall_go fl r prev s skip) -> Str.all Q x = true.
Proof.
  induction s as [|a s IH]; intros prev skip x Hr H; cbn [findall_go] in H;
    [contradiction|].
  destruct skip as [|skip]; [|exact (IH _ _ _ Hr H)].
  destruct (match_at fl r prev (String a s)) as [[[|n] g]|] eqn:E;
    try exact (IH _ _ _ Hr H).
  destruct H as [<-|H]; [|exact (IH _ _ _ Hr H)].
  apply (match_at_group _ _ _ _ _ Hr) in E. now destruct g.
Qed.

Lemma expand_other a t g :
  a <> "\"%char -> expand (String a t) g = String a (expand t g).
Proof.
  intros H. destruct a as [[] [] [] [] [] [] [] []];
    try reflexivity. now contradiction H.
Qed.

Lemma literals_other a t :
  a <> "\"%char -> literals (String a t) = String a (literals t).
Proof.
  intros H. destruct a as [[] [] [] [] [] [] [] []];
    try reflexivity. now contradiction H.
Qed.

Lemma expand_escape b t g :
  b <> "1"%char ->
  expand (String "\" (String b t)) g = String "\" (expand (String b t) g).
Proof.
  intros H. destruct b as [[] [] [] [] [] [] [] []];
    try reflexivity. now contradiction H.
Qed.

Lemma literals_escape b t :
  b <> "1"%char ->
  literals (String "\" (String b t)) = String "\" (literals (String b t)).
Proof.
  intros H. destruct b as [[] [] [] [] [] [] [] []];
    try reflexivity. now contradiction H.
Qed.

Lemma expand_in_both g t :
  group_in Q g = true ->
  (Str.all Q (literals t) = true -> Str.all Q (expand t g) = true)
  /\ (forall a, Str.all Q (literals (String a t)) = true ->
                Str.all Q (expand (String a t) g) = true).
Proof.
  intros Hg. induction t as [|b t [IHt IHb]].
  - split; [reflexivity|]. intros a.
    destruct (ascii_dec a "\") as [->|Ha]; [now intros H|].
    now rewrite (expand_other a "" g Ha), (literals_other a "" Ha).
  - split; [apply IHb|]. intros a.
    destruct (ascii_dec a "\") as [->|Ha].
    + destruct (ascii_dec b "1") as [->|Hb].
      * change (literals (String "\" (String "1" t))) with (literals t).
        change (expand (String "\" (String "1" t)) g)
          with (default "" g +:+ expand t g).
        intros H. rewrite all_app, (IHt H), andb_true_r.
        now destruct g.
      * rewrite (expand_escape b t g Hb), (literals_escape b t Hb).
        cbn [Str.all]. intros [H1 H2]%andb_true_iff.
        now rewrite H1, (IHb b H2).
    + rewrite (expand_other a _ g Ha), (literals_other a _ Ha).
      cbn [Str.all]. intros [H1 H2]%andb_true_iff.
      now rewrite H1, (IHb b H2).
Qed.

Lemma expand_in template g :
  Str.all Q (literals template) = true -> group_in Q g = true ->
  Str.all Q (expand template g) = true.
Proof. intros Ht Hg. now apply (expand_in_both g template Hg). Qed.

Lemma sub_go_in r template s : forall prev skip,
  group_reads fl Q r = true ->
  Str.all Q (literals template) = true ->
  Str.all Q s = true ->
  Str.all Q (sub_go fl r template prev s skip) = true.
Proof.
  induction s as [|a s IH]; intros prev skip Hr Ht Hs; [reflexivity|].
  cbn [Str.all] in Hs. apply andb_true_iff in Hs as [Ha Hs].
  cbn [sub_go]. destruct skip as [|skip]; [|now apply IH].
  destruct (match_at fl r prev (String a s)) as [[[|n] g]|] eqn:E;
    try (cbn [Str.all]; rewrite Ha; now apply IH).
  rewrite all_app, (IH _ _ Hr Ht Hs), andb_true_r.
  apply (expand_in _ _ Ht). exact (match_at_group _ _ _ _ _ Hr E).
Qed.

End Class.

(** The same for the functions that take the pattern as a string. *)
Lemma search_reads fl Q pattern s m :
  pattern_group_reads fl Q pattern = true ->
  Re.search pattern fl s = Some m -> Str.all Q (group1 m) = true.
Proof.
  unfold pattern_group_reads, Re.search.
  destruct (parse pattern) as [r|]; [|discriminate].
  intros Hr H. exact (search_go_group fl Q r s _ _ _ Hr H).
Qed.

Lemma findall_reads fl Q pattern s x :
  pattern_group_reads fl Q pattern = true ->
  In x (Re.findall pattern fl s) -> Str.all Q x = true.
Proof.
  unfold pattern_group_reads, Re.findall.
  destruct (parse pattern) as [r|]; [|contradiction].
  intros Hr H. exact (findall_go_group fl Q r s _ _ _ Hr H).
Qed.

Lemma sub_keeps fl Q pattern template s :
  pattern_group_reads fl Q pattern = true ->
  Str.all Q (literals template) = true ->
  Str.all Q s = true ->
  Str.all Q (Re.sub pattern template fl s) = true.
Proof.
  unfold pattern_group_reads, Re.sub.
  destruct (parse pattern) as [r|]; [|now intros].
  intros Hr Ht Hs. now apply sub_go_in.
Qed.

End CharsetFacts.

(** X9.  The patient summary is always the adjusted narrative and ends with
    a period: the narrative is closed with a period when it does not end
    with one, so it is never empty and the closing apology of
    [generate_patient_summary] is never returned. *)
Theorem patient_summary_is_adjusted_narrative (text : string)
    (options : Options) :
  generate_patient_summary text options
  = _adjust_patient_summary
      (_translate_for_patients
         (Str.join " "
            (List.filter Str.nonempty
               [ _extract_patient_reason text;
                 _extract_patient_diagnosis text;
                 _extract_patient_treatment text
                   (extract_key_information text);
                 (if include_medications options
                  then _explain_medications_to_patient
                         (medications (extract_key_information text))
                  else "");
                 (if include_recommendations options
                  then _extract_patient_next_steps text else "") ])))
      (length options)
  /\ Str.endswith "." (generate_patient_summary text options) = true.
Proof.
  unfold generate_patient_summary. cbv zeta.
  match goal with
  | |- context [_adjust_patient_summary ?s ?l] =>
      pose proof (Truncation.adjust_patient_ends s l) as He;
      set (adjusted := _adjust_patient_summary s l) in *
  end.
  assert (Hne : Str.nonempty adjusted = true)
    by exact (Truncation.endswith_nonempty "." adjusted eq_refl He).
  rewrite Hne. split; [reflexivity|exact He].
Qed.

(** ** The characters of a cleaned text *)

Module CleanFacts.

Import Re Charset CharsetFacts.

Lemma all_filter (P f : ascii -> bool) s :
  (forall c, f c = true -> P c = true) -> Str.all P (Str.filter f s) = true.
Proof.
  intros H. induction s as [|a s IH]; [reflexivity|]. cbn [Str.filter].
  destruct (f a) eqn:Ha; [|exact IH]. cbn [Str.all].
  now rewrite (H a Ha), IH.
Qed.

Lemma all_filter_keep (P f : ascii -> bool) s :
  Str.all P s = true -> Str.all P (Str.filter f s) = true.
Proof.
  induction s as [|a s IH]; [reflexivity|]. cbn [Str.all Str.filter].
  intros [Ha Hs]%andb_true_iff.
  destruct (f a); [cbn [Str.all]; now rewrite Ha, IH|now apply IH].
Qed.

Lemma all_lstrip (P f : ascii -> bool) s :
  Str.all P s = true -> Str.all P (Str.lstrip_by f s) = true.
Proof.
  induction s as [|a s IH]; [reflexivity|]. intros H. cbn [Str.lstrip_by].
  destruct (f a); [|exact H]. cbn [Str.all] in H.
  apply andb_true_iff in H as [_ H]. now apply IH.
Qed.

Lemma all_rstrip (P f : ascii -> bool) s :
  Str.all P s = true -> Str.all P (Str.rstrip_by f s) = true.
Proof.
  induction s as [|a s IH]; [reflexivity|]. cbn [Str.all Str.rstrip_by].
  intros [Ha Hs]%andb_true_iff. specialize (IH Hs).
  destruct (Str.rstrip_by f s) as [|b t].
  - destruct (f a); [reflexivity|]. cbn. now rewrite Ha.
  - cbn [Str.all] in *. now rewrite Ha, IH.
Qed.

Lemma all_strip_by (P f : ascii -> bool) s :
  Str.all P s = true -> Str.all P (Str.strip_by f s) = true.
Proof. intros H. now apply all_rstrip, all_lstrip. Qed.

Lemma all_split_by (P f : ascii -> bool) s p :
  Str.all P s = true -> In p (Str.split_by f s) -> Str.all P p = true.
Proof.
  revert p. induction s as [|a s IH]; intros p Hs Hp; cbn in Hp.
  - now destruct Hp as [<-|[]].
  - cbn [Str.all] in Hs. apply andb_true_iff in Hs as [Ha Hs].
    destruct (f a).
    + destruct Hp as [<-|Hp]; [reflexivity|now apply IH].
    + pose proof (Sentences.split_by_not_nil f s).
      destruct (Str.split_by f s) as [|h t]; [contradiction|].
      destruct Hp as [<-|Hp].
      * cbn [Str.all]. rewrite Ha. apply IH; [exact Hs|now left].
      * apply IH; [exact Hs|now right].
Qed.

Lemma all_join (P : ascii -> bool) sep l :
  Str.all P sep = true ->
  (forall x, In x l -> Str.all P x = true) ->
  Str.all P (Str.join sep l) = true.
Proof.
  intros Hsep. induction l as [|x l IH]; intros H; [reflexivity|].
  destruct l as [|y l]; [apply H; now left|].
  change (Str.join sep (x :: y :: l))
    with (x +:+ sep +:+ Str.join sep (y :: l)).
  rewrite !all_app, (H x (or_introl eq_refl)), Hsep. cbn [andb].
  apply IH. intros z Hz. apply H. now right.
Qed.

Lemma all_lower (P : ascii -> bool) s :
  (forall c, P c = true -> P (Char.lower c) = true) ->
  Str.all P s = true -> Str.all P (Str.lower s) = true.
Proof.
  intros H. induction s as [|a s IH]; [reflexivity|].
  unfold Str.lower in *. cbn [Str.all Str.map].
  intros [Ha Hs]%andb_true_iff. now rewrite (H a Ha), (IH Hs).
Qed.

(** Replacing every match of a one-character class by nothing is a
    filter. *)
Lemma sub_class_filter fl neg its s : forall prev,
  sub_go fl (Cat (Cset neg its) Eps) "" prev s 0
  = Str.filter (fun c => negb (char_test fl (Cset neg its) c)) s.
Proof.
  induction s as [|a s IH]; intros prev; [reflexivity|].
  cbn [sub_go Str.filter]. unfold match_at. cbn [run]. unfold one.
  cbn [rest]. destruct (char_test fl (Cset neg its) a); cbn [negb].
  - unfold accept. cbn [rest].
    replace (String.length (String a s) - String.length s) with 1
      by (cbn [String.length]; lia).
    change (expand "" None +:+ sub_go fl (Cat (Cset neg its) Eps) "" (Some a) s 0)
      with (sub_go fl (Cat (Cset neg its) Eps) "" (Some a) s 0).
    apply IH.
  - now rewrite IH.
Qed.

Lemma kept_clean (c : ascii) :
  kept_char c = true -> Char.is_space c = false -> clean_char c = true.
Proof. destruct c as [[] [] [] [] [] [] [] []]; vm_compute; congruence. Qed.

Lemma words_clean s w :
  Str.all kept_char s = true -> In w (Str.words s) ->
  Str.all clean_char w = true.
Proof.
  intros Hs Hw. unfold Str.words in Hw. apply List.filter_In in Hw as [Hw _].
  pose proof (all_split_by _ _ _ _ Hs Hw) as Hk.
  pose proof (Sentences.split_by_pieces _ _ _ Hw) as Hc.
  clear Hw Hs. induction w as [|a w IH]; [reflexivity|].
  cbn [Str.all Scan.count] in *. apply andb_true_iff in Hk as [Ha Hk].
  destruct (Char.is_space a) eqn:Esp; [discriminate|].
  rewrite (kept_clean a Ha Esp). now apply IH.
Qed.

Lemma expansions_clean key expansion :
  medical_abbreviations !! key = Some expansion ->
  Str.all clean_char expansion = true.
Proof.
  intros H. unfold medical_abbreviations in H.
  apply elem_of_list_to_map_2 in H.
  repeat (apply elem_of_cons in H as [H|H];
          [injection H; intros -> _; reflexivity|]).
  now apply elem_of_nil in H.
Qed.

Lemma expand_abbreviations_clean text :
  Str.all kept_char text = true ->
  Str.all clean_char (_expand_abbreviations text) = true.
Proof.
  intros H. unfold _expand_abbreviations. cbv zeta.
  apply all_join; [reflexivity|]. intros x Hx.
  apply List.in_map_iff in Hx as (w & <- & Hw).
  pose proof (words_clean _ _ H Hw) as Hc.
  destruct (medical_abbreviations !! _) as [expansion|] eqn:E; [|exact Hc].
  rewrite all_app, (expansions_clean _ _ E). cbn [andb].
  now apply all_filter_keep.
Qed.

Lemma clean_punctuation_clean text :
  Str.all clean_char text = true ->
  Str.all clean_char (_clean_punctuation text) = true.
Proof.
  intros H. unfold _clean_punctuation. cbv zeta.
  apply all_join; [reflexivity|]. intros x Hx.
  apply List.in_flat_map in Hx as (piece & Hpiece & Hx).
  assert (Hp : Str.all clean_char (Str.strip piece) = true).
  { apply all_strip_by. refine (all_split_by _ _ _ _ _ Hpiece).
    apply sub_keeps; [vm_compute; reflexivity|reflexivity|].
    apply sub_keeps; [vm_compute; reflexivity|reflexivity|exact H]. }
  cbv zeta in Hx.
  destruct (Str.last (Str.strip piece)) as [c|].
  - destruct (is_terminal c).
    + destruct (Str.nonempty _); [|contradiction].
      destruct Hx as [<-|[]]. exact Hp.
    + destruct (Str.nonempty _); [|contradiction].
      destruct Hx as [<-|[]]. now rewrite all_app, Hp.
  - destruct (Str.nonempty _); [|contradiction].
    destruct Hx as [<-|[]]. exact Hp.
Qed.

Lemma remove_phi_clean text :
  Str.all clean_char text = true ->
  Str.all clean_char (_remove_phi_patterns text) = true.
Proof.
  intros H. unfold _remove_phi_patterns. cbv zeta.
  repeat (apply sub_keeps; [vm_compute; reflexivity|reflexivity|]).
  exact H.
Qed.

Lemma removed_class_kept text :
  Str.all kept_char (Re.sub "[^\w\s\.,;:!?\-\(\)\/]" "" no_flags text) = true.
Proof.
  unfold Re.sub.
  assert (Hparse : parse "[^\w\s\.,;:!?\-\(\)\/]"
                   = Some (Cat (Cset true
                                  [IWord; ISpace; IChar "."; IChar ",";
                                   IChar ";"; IChar ":"; IChar "!";
                                   IChar "?"; IChar "-"; IChar "(";
                                   IChar ")"; IChar "/"]) Eps))
    by (vm_compute; reflexivity).
  rewrite Hparse. unfold sub_re. rewrite sub_class_filter.
  apply all_filter. intros c.
  destruct c as [[] [] [] [] [] [] [] []]; vm_compute; congruence.
Qed.

End CleanFacts.


(** ** What the extracted values are made of *)

Module ValueFacts.

Import Re Charset CharsetFacts.

Lemma word_lower (c : ascii) : Char.is_word (Char.lower c) = Char.is_word c.
Proof. destruct c as [[] [] [] [] [] [] [] []]; reflexivity. Qed.

Lemma word_upper (c : ascii) : Char.is_word (Char.upper c) = Char.is_word c.
Proof. destruct c as [[] [] [] [] [] [] [] []]; reflexivity. Qed.

Lemma title_go_word s : forall b,
  Str.all Char.is_word s = true ->
  Str.all Char.is_word (Str.title_go b s) = true.
Proof.
  induction s as [|a s IH]; intros b; [reflexivity|].
  cbn [Str.all Str.title_go]. intros [Ha Hs]%andb_true_iff.
  destruct (Char.is_alpha a); cbn [Str.all].
  - destruct b; [rewrite word_lower|rewrite word_upper];
      now rewrite Ha, IH.
  - now rewrite Ha, IH.
Qed.

Lemma first_match_reads Q patterns text found :
  forallb (pattern_group_reads IGNORECASE Q) patterns = true ->
  first_match patterns text = Some found ->
  Str.all Q found = true.
Proof.
  induction patterns as [|pattern patterns IH]; [discriminate|].
  cbn [forallb first_match]. intros [Hp Hps]%andb_true_iff.
  destruct (Re.search pattern IGNORECASE text) as [m|] eqn:E.
  - intros [= <-]. apply CleanFacts.all_strip_by.
    exact (search_reads _ _ _ _ _ Hp E).
  - now apply IH.
Qed.

Lemma procedures_fragment text p :
  In p (procedures (extract_key_information text)) ->
  Str.all fragment_char p = true.
Proof.
  intros H. cbn [extract_key_information procedures] in H.
  apply (proj1 (EntityFacts.in_list_of_set _ _)) in H.
  apply List.in_flat_map in H as (keyword & Hk & H).
  destruct (Str.contains _ _); [|contradiction].
  destruct H as [<-|[]].
  unfold procedure_keywords in Hk.
  repeat (destruct Hk as [<-|Hk]; [vm_compute; reflexivity|]).
  contradiction.
Qed.

Lemma diagnosis_fragment text :
  Str.all fragment_char (_extract_diagnosis_info text) = true.
Proof.
  unfold _extract_diagnosis_info.
  destruct (first_match diagnosis_patterns text) as [found|] eqn:E;
    [|reflexivity].
  refine (first_match_reads _ _ _ _ _ E). vm_compute. reflexivity.
Qed.

Lemma treatment_fragment text :
  Str.all fragment_char
    (_extract_treatment_info text (extract_key_information text)) = true.
Proof.
  unfold _extract_treatment_info.
  destruct (first_match treatment_patterns text) as [found|] eqn:E.
  - refine (first_match_reads _ _ _ _ _ E). vm_compute. reflexivity.
  - destruct (procedures (extract_key_information text)) as [|p ps] eqn:Ep;
      [reflexivity|].
    apply CleanFacts.all_join; [reflexivity|]. intros x Hx.
    apply (procedures_fragment text). rewrite Ep.
    now apply (Sentences.in_firstn x 2).
Qed.

Lemma recommendations_fragment text :
  Str.all fragment_char (_extract_recommendations text) = true.
Proof.
  unfold _extract_recommendations.
  destruct (first_match rec_patterns text) as [found|] eqn:E; [|reflexivity].
  refine (first_match_reads _ _ _ _ _ E). vm_compute. reflexivity.
Qed.

Lemma medication_word text m :
  In m (medications (extract_key_information text)) ->
  Str.all Char.is_word m = true.
Proof.
  intros H. cbn [extract_key_information medications] in H.
  apply (proj1 (EntityFacts.in_list_of_set _ _)) in H.
  apply List.in_flat_map in H as (pattern & Hp & H).
  apply List.in_map_iff in H as (x & <- & Hx).
  apply title_go_word.
  refine (findall_reads _ _ _ _ _ _ Hx).
  unfold med_patterns in Hp.
  repeat (destruct Hp as [<-|Hp]; [vm_compute; reflexivity|]).
  contradiction.
Qed.

End ValueFacts.

(** X11.  The value captured for a vital sign is made of digits, with the
    slash for the blood pressure and the decimal point for the
    temperature, and of nothing else. *)
Theorem vital_values_are_numeric (text vital value : string) :
  In (vital, value) (vital_signs (extract_key_information text)) ->
  Str.all (Charset.vital_char vital) value = true.
Proof.
  intros H. cbn [extract_key_information vital_signs] in H.
  apply List.in_flat_map in H as ([vital' pattern] & Hp & H).
  destruct (Re.search pattern Re.no_flags (Str.lower text)) as [m|] eqn:E;
    [|contradiction].
  destruct H as [[= <- <-]|[]].
  unfold vital_patterns in Hp.
  repeat (destruct Hp as [[= <- <-]|Hp];
          [refine (CharsetFacts.search_reads _ _ _ _ _ _ E);
           vm_compute; reflexivity|]).
  contradiction.
Qed.

Lemma vital_values_are_numeric_witness :
  In ("blood_pressure", "120/80")
     (vital_signs (extract_key_information "BP: 120/80, HR 72"))
  /\ Str.all (Charset.vital_char "blood_pressure") "120/80" = true.
Proof.
  assert (H : In ("blood_pressure", "120/80")
                (vital_signs (extract_key_information "BP: 120/80, HR 72")))
    by (vm_compute; left; reflexivity).
  split; [exact H|].
  exact (vital_values_are_numeric "BP: 120/80, HR 72" "blood_pressure"
           "120/80" H).
Defined.



(** X13.  The diagnosis, the treatment and the recommendation that the
    summaries quote never hold a period or a line break: each one is a
    fragment of one sentence of one line (the treatment also when it falls
    back on the names of the procedures). *)
Theorem quoted_fragments_hold_no_period (text : string) :
  Str.all Charset.fragment_char (_extract_diagnosis_info text) = true
  /\ Str.all Charset.fragment_char
       (_extract_treatment_info text (extract_key_information text)) = true
  /\ Str.all Charset.fragment_char (_extract_recommendations text) = true.
Proof.
  repeat apply conj.
  - apply ValueFacts.diagnosis_fragment.
  - apply ValueFacts.treatment_fragment.
  - apply ValueFacts.recommendations_fragment.
Qed.

(** ** The contents of the sections *)

Module SectionShape.

Import Re SectionSpec Charset CharsetFacts Lines.

Lemma sections_lookup (text header : string) :
  In header section_headers ->
  extract_sections text !! header = section_of header (Str.lower text).
Proof.
  intros H. rewrite SectionFacts.extract_sections_fold.
  rewrite (SectionFacts.loop_found _ section_headers ∅ header
             SectionFacts.section_headers_nodup H).
  rewrite (SectionFacts.section_value header text H).
  now destruct (section_of header (Str.lower text)).
Qed.

Lemma sections_keys (text header content : string) :
  extract_sections text !! header = Some content ->
  In header section_headers.
Proof.
  intros H.
  destruct (in_dec string_dec header section_headers) as [Hin|Hout];
    [exact Hin|].
  rewrite SectionFacts.extract_sections_fold in H.
  rewrite (SectionFacts.loop_other _ section_headers ∅ header Hout) in H.
  now rewrite lookup_empty in H.
Qed.

(** *** Parts of a text *)

Lemma all_drop (P : ascii -> bool) n : forall s,
  Str.all P s = true -> Str.all P (Str.drop n s) = true.
Proof.
  induction n as [|n IH]; intros [|a s] H; try exact H.
  cbn [Str.drop]. cbn [Str.all] in H.
  apply andb_true_iff in H as [_ H]. now apply IH.
Qed.

Lemma drop_suffix n : forall s, exists w, s = w +:+ Str.drop n s.
Proof.
  induction n as [|n IH]; intros [|a s]; try (now exists "").
  destruct (IH s) as (w & Hw). exists (String a w).
  cbn [Str.drop]. change (String a w +:+ Str.drop n s)
    with (String a (w +:+ Str.drop n s)). now rewrite <- Hw.
Qed.

Lemma find_header_all (P : ascii -> bool) header s : forall prev after,
  Str.all P s = true ->
  find_header header prev s = Some after -> Str.all P after = true.
Proof.
  induction s as [|a s IH]; intros prev after Hs H; cbn [find_header] in H.
  - destruct (_ && _); [|discriminate]. injection H as <-.
    now apply all_drop.
  - destruct (_ && _).
    + injection H as <-. now apply all_drop.
    + cbn [Str.all] in Hs. apply andb_true_iff in Hs as [_ Hs].
      exact (IH _ _ Hs H).
Qed.

Lemma find_header_suffix header s : forall prev after,
  find_header header prev s = Some after -> exists w, s = w +:+ after.
Proof.
  induction s as [|a s IH]; intros prev after H; cbn [find_header] in H.
  - destruct (_ && _); [|discriminate]. injection H as <-.
    apply drop_suffix.
  - destruct (_ && _).
    + injection H as <-. apply drop_suffix.
    + destruct (IH _ _ H) as (w & ->). now exists (String a w).
Qed.

Lemma skip_label_end_all (P : ascii -> bool) s :
  Str.all P s = true -> Str.all P (skip_label_end s) = true.
Proof.
  intros H. unfold skip_label_end. apply CleanFacts.all_lstrip.
  destruct s as [|a s]; [exact H|]. cbn [skip_colon].
  destruct (Ascii.eqb a ":"); [|exact H].
  cbn [Str.all] in H. now apply andb_true_iff in H as [_ H].
Qed.

Lemma lstrip_suffix f s : exists w, s = w +:+ Str.lstrip_by f s.
Proof.
  induction s as [|a s (w & IH)]; [now exists ""|]. cbn [Str.lstrip_by].
  destruct (f a); [|now exists ""]. exists (String a w).
  change (String a w +:+ Str.lstrip_by f s)
    with (String a (w +:+ Str.lstrip_by f s)). now rewrite <- IH.
Qed.

Lemma skip_label_end_suffix s : exists w, s = w +:+ skip_label_end s.
Proof.
  unfold skip_label_end.
  destruct (lstrip_suffix Char.is_space (skip_colon s)) as (w & Hw).
  destruct s as [|a s]; [now exists w|]. cbn [skip_colon] in *.
  destruct (Ascii.eqb a ":"); [|now exists w].
  exists (String a w).
  change (String a w +:+ Str.lstrip_by Char.is_space s)
    with (String a (w +:+ Str.lstrip_by Char.is_space s)).
  now rewrite <- Hw.
Qed.

Lemma up_to_header_line_all (P : ascii -> bool) s :
  Str.all P s = true -> Str.all P (up_to_header_line s) = true.
Proof.
  induction s as [|a s IH]; intros H.
  - cbn [up_to_header_line]. now destruct (_ || _).
  - cbn [up_to_header_line]. destruct (_ || _); [reflexivity|].
    cbn [Str.all] in *. apply andb_true_iff in H as [Ha Hs].
    now rewrite Ha, IH.
Qed.

(** Without a line break there is no header line: the capture runs to the
    end of the text. *)
Lemma up_to_header_line_one_line s :
  Str.all one_line s = true -> up_to_header_line s = s.
Proof.
  induction s as [|a s IH]; intros H; [reflexivity|].
  cbn [Str.all] in H. apply andb_true_iff in H as [Ha Hs].
  unfold one_line in Ha. apply negb_true_iff in Ha.
  cbn [up_to_header_line header_line text_end]. rewrite Ha. cbn [andb orb].
  destruct s as [|b s]; [reflexivity|]. now rewrite (IH Hs).
Qed.

Lemma rstrip_app f w v :
  Str.nonempty (Str.rstrip_by f v) = true ->
  Str.rstrip_by f (w +:+ v) = w +:+ Str.rstrip_by f v.
Proof.
  intros H. induction w as [|a w IH]; [reflexivity|].
  change (String a w +:+ v) with (String a (w +:+ v)).
  change (String a w +:+ Str.rstrip_by f v)
    with (String a (w +:+ Str.rstrip_by f v)).
  cbn [Str.rstrip_by]. rewrite IH.
  destruct (w +:+ Str.rstrip_by f v) as [|b t] eqn:E; [|reflexivity].
  destruct w; [|discriminate E].
  change ("" +:+ Str.rstrip_by f v) with (Str.rstrip_by f v) in E.
  now rewrite E in H.
Qed.

Lemma endswith_app w c : Str.endswith c (w +:+ c) = true.
Proof.
  induction w as [|a w IH].
  - change ("" +:+ c) with c. destruct c; cbn [Str.endswith];
      now rewrite String.eqb_refl.
  - change (String a w +:+ c) with (String a (w +:+ c)).
    cbn [Str.endswith]. rewrite IH. apply orb_true_r.
Qed.

(** *** Lower-cased texts *)

Lemma all_lowered s : Str.all lowered (Str.lower s) = true.
Proof.
  induction s as [|a s IH]; [reflexivity|].
  unfold Str.lower in *. cbn [Str.map Str.all]. rewrite IH.
  unfold lowered. now rewrite EntityFacts.lower_lower, Ascii.eqb_refl.
Qed.

Lemma lower_fixed s : Str.all lowered s = true -> Str.lower s = s.
Proof.
  induction s as [|a s IH]; [reflexivity|].
  unfold Str.lower in *. cbn [Str.map Str.all].
  intros [Ha Hs]%andb_true_iff. unfold lowered in Ha.
  apply Ascii.eqb_eq in Ha. now rewrite Ha, (IH Hs).
Qed.

Lemma one_line_lower (c : ascii) :
  one_line c = true -> one_line (Char.lower c) = true.
Proof. destruct c as [[] [] [] [] [] [] [] []]; vm_compute; congruence. Qed.

Lemma clean_one_line (c : ascii) : clean_char c = true -> one_line c = true.
Proof. destruct c as [[] [] [] [] [] [] [] []]; vm_compute; congruence. Qed.

(** *** The section of a header *)

Lemma section_of_shape header s content :
  Str.all lowered s = true ->
  section_of header s = Some content ->
  Str.nonempty content = true /\ Str.strip content = content
  /\ Str.lower content = content.
Proof.
  intros Hs H. unfold section_of in H.
  destruct (find_header header None s) as [after|] eqn:E; [|discriminate].
  cbv zeta in H.
  destruct (Str.nonempty (Str.strip _)) eqn:Hne; [|discriminate].
  injection H as <-. split; [exact Hne|]. split.
  - apply StripFacts.strip_idempotent.
  - apply lower_fixed, CleanFacts.all_strip_by, up_to_header_line_all,
      skip_label_end_all.
    exact (find_header_all _ _ _ _ _ Hs E).
Qed.

Lemma section_of_one_line header s content :
  Str.all one_line s = true ->
  section_of header s = Some content ->
  Str.endswith content (Str.rstrip_by Char.is_space s) = true.
Proof.
  intros Hs H. unfold section_of in H.
  destruct (find_header header None s) as [after|] eqn:E; [|discriminate].
  cbv zeta in H.
  rewrite up_to_header_line_one_line in H
    by (apply skip_label_end_all; exact (find_header_all _ _ _ _ _ Hs E)).
  destruct (Str.nonempty (Str.strip _)) eqn:Hne; [|discriminate].
  injection H as <-.
  destruct (find_header_suffix _ _ _ _ E) as (w1 & ->).
  destruct (skip_label_end_suffix after) as (w2 & H2).
  destruct (lstrip_suffix Char.is_space (skip_label_end after))
    as (w3 & H3).
  unfold Str.strip, Str.strip_by in *.
  rewrite H2 at 2. rewrite H3 at 2.
  rewrite <- !Truncation.append_assoc.
  rewrite (rstrip_app _ _ _ Hne). apply endswith_app.
Qed.

Lemma clean_text_one_line text :
  Str.all one_line (Str.lower (clean_text text)) = true.
Proof.
  apply CleanFacts.all_lower; [exact one_line_lower|].
  apply (all_weaken clean_char); [exact clean_one_line|].
  unfold clean_text. destruct (Str.nonempty text); [|reflexivity].
  cbn [negb]. cbv zeta.
  apply CleanFacts.remove_phi_clean, CleanFacts.clean_punctuation_clean,
    CleanFacts.expand_abbreviations_clean, CleanFacts.removed_class_kept.
Qed.

End SectionShape.

(** X14.  Whatever the text, an entry of the section map has a header of
    the vocabulary as its key, and its content is not empty, has no
    whitespace at either end and is in lower case: the sections are read
    from the lower-cased text. *)
Theorem sections_are_lower_case (text header content : string) :
  extract_sections text !! header = Some content ->
  In header section_headers
  /\ Str.nonempty content = true
  /\ Str.strip content = content
  /\ Str.lower content = content.
Proof.
  intros H. pose proof (SectionShape.sections_keys _ _ _ H) as Hin.
  split; [exact Hin|].
  rewrite (SectionShape.sections_lookup _ _ Hin) in H.
  exact (SectionShape.section_of_shape _ _ _
           (SectionShape.all_lowered text) H).
Qed.

Lemma sections_are_lower_case_witness :
  extract_sections "Chief Complaint: Chest Pain" !! "chief complaint"
  = Some "chest pain"
  /\ In "chief complaint" section_headers
  /\ Str.nonempty "chest pain" = true
  /\ Str.strip "chest pain" = "chest pain"
  /\ Str.lower "chest pain" = "chest pain".
Proof.
  assert (H : extract_sections "Chief Complaint: Chest Pain"
                !! "chief complaint" = Some "chest pain")
    by (vm_compute; reflexivity).
  split; [exact H|].
  exact (sections_are_lower_case "Chief Complaint: Chest Pain"
           "chief complaint" "chest pain" H).
Defined.

(** X15.  In a text without a line break no header ends a section: every
    section runs to the end of the text, so its content is what the
    lower-cased text ends with (the whitespace at its end apart). *)
Theorem one_line_sections_run_to_the_end (text header content : string) :
  Str.all Lines.one_line text = true ->
  extract_sections text !! header = Some content ->
  Str.endswith content (Str.rstrip_by Char.is_space (Str.lower text)) = true.
Proof.
  intros Hline H. pose proof (SectionShape.sections_keys _ _ _ H) as Hin.
  rewrite (SectionShape.sections_lookup _ _ Hin) in H.
  refine (SectionShape.section_of_one_line _ _ _ _ H).
  now apply CleanFacts.all_lower; [exact SectionShape.one_line_lower|].
Qed.

Lemma one_line_sections_run_to_the_end_witness :
  Str.all Lines.one_line "Plan: rest. Assessment: stable" = true
  /\ extract_sections "Plan: rest. Assessment: stable" !! "plan"
     = Some "rest. assessment: stable"
  /\ Str.endswith "rest. assessment: stable"
       (Str.rstrip_by Char.is_space
          (Str.lower "Plan: rest. Assessment: stable")) = true.
Proof.
  assert (H1 : Str.all Lines.one_line "Plan: rest. Assessment: stable" = true)
    by reflexivity.
  assert (H2 : extract_sections "Plan: rest. Assessment: stable" !! "plan"
               = Some "rest. assessment: stable")
    by (vm_compute; reflexivity).
  split; [exact H1|]. split; [exact H2|].
  exact (one_line_sections_run_to_the_end "Plan: rest. Assessment: stable"
           "plan" "rest. assessment: stable" H1 H2).
Defined.

(** X16.  The application summarises the cleaned text, and a cleaned text
    has no line break: every section the doctor summary reads from it runs
    to the end of the cleaned text, whatever the report. *)
Theorem cleaned_text_sections_run_to_the_end (text header content : string) :
  extract_sections (clean_text text) !! header = Some content ->
  Str.endswith content
    (Str.rstrip_by Char.is_space (Str.lower (clean_text text))) = true.
Proof.
  intros H. pose proof (SectionShape.sections_keys _ _ _ H) as Hin.
  rewrite (SectionShape.sections_lookup _ _ Hin) in H.
  exact (SectionShape.section_of_one_line _ _ _
           (SectionShape.clean_text_one_line text) H).
Qed.

Lemma cleaned_text_sections_run_to_the_end_witness :
  extract_sections (clean_text Scenario.report) !! "chief complaint"
  = Some "chest pain diagnosis: acute myocardial infarction medications: aspirin 81mg daily follow-up: cardiology in 1 week."
  /\ Str.endswith
       "chest pain diagnosis: acute myocardial infarction medications: aspirin 81mg daily follow-up: cardiology in 1 week."
       (Str.rstrip_by Char.is_space (Str.lower (clean_text Scenario.report)))
     = true.
Proof.
  assert (H : extract_sections (clean_text Scenario.report)
                !! "chief complaint"
              = Some "chest pain diagnosis: acute myocardial infarction medications: aspirin 81mg daily follow-up: cardiology in 1 week.")
    by (vm_compute; reflexivity).
  split; [exact H|].
  exact (cleaned_text_sections_run_to_the_end Scenario.report
           "chief complaint" _ H).
Defined.

(** ** The important sentences *)

Module ImportantFacts.

Import Scoring.

Lemma in_insert x y l :
  In y (insert_by_score x l) -> y = x \/ In y l.
Proof.
  induction l as [|z l IH]; cbn [insert_by_score].
  - intros [<-|[]]. now left.
  - destruct (snd z <=? snd x).
    + intros [<-|H]; [now left|now right].
    + intros [<-|H]; [right; now left|].
      destruct (IH H) as [->|Hl]; [now left|right; now right].
Qed.

Lemma in_sort y l : In y (sort_by_score l) -> In y l.
Proof.
  induction l as [|x l IH]; [exact id|]. cbn [sort_by_score fold_right].
  intros H. apply in_insert in H as [->|H]; [now left|].
  right. now apply IH.
Qed.

Lemma insert_sorted x l :
  StronglySorted (fun a b : string * nat => snd b <= snd a) l ->
  StronglySorted (fun a b : string * nat => snd b <= snd a)
    (insert_by_score x l).
Proof.
  induction l as [|y l IH]; intros H; cbn [insert_by_score].
  - constructor; constructor.
  - apply StronglySorted_inv in H as [Hl Hy].
    destruct (Nat.leb_spec (snd y) (snd x)) as [Hle|Hlt].
    + constructor; [now constructor|].
      constructor; [exact Hle|].
      apply List.Forall_forall. intros z Hz.
      rewrite List.Forall_forall in Hy. specialize (Hy z Hz). cbn in Hy. lia.
    + constructor; [now apply IH|].
      apply List.Forall_forall. intros z Hz.
      apply in_insert in Hz as [->|Hz]; [cbn; lia|].
      rewrite List.Forall_forall in Hy. exact (Hy z Hz).
Qed.

Lemma sort_sorted l :
  StronglySorted (fun a b : string * nat => snd b <= snd a)
    (sort_by_score l).
Proof.
  induction l as [|x l IH]; [constructor|].
  cbn [sort_by_score fold_right]. now apply insert_sorted.
Qed.

Lemma firstn_sorted {A} (R : A -> A -> Prop) n : forall l,
  StronglySorted R l -> StronglySorted R (firstn n l).
Proof.
  induction n as [|n IH]; intros [|x l] H; try constructor.
  - apply IH. now apply StronglySorted_inv in H.
  - apply StronglySorted_inv in H as [_ H].
    apply List.Forall_forall. intros z Hz.
    rewrite List.Forall_forall in H. apply H.
    now apply (Sentences.in_firstn z n).
Qed.

Lemma map_fst_sorted (l : list (string * nat)) :
  (forall x, In x l -> snd x = score (fst x)) ->
  StronglySorted (fun a b : string * nat => snd b <= snd a) l ->
  StronglySorted ranks_before (List.map fst l).
Proof.
  induction l as [|x l IH]; intros Hscore H; [constructor|].
  apply StronglySorted_inv in H as [Hl Hx]. cbn [List.map].
  constructor.
  - apply IH; [|exact Hl]. intros y Hy. apply Hscore. now right.
  - apply List.Forall_forall. intros s Hs.
    apply List.in_map_iff in Hs as (y & <- & Hy).
    rewrite List.Forall_forall in Hx. specialize (Hx y Hy). cbn in Hx.
    unfold ranks_before.
    rewrite <- (Hscore y (or_intror Hy)), <- (Hscore x (or_introl eq_refl)).
    exact Hx.
Qed.

(** The scored sentences, before they are sorted. *)
Lemma scored_sentence text x :
  In x
    (List.flat_map
       (fun sentence =>
          let sentence := Str.strip sentence in
          if String.length sentence <? 10 then []
          else
            let sentence_lower := Str.lower sentence in
            let score :=
              List.length
                (List.filter (fun indicator =>
                                Str.contains indicator sentence_lower)
                   important_indicators) in
            if 0 <? score then [(sentence, score)] else [])
       (Re.split "[.!?]+" Re.no_flags text)) ->
  snd x = score (fst x) /\ 0 < score (fst x)
  /\ 10 <= String.length (fst x) /\ Str.strip (fst x) = fst x.
Proof.
  intros H. apply List.in_flat_map in H as (piece & _ & H). cbv zeta in H.
  destruct (Nat.ltb_spec (String.length (Str.strip piece)) 10) as [|Hlen];
    [contradiction|].
  fold (score (Str.strip piece)) in H.
  destruct (Nat.ltb_spec 0 (score (Str.strip piece))) as [Hpos|];
    [|contradiction].
  destruct H as [<-|[]]. cbn [fst snd].
  repeat split; try assumption. apply StripFacts.strip_idempotent.
Qed.

End ImportantFacts.

(** X17.  Every important sentence has at least ten characters, has no
    whitespace at either end, and holds at least one of the indicator
    words, letters compared without case. *)
Theorem important_sentences_hold_an_indicator (text length s : string) :
  In s (_extract_important_sentences text length) ->
  10 <= String.length s
  /\ Str.strip s = s
  /\ exists indicator,
       In indicator important_indicators
       /\ Str.contains indicator (Str.lower s) = true.
Proof.
  intros H. unfold _extract_important_sentences in H. cbv zeta in H.
  apply List.in_map_iff in H as (x & <- & H).
  apply Sentences.in_firstn, ImportantFacts.in_sort in H.
  apply ImportantFacts.scored_sentence in H as (_ & Hpos & Hlen & Hstrip).
  repeat split; try assumption.
  unfold Scoring.score in Hpos.
  destruct (List.filter _ important_indicators) as [|indicator l] eqn:E;
    [cbn in Hpos; lia|].
  assert (Hin : In indicator (List.filter
                   (fun indicator =>
                      Str.contains indicator (Str.lower (fst x)))
                   important_indicators))
    by (rewrite E; now left).
  apply List.filter_In in Hin as [Hin Hc]. exists indicator.
  split; [exact Hin|exact Hc].
Qed.

Lemma important_sentences_hold_an_indicator_witness :
  In "Diagnosis of pneumonia"
     (_extract_important_sentences "Diagnosis of pneumonia. Stable." "short")
  /\ 10 <= String.length "Diagnosis of pneumonia"
  /\ Str.strip "Diagnosis of pneumonia" = "Diagnosis of pneumonia"
  /\ exists indicator,
       In indicator important_indicators
       /\ Str.contains indicator (Str.lower "Diagnosis of pneumonia") = true.
Proof.
  assert (H : In "Diagnosis of pneumonia"
                (_extract_important_sentences
                   "Diagnosis of pneumonia. Stable." "short"))
    by (vm_compute; left; reflexivity).
  split; [exact H|].
  exact (important_sentences_hold_an_indicator
           "Diagnosis of pneumonia. Stable." "short"
           "Diagnosis of pneumonia" H).
Defined.

(** X18.  The important sentences are at most as many as the cap of the
    tier (the medium one for an unknown tier) and are ranked by score: no
    sentence holds more indicators than a sentence before it. *)
Theorem important_sentences_ranked (text length : string) :
  List.length (_extract_important_sentences text length)
  <= dict_get [("short", 3); ("medium", 5); ("long", 8)] length 5
  /\ StronglySorted Scoring.ranks_before
       (_extract_important_sentences text length).
Proof.
  unfold _extract_important_sentences. cbv zeta. split.
  - rewrite List.length_map, List.length_firstn. lia.
  - apply ImportantFacts.map_fst_sorted.
    + intros x Hx.
      apply Sentences.in_firstn, ImportantFacts.in_sort in Hx.
      now apply ImportantFacts.scored_sentence in Hx.
    + apply ImportantFacts.firstn_sorted, ImportantFacts.sort_sorted.
Qed.

(** ** Texts of which nothing is kept *)

Module DroppedFacts.

Import Re Charset CharsetFacts.







End DroppedFacts.



(** ** The application *)

Module AppFacts.

Lemma choice_tiers label :
  In label App.summary_lengths ->
  exists first rest,
    Str.words label = first :: rest
    /\ dict_get [("short", 3); ("medium", 5); ("long", 8)] (Str.lower first) 5
       <= App.promised_maximum label
    /\ dict_get [("short", 2); ("medium", 4); ("long", 6)] (Str.lower first) 4
       <= App.promised_maximum label.
Proof.
  intros H. unfold App.summary_lengths in H.
  repeat (destruct H as [<-|H];
          [eexists; eexists; split; [vm_compute; reflexivity|];
           split; vm_compute; lia|]).
  contradiction.
Qed.

End AppFacts.



(** X20.  For each choice of the select box, the summaries that the
    application stores have at most as many sentences as the choice
    names: at most 3, 5 and 8. *)
Theorem summaries_within_the_chosen_length (text_content label : string)
    (m p r : bool) (doctor patient : string) (n1 n2 n3 : nat) :
  In label App.summary_lengths ->
  App.main text_content label m p r = App.Summaries doctor patient n1 n2 n3 ->
  sentence_count doctor <= App.promised_maximum label
  /\ sentence_count patient <= App.promised_maximum label.
Proof.
  intros Hin H.
  destruct (AppFacts.choice_tiers label Hin)
    as (first & rest & Hw & Hd & Hp).
  unfold App.main in H.
  destruct (negb (Str.nonempty (Str.strip text_content))); [discriminate|].
  cbv zeta in H.
  destruct (negb (Str.nonempty (Str.strip (clean_text text_content))));
    [discriminate|].
  rewrite Hw in H.
  pose proof (f_equal (fun o => match o with
                                | App.Summaries d _ _ _ _ => d
                                | App.Error _ => ""
                                end) H) as Hdoctor.
  pose proof (f_equal (fun o => match o with
                                | App.Summaries _ q _ _ _ => q
                                | App.Error _ => ""
                                end) H) as Hpatient.
  cbv beta iota in Hdoctor, Hpatient. rewrite <- Hdoctor, <- Hpatient.
  split.
  - etransitivity; [apply Sentences.doctor_summary_bound|exact Hd].
  - etransitivity; [apply Sentences.patient_summary_bound|exact Hp].
Qed.

Lemma summaries_within_the_chosen_length_witness :
  In "Short (2-3 sentences)" App.summary_lengths
  /\ App.main "Diagnosis: flu. Plan: rest." "Short (2-3 sentences)"
       true true true
     = App.Summaries "**Diagnosis**: flu

**Treatment**: rest"
         "You came to the hospital for medical care. Tests and examinations showed that you have flu."
         4 4 16
  /\ sentence_count "**Diagnosis**: flu

**Treatment**: rest" <= App.promised_maximum "Short (2-3 sentences)"
  /\ sentence_count
       "You came to the hospital for medical care. Tests and examinations showed that you have flu."
     <= App.promised_maximum "Short (2-3 sentences)".
Proof.
  assert (Hin : In "Short (2-3 sentences)" App.summary_lengths)
    by (left; reflexivity).
  assert (H : App.main "Diagnosis: flu. Plan: rest." "Short (2-3 sentences)"
                true true true
              = App.Summaries "**Diagnosis**: flu

**Treatment**: rest"
                  "You came to the hospital for medical care. Tests and examinations showed that you have flu."
                  4 4 16)
    by (vm_compute; reflexivity).
  split; [exact Hin|]. split; [exact H|].
  exact (summaries_within_the_chosen_length _ _ _ _ _ _ _ _ _ _ Hin H).
Defined.

(** ** The patient summary is one paragraph *)

Module PatientFacts.

Import Re Charset CharsetFacts Lines.

Lemma fragment_one_line (c : ascii) :
  fragment_char c = true -> one_line c = true.
Proof. destruct c as [[] [] [] [] [] [] [] []]; vm_compute; congruence. Qed.

Lemma word_one_line (c : ascii) : Char.is_word c = true -> one_line c = true.
Proof. destruct c as [[] [] [] [] [] [] [] []]; vm_compute; congruence. Qed.

Lemma lower_one_line s :
  Str.all one_line s = true -> Str.all one_line (Str.lower s) = true.
Proof. apply CleanFacts.all_lower. exact SectionShape.one_line_lower. Qed.

Lemma fragment_lower_one_line s :
  Str.all fragment_char s = true -> Str.all one_line (Str.lower s) = true.
Proof.
  intros H. apply lower_one_line.
  exact (all_weaken _ _ _ fragment_one_line H).
Qed.

Lemma reason_one_line text : forall patterns,
  forallb (pattern_group_reads IGNORECASE fragment_char) patterns = true ->
  Str.all one_line (_extract_patient_reason_go patterns text) = true.
Proof.
  induction patterns as [|pattern patterns IH]; [reflexivity|].
  cbn [forallb _extract_patient_reason_go].
  intros [Hp Hps]%andb_true_iff.
  destruct (Re.search pattern IGNORECASE text) as [m|] eqn:E;
    [|now apply IH].
  cbv zeta. rewrite !all_app. rewrite fragment_lower_one_line; [reflexivity|].
  apply CleanFacts.all_strip_by. exact (search_reads _ _ _ _ _ Hp E).
Qed.

Lemma medications_one_line text n :
  Str.all one_line
    (Str.join ", " (firstn n (medications (extract_key_information text))))
  = true.
Proof.
  apply CleanFacts.all_join; [reflexivity|]. intros x Hx.
  apply Sentences.in_firstn in Hx.
  exact (all_weaken _ _ _ word_one_line (ValueFacts.medication_word text x Hx)).
Qed.

Lemma explanation_one_line text :
  Str.all one_line
    (_explain_medications_to_patient
       (medications (extract_key_information text))) = true.
Proof.
  unfold _explain_medications_to_patient.
  pose proof (medications_one_line text 3) as H3.
  pose proof (ValueFacts.medication_word text) as Hword.
  destruct (medications (extract_key_information text)) as [|m [|m' l]];
    [reflexivity| |].
  - rewrite !all_app.
    rewrite (all_weaken _ _ _ word_one_line (Hword m (or_introl eq_refl))).
    reflexivity.
  - cbv zeta. rewrite !all_app, H3. reflexivity.
Qed.

Lemma translate_one_line text :
  Str.all one_line text = true ->
  Str.all one_line (_translate_for_patients text) = true.
Proof.
  unfold _translate_for_patients.
  assert (Hall : forallb
            (fun '(medical_term, patient_term) =>
               pattern_group_reads IGNORECASE one_line
                 ("\b" +:+ Re.escape medical_term +:+ "\b")
               && Str.all one_line (literals patient_term))
            patient_translations = true)
    by (vm_compute; reflexivity).
  revert text.
  induction patient_translations as [|[term replacement] l IH];
    intros text H; [exact H|].
  cbn [forallb] in Hall. apply andb_true_iff in Hall as [Hx Hl].
  apply andb_true_iff in Hx as [Hp Ht].
  cbn [fold_left]. apply (IH Hl). now apply sub_keeps.
Qed.

Lemma sentence_all (P : ascii -> bool) s x :
  Str.all P s = true -> In x (sentences_of s) -> Str.all P x = true.
Proof.
  intros Hs Hx. rewrite Sentences.sentences_of_split_by in Hx.
  unfold Scan.kept in Hx. apply List.filter_In in Hx as [Hx _].
  apply List.in_map_iff in Hx as (piece & <- & Hp).
  apply CleanFacts.all_strip_by. exact (CleanFacts.all_split_by _ _ _ _ Hs Hp).
Qed.

Lemma adjust_patient_one_line summary length :
  Str.all one_line summary = true ->
  Str.all one_line (_adjust_patient_summary summary length) = true.
Proof.
  intros H. unfold _adjust_patient_summary. cbv zeta.
  match goal with
  | |- context [if Str.endswith "." ?s then _ else _] =>
      assert (Hs : Str.all one_line s = true); [|destruct (Str.endswith "." s)]
  end.
  - destruct (_ <? _); [|exact H].
    rewrite all_app, andb_true_r. apply CleanFacts.all_join; [reflexivity|].
    intros x Hx. apply Sentences.in_firstn in Hx.
    exact (sentence_all _ _ _ H Hx).
  - exact Hs.
  - now rewrite all_app, Hs.
Qed.

End PatientFacts.

(** X21.  Whatever the report and the options, the patient summary is one
    paragraph: it holds no line break.  (The fragments it quotes stop
    at a line break, the medication names are single words, and neither
    the translation nor the truncation brings one in.) *)
Theorem patient_summary_is_one_paragraph (text : string)
    (options : Options) :
  Str.all Lines.one_line (generate_patient_summary text options) = true.
Proof.
  unfold generate_patient_summary. cbv zeta.
  match goal with
  | |- context [_adjust_patient_summary ?s ?l] =>
      assert (Hs : Str.all Lines.one_line (_adjust_patient_summary s l)
                   = true);
      [|destruct (Str.nonempty (_adjust_patient_summary s l));
        [exact Hs|reflexivity]]
  end.
  apply PatientFacts.adjust_patient_one_line,
    PatientFacts.translate_one_line, CleanFacts.all_join; [reflexivity|].
  intros x Hx. apply List.filter_In in Hx as [Hx _].
  repeat destruct Hx as [<-|Hx]; try contradiction.
  - apply PatientFacts.reason_one_line. vm_compute. reflexivity.
  - unfold _extract_patient_diagnosis. cbv zeta.
    destruct (Str.nonempty _); [|reflexivity].
    rewrite !CharsetFacts.all_app,
      (PatientFacts.fragment_lower_one_line _
         (ValueFacts.diagnosis_fragment text)).
    reflexivity.
  - unfold _extract_patient_treatment. cbv zeta.
    destruct (Str.nonempty _); [|reflexivity].
    rewrite !CharsetFacts.all_app,
      (PatientFacts.fragment_lower_one_line _
         (ValueFacts.treatment_fragment text)).
    reflexivity.
  - destruct (include_medications options); [|reflexivity].
    apply PatientFacts.explanation_one_line.
  - destruct (include_recommendations options); [|reflexivity].
    unfold _extract_patient_next_steps. cbv zeta.
    destruct (Str.nonempty _); [|reflexivity].
    rewrite CharsetFacts.all_app,
      (PatientFacts.fragment_lower_one_line _
         (ValueFacts.recommendations_fragment text)).
    reflexivity.
Qed.
